(** * DataEngineerTools, 1Introduction/Part4: a shallow embedding

    The Python exercises build a small scraping toolkit:
    - [Part4_exo2.py]: [remove_extra_spaces], [html_to_text],
      [extract_domain];
    - [Part4_exo1.py], [Part4_exo3.py]: HTTP requesters with a recursive
      retry ([_request_with_retry]), [get_soup] and [parse_page];
    - [Part4_exo4.py]: the search scraper;
    - [Part4_exo_final.py]: [RSSNewsScraper], its feeds and
      [scrape_article].

    Python [str] values are sequences of Unicode code points; they are
    modelled as lists of code points ([N]).  Exceptions are modelled by the
    [result] type, the network and the clock by an explicit [World] that is
    threaded through the calls, the depth of the stack by a bound on the
    nested calls of the retry. *)

From Stdlib Require Import Ascii String.
From Stdlib Require Import List NArith ZArith QArith Bool Lia.
From Equations Require Import Equations.
Import ListNotations.

Close Scope Q_scope.
Set Implicit Arguments.

(* ===================================================================== *)
(** * Part I: definitions *)
(* ===================================================================== *)

(** ** Python strings *)

Module Py.

Definition char := N.
Definition str := list char.

(** A string literal of the source, as its code points. *)
Definition lit (s : string) : str :=
  List.map N_of_ascii (list_ascii_of_string s).

Definition SP : char := 32%N.
Definition NL : char := 10%N.

(** [bool(s)] for a string: non-empty. *)
Definition truthy (s : str) : bool :=
  match s with [] => false | _ :: _ => true end.

Fixpoint str_eqb (a b : str) : bool :=
  match a, b with
  | [], [] => true
  | x :: a', y :: b' => (x =? y)%N && str_eqb a' b'
  | _, _ => false
  end.

(** [c in s] for a character [c]. *)
Definition contains (c : char) (s : str) : bool :=
  existsb (N.eqb c) s.

(** [x in l] for a list of strings [l]. *)
Definition str_in (x : str) (l : list str) : bool :=
  existsb (str_eqb x) l.

(** [s.startswith(p)]. *)
Fixpoint startswith (p s : str) : bool :=
  match p, s with
  | [], _ => true
  | x :: p', y :: s' => (x =? y)%N && startswith p' s'
  | _ :: _, [] => false
  end.

(** [p in s] for a substring [p]. *)
Fixpoint substring_in (p s : str) : bool :=
  startswith p s ||
  match s with
  | [] => false
  | _ :: s' => substring_in p s'
  end.

(** [str.isspace] on one code point (CPython's [_PyUnicode_IsWhitespace]):
    this is the class that [str.strip()] removes. *)
Definition isspace (c : char) : bool :=
  ((9 <=? c) && (c <=? 13) || (28 <=? c) && (c <=? 32) || (c =? 133)
   || (c =? 160) || (c =? 5760) || (8192 <=? c) && (c <=? 8202)
   || (c =? 8232) || (c =? 8233) || (c =? 8239) || (c =? 8287)
   || (c =? 12288))%N.

(** [s.lstrip()], [s.rstrip()], [s.strip()]. *)
Fixpoint lstrip (s : str) : str :=
  match s with
  | [] => []
  | c :: t => if isspace c then lstrip t else s
  end.

Definition rstrip (s : str) : str := rev (lstrip (rev s)).

Definition strip (s : str) : str := rstrip (lstrip s).

(** [s.split(sep)] for a one-character separator. *)
Fixpoint split (sep : char) (s : str) : list str :=
  match s with
  | [] => [[]]
  | c :: t =>
      if (c =? sep)%N then [] :: split sep t
      else match split sep t with
           | l :: ls => (c :: l) :: ls
           | [] => [[c]]
           end
  end.

(** [sep.join(l)]. *)
Fixpoint join (sep : str) (l : list str) : str :=
  match l with
  | [] => []
  | x :: r =>
      match r with
      | [] => x
      | _ :: _ => x ++ sep ++ join sep r
      end
  end.

(** [re.sub(c+, repl, s)] for a one-character class [c]: the scanner
    replaces every maximal run of [c] (the greedy, leftmost,
    non-overlapping matches of [c+]) by [repl].  [in_match] tells that
    the previous character belonged to the current match. *)
Fixpoint re_sub_plus (c : char) (repl : str) (in_match : bool) (s : str)
  : str :=
  match s with
  | [] => []
  | x :: t =>
      if (x =? c)%N then
        if in_match then re_sub_plus c repl true t
        else repl ++ re_sub_plus c repl true t
      else x :: re_sub_plus c repl false t
  end.

(** [s.find(c)]: the index of the first [c], if any. *)
Fixpoint find (c : char) (s : str) : option nat :=
  match s with
  | [] => None
  | x :: t => if (x =? c)%N then Some 0
              else option_map S (find c t)
  end.

(** [s.find(c, start)] for [0 <= start]. *)
Definition find_from (c : char) (start : nat) (s : str) : option nat :=
  option_map (Nat.add start) (find c (skipn start s)).

(** [s.rfind(c)]: the index of the last [c], if any. *)
Definition rfind (c : char) (s : str) : option nat :=
  option_map (fun i => length s - 1 - i) (find c (rev s)).

(** [s.replace(c, empty)]: every [c] is removed. *)
Definition remove_char (c : char) (s : str) : str :=
  List.filter (fun x => negb (x =? c)%N) s.

(** [s.lstrip(chars)] for a class of characters. *)
Fixpoint lstrip_chars (p : char -> bool) (s : str) : str :=
  match s with
  | [] => []
  | c :: t => if p c then lstrip_chars p t else s
  end.

(** [s.split(c, 1)] when [c in s]: the text before the first [c] and the
    text after it. *)
Definition split1 (c : char) (s : str) : str * str :=
  match find c s with
  | Some i => (firstn i s, skipn (S i) s)
  | None => (s, [])
  end.

Definition isascii (s : str) : bool := forallb (fun c => (c <? 128)%N) s.

(** [c.isascii() and c.isalpha()]. *)
Definition ascii_alpha (c : char) : bool :=
  ((65 <=? c) && (c <=? 90) || (97 <=? c) && (c <=? 122))%N.

Definition ascii_digit (c : char) : bool := ((48 <=? c) && (c <=? 57))%N.

(** [s.lower()] on ASCII letters. *)
Definition ascii_lower (s : str) : str :=
  List.map (fun c => if ((65 <=? c) && (c <=? 90))%N then (c + 32)%N else c) s.

(** [l[-n:]] for [n > 0]. *)
Definition last_n (A : Type) (n : nat) (l : list A) : list A :=
  skipn (length l - n) l.

End Py.

Import Py.

(** ** Part4_exo2.py: text cleaning *)

(** [remove_extra_spaces(text)]. *)
Definition remove_extra_spaces (text : str) : str :=
  if negb (truthy text) then text
  else
    let text := re_sub_plus SP [SP] false text in
    let text := re_sub_plus NL [NL] false text in
    let lines := List.map strip (split NL text) in
    let lines := List.filter truthy lines in
    join [NL] lines.

(** The behaviour of [normalize] in the words of the specification.
    A run is a maximal block of equal characters; [runs] is the
    run-length encoding of a string. *)
Fixpoint runs (s : str) : list (char * nat) :=
  match s with
  | [] => []
  | c :: t =>
      match runs t with
      | (d, n) :: r => if (c =? d)%N then (d, S n) :: r
                       else (c, 1) :: (d, n) :: r
      | [] => [(c, 1)]
      end
  end.

(** (a), (b): collapse each run of [c] to one [c]. *)
Definition collapse_runs (c : char) (s : str) : str :=
  flat_map (fun r => if (fst r =? c)%N then [c] else repeat (fst r) (snd r))
           (runs s).

(** (c) strips each line with [strip], (d) drops the empty lines, (e) joins. *)
Definition normalize_spec (text : str) : str :=
  match text with
  | [] => []
  | _ =>
      let a := collapse_runs SP text in
      let b := collapse_runs NL a in
      let c := List.map strip (split NL b) in
      let d := List.filter (fun l => negb (Nat.eqb (length l) 0)) c in
      join [NL] d
  end.

(** ** Exceptions *)

(** The exceptions that the modelled operations raise.  All of them are
    subclasses of [Exception]; the first three form the
    [requests.exceptions.RequestException] family ([HTTPError] is raised
    by [raise_for_status]). *)
Inductive exn : Type :=
| ConnectionError
| Timeout
| HTTPError (status_code : Z)
| ValueError
| TypeError
| OverflowError
| RecursionError.

Definition is_RequestException (e : exn) : bool :=
  match e with
  | ConnectionError | Timeout | HTTPError _ => true
  | ValueError | TypeError | OverflowError | RecursionError => false
  end.

Definition is_Exception (e : exn) : bool :=
  match e with
  | ConnectionError | Timeout | HTTPError _ | ValueError | TypeError
  | OverflowError | RecursionError => true
  end.

Inductive result (A : Type) : Type :=
| Ok (a : A)
| Raise (e : exn).

Arguments Ok {A} a.
Arguments Raise {A} e.

Definition bind (A B : Type) (m : result A) (k : A -> result B) : result B :=
  match m with
  | Ok a => k a
  | Raise e => Raise e
  end.

Notation "x <- m ;; k" := (bind m (fun x => k))
  (at level 61, m at next level, right associativity).

(** ** urllib.parse (CPython 3.11)

    [urlsplit] and [urlparse] of the standard library, as far as
    [netloc] and [path] go.  Two checks consult tables that are not
    modelled: the NFKC normalisation of [unicodedata] and the validation
    of a bracketed host ([ipaddress]); both are parameters. *)

Module Urllib.

Record Tables : Type := {
  nfkc : str -> str;                      (* unicodedata.normalize('NFKC', _) *)
  check_bracketed_netloc : str -> bool    (* false: raises ValueError *)
}.

Definition COLON : char := Eval cbv in N_of_ascii ":".
Definition SLASH : char := Eval cbv in N_of_ascii "/".
Definition QUESTION : char := Eval cbv in N_of_ascii "?".
Definition HASH : char := Eval cbv in N_of_ascii "#".
Definition AT : char := Eval cbv in N_of_ascii "@".
Definition SEMI : char := Eval cbv in N_of_ascii ";".
Definition LBRACKET : char := Eval cbv in N_of_ascii "[".
Definition RBRACKET : char := Eval cbv in N_of_ascii "]".

Definition uses_params : list str :=
  [] :: List.map lit ["ftp"; "hdl"; "prospero"; "http"; "imap"; "https";
                      "shttp"; "rtsp"; "rtspu"; "sip"; "sips"; "mms"; "sftp";
                      "tel"]%string.

(** [scheme_chars]: letters, digits and [+-.]. *)
Definition scheme_char (c : char) : bool :=
  ascii_alpha c || ascii_digit c
  || (c =? 43)%N || (c =? 45)%N || (c =? 46)%N.

Definition WHATWG_C0_CONTROL_OR_SPACE (c : char) : bool := (c <=? 32)%N.

(** [_UNSAFE_URL_BYTES_TO_REMOVE = ['\t', '\r', '\n']]. *)
Definition remove_unsafe (url : str) : str :=
  remove_char 10%N (remove_char 13%N (remove_char 9%N url)).

(** [_splitnetloc(url, 2)] on what follows the two slashes. *)
Fixpoint splitnetloc (s : str) : str * str :=
  match s with
  | [] => ([], [])
  | c :: t =>
      if ((c =? SLASH) || (c =? QUESTION) || (c =? HASH))%N then ([], s)
      else let (n, r) := splitnetloc t in (c :: n, r)
  end.

(** [_checknetloc(netloc)]: [true] when it returns, [false] when it
    raises. *)
Definition checknetloc (T : Tables) (netloc : str) : bool :=
  if negb (truthy netloc) || isascii netloc then true
  else
    let n := remove_char QUESTION (remove_char HASH
               (remove_char COLON (remove_char AT netloc))) in
    let netloc2 := nfkc T n in
    if str_eqb n netloc2 then true
    else negb (existsb (fun c => contains c netloc2)
                       [SLASH; QUESTION; HASH; AT; COLON]).

Record SplitResult : Type := {
  s_scheme : str; s_netloc : str; s_path : str;
  s_query : str; s_fragment : str
}.

Definition urlsplit (T : Tables) (url : str) : result SplitResult :=
  let url := lstrip_chars WHATWG_C0_CONTROL_OR_SPACE url in
  let url := remove_unsafe url in
  let '(scheme, url) :=
    match find COLON url with
    | Some i =>
        if (0 <? i)%nat && ascii_alpha (hd 0%N url)
           && forallb scheme_char (firstn i url)
        then (ascii_lower (firstn i url), skipn (S i) url)
        else ([], url)
    | None => ([], url)
    end in
  r <- (if startswith [SLASH; SLASH] url then
          let (netloc, rest) := splitnetloc (skipn 2 url) in
          if contains LBRACKET netloc && negb (contains RBRACKET netloc)
             || contains RBRACKET netloc && negb (contains LBRACKET netloc)
          then Raise ValueError
          else if contains LBRACKET netloc && contains RBRACKET netloc
                  && negb (check_bracketed_netloc T netloc)
          then Raise ValueError
          else Ok (netloc, rest)
        else Ok ([], url)) ;;
  let '(netloc, url) := r in
  let '(url, fragment) :=
    if contains HASH url then split1 HASH url else (url, []) in
  let '(url, query) :=
    if contains QUESTION url then split1 QUESTION url else (url, []) in
  if checknetloc T netloc then
    Ok {| s_scheme := scheme; s_netloc := netloc; s_path := url;
          s_query := query; s_fragment := fragment |}
  else Raise ValueError.

Definition splitparams (url : str) : str * str :=
  if contains SLASH url then
    match find_from SEMI (match rfind SLASH url with Some j => j | None => 0 end)
                    url with
    | None => (url, [])
    | Some i => (firstn i url, skipn (S i) url)
    end
  else
    match find SEMI url with
    | Some i => (firstn i url, skipn (S i) url)
    | None => (firstn (length url - 1) url, url)
    end.

Record ParseResult : Type := {
  scheme : str; netloc : str; path : str;
  params : str; query : str; fragment : str
}.

Definition urlparse (T : Tables) (url : str) : result ParseResult :=
  sr <- urlsplit T url ;;
  let '(url, params) :=
    if str_in (s_scheme sr) uses_params && contains SEMI (s_path sr)
    then splitparams (s_path sr)
    else (s_path sr, []) in
  Ok {| scheme := s_scheme sr; netloc := s_netloc sr; path := url;
        params := params; query := s_query sr;
        fragment := s_fragment sr |}.

(** Tables for evaluation: on ASCII input neither table changes the
    result ([nfkc] is the identity on ASCII text), and every bracketed
    host is rejected. *)
Definition ascii_tables : Tables :=
  {| nfkc := fun s => s; check_bracketed_netloc := fun _ => false |}.

End Urllib.

(** ** Part4_exo2.py: [extract_domain] *)

Definition DOT : char := Eval cbv in N_of_ascii ".".

Definition http_prefix : str := Eval cbv in lit "http://".
Definition https_prefix : str := Eval cbv in lit "https://".
Definition slashes_prefix : str := Eval cbv in lit "//".

(** [['co', 'com', 'ac', 'gov', 'org', 'net']]. *)
Definition second_level_labels : list str :=
  Eval cbv in List.map lit ["co"; "com"; "ac"; "gov"; "org"; "net"]%string.

(** The URL handed to [urlparse]: [http://] is put in front unless the
    text starts with [http://], [https://] or [//]. *)
Definition prepared_url (url : str) : str :=
  if negb (startswith http_prefix url || startswith https_prefix url
           || startswith slashes_prefix url)
  then http_prefix ++ url else url.

(** [parsed.netloc or parsed.path.split('/')[0]]. *)
Definition netloc_of (parsed : Urllib.ParseResult) : str :=
  if truthy (Urllib.netloc parsed) then Urllib.netloc parsed
  else hd [] (split Urllib.SLASH (Urllib.path parsed)).

Definition extract_domain (T : Urllib.Tables) (url : str)
                          (include_subdomain : bool) : result str :=
  if negb (truthy url) then Ok []
  else
    let url := prepared_url url in
    parsed <- Urllib.urlparse T url ;;
    let netloc := netloc_of parsed in
    if include_subdomain then Ok netloc
    else
      let parts := split DOT netloc in
      if (length parts <=? 2)%nat then Ok netloc
      else if (3 <=? length parts)%nat
              && str_in (nth (length parts - 2) parts []) second_level_labels
      then Ok (join [DOT] (last_n 3 parts))
      else Ok (join [DOT] (last_n 2 parts)).

(** ** BeautifulSoup documents

    A parsed document is a forest of tags and strings.  Attribute values
    are strings; the value of a multi-valued attribute such as [class] is
    the space-joined text that the selector engine matches against. *)

Module Bs4.

#[warnings="-register-all"]
Inductive node : Type :=
| NavigableString (s : str)
| Tag (name : str) (attrs : list (str * str)) (contents : list node).

Definition name_of (n : node) : str :=
  match n with NavigableString _ => [] | Tag name _ _ => name end.

Definition contents_of (n : node) : list node :=
  match n with NavigableString _ => [] | Tag _ _ kids => kids end.

(** [tag.get(key)]. *)
Fixpoint lookup (key : str) (attrs : list (str * str)) : option str :=
  match attrs with
  | [] => None
  | (k, v) :: rest => if str_eqb k key then Some v else lookup key rest
  end.

Definition get (key : str) (n : node) : option str :=
  match n with NavigableString _ => None | Tag _ attrs _ => lookup key attrs end.

(** The tags of a subtree in document order, the root first. *)
Fixpoint tags (n : node) : list node :=
  match n with
  | NavigableString _ => []
  | Tag _ _ kids => n :: flat_map tags kids
  end.

(** [soup.find_all(names)] and [soup(names)]. *)
Definition find_all (names : list str) (doc : list node) : list node :=
  List.filter (fun n => str_in (name_of n) names) (flat_map tags doc).

(** [soup.find(name)]. *)
Definition find (name : str) (doc : list node) : option node :=
  hd_error (find_all [name] doc).

(** [for t in soup(names): t.decompose()]: every tag with one of the
    names is removed together with its subtree. *)
Fixpoint decompose (names : list str) (n : node) : list node :=
  match n with
  | NavigableString _ => [n]
  | Tag name attrs kids =>
      if str_in name names then []
      else [Tag name attrs (flat_map (decompose names) kids)]
  end.

Definition decompose_all (names : list str) (doc : list node) : list node :=
  flat_map (decompose names) doc.

(** The strings of a subtree in document order. *)
Fixpoint strings (n : node) : list str :=
  match n with
  | NavigableString s => [s]
  | Tag _ _ kids => flat_map strings kids
  end.

(** [get_text()] and [get_text(strip=True)] over a forest. *)
Definition get_text (doc : list node) : str :=
  concat (flat_map strings doc).

Definition get_text_strip (doc : list node) : str :=
  concat (List.filter truthy (List.map strip (flat_map strings doc))).

(** The CSS selectors of the source: a type selector and
    [[attr*="value"]]. *)
Inductive selector : Type :=
| SelType (name : str)
| SelAttrContains (attr value : str).

Definition matches (sel : selector) (n : node) : bool :=
  match n with
  | NavigableString _ => false
  | Tag name attrs _ =>
      match sel with
      | SelType t => str_eqb name t
      | SelAttrContains a v =>
          match lookup a attrs with
          | Some x => substring_in v x
          | None => false
          end
      end
  end.

(** [soup.select_one(selector)]: the first match in document order. *)
Definition select_one (sel : selector) (doc : list node) : option node :=
  List.find (matches sel) (flat_map tags doc).

End Bs4.

(** ** Library behaviour taken as parameters

    The tables of [urllib.parse], [urllib.parse.urljoin] (which may raise
    [ValueError]) and the HTML parser behind [BeautifulSoup(text, parser)]
    (which never raises). *)
Record Lib : Type := {
  tables : Urllib.Tables;
  urljoin : str -> str -> result str;
  html_parser : str -> list Bs4.node
}.

(** ** The network, the clock, the random generator and the stack

    [requests.Session.request], [time.sleep] and [random.choice] act on
    the outside world.  The world records how many requests were issued,
    how many random numbers were drawn, the [User-Agent] header of the
    session and the trace of requests and sleeps.  What the network
    answers to the k-th request, and the k-th random number, are given by
    the environment [Net].  The environment also tells how deep the
    recursion of [_request_with_retry] may go: [recursion_limit] is the
    number of nested calls for which the interpreter has room below the
    first one (the recursion limit of Python less the depth of the
    caller); the next nested call raises [RecursionError]. *)

Record Response : Type := { status_code : Z; text : str }.

Inductive outcome : Type :=
| Respond (r : Response)      (* the server answered *)
| Fail (e : exn).             (* [session.request] raised [e] *)

Record Net : Type := {
  transport : nat -> outcome;
  rng : nat -> nat;
  recursion_limit : nat
}.

(** A request is recorded with the [User-Agent] header that the session
    holds when [session.request] is called. *)
Inductive event : Type :=
| EvRequest (method url : str) (timeout : Q) (session_agent : str)
| EvSleep (seconds : Q).

Record World : Type := {
  issued : nat;
  draws : nat;
  session_user_agent : str;
  trace : list event
}.

(** [self.session.request(method, url, timeout=timeout, **kwargs)].  The
    options of [requests] that a caller passes in [kwargs] (parameters,
    body, headers of the call, ...) go to [session.request] as they are:
    they shape the request on the wire, where a header of the call takes
    precedence over the one of the session, and with it the answer,
    which [transport] leaves arbitrary.  They change neither the session
    nor the control flow, so the event keeps the header that the session
    holds, not the header on the wire. *)
Definition session_request (net : Net) (method url : str) (timeout : Q)
                           (w : World) : result Response * World :=
  let w' := {| issued := S (issued w);
               draws := draws w;
               session_user_agent := session_user_agent w;
               trace := trace w
                        ++ [EvRequest method url timeout
                                      (session_user_agent w)] |} in
  match transport net (issued w) with
  | Respond r => (Ok r, w')
  | Fail e => (Raise e, w')
  end.

(** [response.raise_for_status()]: [HTTPError] for 4xx and 5xx. *)
Definition raise_for_status (r : Response) : result unit :=
  if ((400 <=? status_code r) && (status_code r <? 600))%Z
  then Raise (HTTPError (status_code r)) else Ok tt.

(** [time.sleep(d)] turns the duration into nanoseconds in a signed
    64-bit integer: [OverflowError] when it does not fit, whatever its
    sign; then [ValueError] for a negative duration. *)
Definition NANOSECONDS : Q := 1000000000%Q.
Definition PYTIME_MAX : Q := 9223372036854775808%Q.

Definition sleep_overflows (d : Q) : bool :=
  negb (Qle_bool (- PYTIME_MAX)%Q (d * NANOSECONDS)%Q
        && Qle_bool (d * NANOSECONDS)%Q PYTIME_MAX).

Definition time_sleep (d : Q) (w : World) : result unit * World :=
  if sleep_overflows d then (Raise OverflowError, w)
  else if Qle_bool 0 d then
    (Ok tt, {| issued := issued w; draws := draws w;
               session_user_agent := session_user_agent w;
               trace := trace w ++ [EvSleep d] |})
  else (Raise ValueError, w).

(** One attempt: the [try] block of [_request_with_retry]. *)
Definition attempt (net : Net) (method url : str) (timeout : Q) (w : World)
  : result Response * World :=
  let (r, w1) := session_request net method url timeout w in
  (response <- r ;; _ <- raise_for_status response ;; Ok response, w1).

(** [timeout or self.DEFAULT_TIMEOUT]. *)
Definition DEFAULT_TIMEOUT : Q := 10%Q.

Definition timeout_or_default (timeout : option Q) : Q :=
  match timeout with
  | Some t => if Qeq_bool t 0 then DEFAULT_TIMEOUT else t
  | None => DEFAULT_TIMEOUT
  end.

Definition GET : str := Eval cbv in lit "GET".
Definition POST : str := Eval cbv in lit "POST".

(** ** Part4_exo1.py: [HTTPRequester] *)

Module HTTPRequester.

Definition DEFAULT_USER_AGENT : str :=
  lit "Mozilla/5.0 (Windows NT 10.0; Win64; x64) AppleWebKit/537.36 (KHTML, like Gecko) Chrome/91.0.4472.124 Safari/537.36".

(** [__init__]: the session of a fresh requester. *)
Definition init (user_agent : option str) (w : World) : World :=
  {| issued := issued w; draws := draws w;
     session_user_agent :=
       match user_agent with
       | Some ua => if truthy ua then ua else DEFAULT_USER_AGENT
       | None => DEFAULT_USER_AGENT
       end;
     trace := trace w |}.

(** [_request_with_retry]; [frames] is the number of nested calls for
    which the stack still has room. *)
Equations? request_with_retry (net : Net) (method url : str) (timeout : Q)
    (max_retries : Z) (retry_delay : Q) (current_attempt : Z) (frames : nat)
    (w : World)
  : result Response * World
  by wf (Z.to_nat (max_retries - current_attempt)) lt :=
  request_with_retry net method url timeout max_retries retry_delay
                     current_attempt frames w
    with attempt net method url timeout w => {
    | (Ok response, w1) := (Ok response, w1)
    | (Raise e, w1) with is_RequestException e => {
      | false := (Raise e, w1)
      | true with Z_lt_dec current_attempt max_retries => {
        | right _ := (Raise e, w1)
        | left _ with time_sleep retry_delay w1 => {
          | (Raise e', w2) := (Raise e', w2)
          | (Ok _, w2) with frames => {
            | O := (Raise RecursionError, w2)
            | S frames' :=
                request_with_retry net method url timeout max_retries
                                   retry_delay (current_attempt + 1) frames'
                                   w2 } } } } }.
Proof. lia. Qed.

Definition get (net : Net) (url : str) (timeout : option Q)
               (max_retries : Z) (retry_delay : Q) (w : World)
  : result Response * World :=
  let timeout := timeout_or_default timeout in
  request_with_retry net GET url timeout max_retries retry_delay 0
                     (recursion_limit net) w.

Definition post (net : Net) (url : str) (timeout : option Q)
                (max_retries : Z) (retry_delay : Q) (w : World)
  : result Response * World :=
  let timeout := timeout_or_default timeout in
  request_with_retry net POST url timeout max_retries retry_delay 0
                     (recursion_limit net) w.

End HTTPRequester.

(** ** Part4_exo3.py: [ImprovedHTTPRequester] *)

Module ImprovedHTTPRequester.

Definition USER_AGENTS : list str :=
  List.map lit
    ["Mozilla/5.0 (Windows NT 10.0; Win64; x64) AppleWebKit/537.36 (KHTML, like Gecko) Chrome/119.0.0.0 Safari/537.36";
     "Mozilla/5.0 (Macintosh; Intel Mac OS X 10_15_7) AppleWebKit/537.36 (KHTML, like Gecko) Chrome/119.0.0.0 Safari/537.36";
     "Mozilla/5.0 (Windows NT 10.0; Win64; x64; rv:109.0) Gecko/20100101 Firefox/119.0";
     "Mozilla/5.0 (Macintosh; Intel Mac OS X 10_15_7) AppleWebKit/605.1.15 (KHTML, like Gecko) Version/17.0 Safari/605.1.15";
     "Mozilla/5.0 (X11; Linux x86_64) AppleWebKit/537.36 (KHTML, like Gecko) Chrome/119.0.0.0 Safari/537.36";
     "Mozilla/5.0 (Windows NT 10.0; Win64; x64) AppleWebKit/537.36 (KHTML, like Gecko) Edge/119.0.0.0";
     "Mozilla/5.0 (X11; Ubuntu; Linux x86_64; rv:109.0) Gecko/20100101 Firefox/119.0"
    ]%string.

(** The fields of the object. *)
Record t : Type := {
  user_agents : list str;
  rotate_user_agent : bool
}.

(** [_update_user_agent]: [random.choice(self.user_agents)] when the
    rotation is on, [self.user_agents[0]] otherwise.  The list is never
    empty, see [init]. *)
Definition update_user_agent (net : Net) (self : t) (w : World) : World :=
  if rotate_user_agent self then
    {| issued := issued w; draws := S (draws w);
       session_user_agent :=
         nth (rng net (draws w) mod length (user_agents self))
             (user_agents self) [];
       trace := trace w |}
  else
    {| issued := issued w; draws := draws w;
       session_user_agent := hd [] (user_agents self);
       trace := trace w |}.

(** [__init__]: [user_agents or self.USER_AGENTS]. *)
Definition init (net : Net) (agents : option (list str)) (rotate : bool)
                (w : World) : t * World :=
  let self := {| user_agents :=
                   match agents with
                   | Some (a :: l) => a :: l
                   | Some [] | None => USER_AGENTS
                   end;
                 rotate_user_agent := rotate |} in
  (self, update_user_agent net self w).

Definition rotate_if_enabled (net : Net) (self : t) (w : World) : World :=
  if rotate_user_agent self then update_user_agent net self w else w.

(** [_request_with_retry]; [frames] is the number of nested calls for
    which the stack still has room. *)
Equations? request_with_retry (net : Net) (self : t) (method url : str)
    (timeout : Q) (max_retries : Z) (retry_delay : Q) (current_attempt : Z)
    (frames : nat) (w : World)
  : result Response * World
  by wf (Z.to_nat (max_retries - current_attempt)) lt :=
  request_with_retry net self method url timeout max_retries retry_delay
                     current_attempt frames w
    with attempt net method url timeout w => {
    | (Ok response, w1) := (Ok response, w1)
    | (Raise e, w1) with is_RequestException e => {
      | false := (Raise e, w1)
      | true with Z_lt_dec current_attempt max_retries => {
        | right _ := (Raise e, w1)
        | left _ with time_sleep retry_delay w1 => {
          | (Raise e', w2) := (Raise e', w2)
          | (Ok _, w2) with frames => {
            | O := (Raise RecursionError, rotate_if_enabled net self w2)
            | S frames' :=
                request_with_retry net self method url timeout max_retries
                                   retry_delay (current_attempt + 1) frames'
                                   (rotate_if_enabled net self w2) } } } } }.
Proof. lia. Qed.

Definition get (net : Net) (self : t) (url : str) (timeout : option Q)
               (max_retries : Z) (retry_delay : Q) (w : World)
  : result Response * World :=
  let timeout := timeout_or_default timeout in
  let w := rotate_if_enabled net self w in
  request_with_retry net self GET url timeout max_retries retry_delay 0
                     (recursion_limit net) w.

Definition post (net : Net) (self : t) (url : str) (timeout : option Q)
                (max_retries : Z) (retry_delay : Q) (w : World)
  : result Response * World :=
  let timeout := timeout_or_default timeout in
  let w := rotate_if_enabled net self w in
  request_with_retry net self POST url timeout max_retries retry_delay 0
                     (recursion_limit net) w.

(** [get_soup]. *)
Definition get_soup (lib : Lib) (net : Net) (self : t) (url : str)
    (timeout : option Q) (max_retries : Z) (retry_delay : Q) (w : World)
  : result (list Bs4.node) * World :=
  let (r, w1) := get net self url timeout max_retries retry_delay w in
  (response <- r ;; Ok (html_parser lib (text response)), w1).

Record PageSummary : Type := {
  page_url : str;
  domain : str;
  title : str;
  h1_tags : list str;
  image_links : list str;
  external_links : list str;
  main_text : str
}.

Definition s_title : str := Eval cbv in lit "title".
Definition s_h1 : str := Eval cbv in lit "h1".
Definition s_img : str := Eval cbv in lit "img".
Definition s_src : str := Eval cbv in lit "src".
Definition s_a : str := Eval cbv in lit "a".
Definition s_href : str := Eval cbv in lit "href".

(** The loop over [soup.find_all('img')]. *)
Fixpoint collect_image_links (lib : Lib) (url : str) (imgs : list Bs4.node)
  : result (list str) :=
  match imgs with
  | [] => Ok []
  | img :: rest =>
      match Bs4.get s_src img with
      | Some src =>
          if truthy src then
            absolute_url <- urljoin lib url src ;;
            links <- collect_image_links lib url rest ;;
            Ok (absolute_url :: links)
          else collect_image_links lib url rest
      | None => collect_image_links lib url rest
      end
  end.

(** The loop over [soup.find_all('a', href=True)]. *)
Fixpoint collect_external_links (lib : Lib) (url domain : str)
                                (anchors : list Bs4.node)
  : result (list str) :=
  match anchors with
  | [] => Ok []
  | link :: rest =>
      match Bs4.get s_href link with
      | Some href =>
          absolute_url <- urljoin lib url href ;;
          parsed_link <- Urllib.urlparse (tables lib) absolute_url ;;
          links <- collect_external_links lib url domain rest ;;
          if truthy (Urllib.netloc parsed_link)
             && negb (str_eqb (Urllib.netloc parsed_link) domain)
          then Ok (absolute_url :: links) else Ok links
      | None => collect_external_links lib url domain rest
      end
  end.

Definition removed_tags : list str :=
  Eval cbv in List.map lit ["script"; "style"; "nav"; "footer"; "header"]%string.

Definition ellipsis : str := Eval cbv in lit "...".

(** [parse_page]. *)
Definition parse_page (lib : Lib) (net : Net) (self : t) (url : str)
    (timeout : option Q) (max_retries : Z) (w : World)
  : result PageSummary * World :=
  let (r, w1) := get_soup lib net self url timeout max_retries 1 w in
  (soup <- r ;;
   parsed_url <- Urllib.urlparse (tables lib) url ;;
   let domain := Urllib.netloc parsed_url in
   let title_text :=
     match Bs4.find s_title soup with
     | Some title => Bs4.get_text_strip (Bs4.contents_of title)
     | None => []
     end in
   let h1_tags :=
     List.map (fun h1 => Bs4.get_text_strip (Bs4.contents_of h1))
              (Bs4.find_all [s_h1] soup) in
   image_links <- collect_image_links lib url (Bs4.find_all [s_img] soup) ;;
   external_links <-
     collect_external_links lib url domain (Bs4.find_all [s_a] soup) ;;
   let soup := Bs4.decompose_all removed_tags soup in
   let main_text := Bs4.get_text soup in
   let lines := List.map strip (split NL main_text) in
   let lines := List.filter truthy lines in
   let main_text := join [NL] lines in
   Ok {| page_url := url;
         domain := domain;
         title := title_text;
         h1_tags := h1_tags;
         image_links := image_links;
         external_links := external_links;
         main_text := if (1000 <? length main_text)%nat
                      then firstn 1000 main_text ++ ellipsis
                      else main_text |},
   w1).

End ImprovedHTTPRequester.

(** ** Part4_exo_final.py: [RSSNewsScraper] *)

Module RSSNewsScraper.

Import ImprovedHTTPRequester.

(** [self.requester = ImprovedHTTPRequester(rotate_user_agent=True)]. *)
Definition init (net : Net) (w : World) : t * World :=
  ImprovedHTTPRequester.init net None true w.

Record Image : Type := { src : str; alt : str }.

Record Article : Type := {
  url : str;
  a_domain : str;
  page_title : str;
  article_title : str;
  a_main_text : str;
  images : list Image;
  image_count : nat
}.

(** The dictionary that [scrape_article] returns: the article, or [{}]. *)
Inductive article_dict : Type :=
| EmptyDict
| ArticleDict (a : Article).

Definition unwanted_tags : list str :=
  Eval cbv in List.map lit ["script"; "style"; "nav"; "footer"; "header";
                            "aside"; "iframe"]%string.

Definition s_class : str := Eval cbv in lit "class".
Definition s_id : str := Eval cbv in lit "id".
Definition s_p : str := Eval cbv in lit "p".
Definition s_alt : str := Eval cbv in lit "alt".
Definition s_data_src : str := Eval cbv in lit "data-src".
Definition s_https_colon : str := Eval cbv in lit "https:".
Definition s_https_slashes : str := Eval cbv in lit "https://".
Definition s_http : str := Eval cbv in lit "http".

Definition selectors : list Bs4.selector :=
  Eval cbv in
  [ Bs4.SelType (lit "article");
    Bs4.SelAttrContains s_class (lit "article-content");
    Bs4.SelAttrContains s_class (lit "article-body");
    Bs4.SelAttrContains s_class (lit "post-content");
    Bs4.SelAttrContains s_id (lit "article-content");
    Bs4.SelType (lit "main") ].

(** The loop over the selectors; besides [article_body] it returns the
    selectors that were tried, in order. *)
Fixpoint try_selectors (sels : list Bs4.selector) (soup : list Bs4.node)
  : option Bs4.node * list Bs4.selector :=
  match sels with
  | [] => (None, [])
  | selector :: rest =>
      match Bs4.select_one selector soup with
      | Some article_body => (Some article_body, [selector])
      | None =>
          let (body, tried) := try_selectors rest soup in
          (body, selector :: tried)
      end
  end.

(** [img.get('src') or img.get('data-src')]. *)
Definition image_source (img : Bs4.node) : option str :=
  match Bs4.get s_src img with
  | Some s => if truthy s then Some s else Bs4.get s_data_src img
  | None => Bs4.get s_data_src img
  end.

(** The loop over [soup.find_all('img')]. *)
Fixpoint harvest_images (T : Urllib.Tables) (article_url : str)
                        (imgs : list Bs4.node) : result (list Image) :=
  match imgs with
  | [] => Ok []
  | img :: rest =>
      let alt := match Bs4.get s_alt img with Some a => a | None => [] end in
      match image_source img with
      | Some src =>
          if truthy src then
            if startswith slashes_prefix src then
              images <- harvest_images T article_url rest ;;
              Ok ({| src := s_https_colon ++ src; alt := alt |} :: images)
            else if startswith [Urllib.SLASH] src then
              domain <- extract_domain T article_url false ;;
              images <- harvest_images T article_url rest ;;
              Ok ({| src := s_https_slashes ++ domain ++ src; alt := alt |}
                    :: images)
            else if negb (startswith s_http src) then
              harvest_images T article_url rest
            else
              images <- harvest_images T article_url rest ;;
              Ok ({| src := src; alt := alt |} :: images)
          else harvest_images T article_url rest
      | None => harvest_images T article_url rest
      end
  end.

(** The body of the [try] block of [scrape_article]. *)
Definition scrape_article_try (lib : Lib) (net : Net) (requester : t)
    (article_url : str) (w : World) : result Article * World :=
  let (rp, w1) := parse_page lib net requester article_url (Some 15%Q) 3 w in
  match rp with
  | Raise e => (Raise e, w1)
  | Ok page_data =>
      let (rs, w2) :=
        get_soup lib net requester article_url (Some 15%Q) 3 1 w1 in
      (soup <- rs ;;
       let soup := Bs4.decompose_all unwanted_tags soup in
       let article_body := fst (try_selectors selectors soup) in
       let main_text :=
         match article_body with
         | Some body =>
             let paragraphs := Bs4.find_all [s_p] (Bs4.contents_of body) in
             join [NL; NL]
                  (List.filter truthy
                     (List.map (fun p => Bs4.get_text_strip (Bs4.contents_of p))
                               paragraphs))
         | None => main_text page_data
         end in
       let main_text := remove_extra_spaces main_text in
       images <- harvest_images (tables lib) article_url
                                (Bs4.find_all [s_img] soup) ;;
       Ok {| url := article_url;
             a_domain := domain page_data;
             page_title := title page_data;
             article_title := match h1_tags page_data with
                              | h :: _ => h
                              | [] => title page_data
                              end;
             a_main_text := main_text;
             images := images;
             image_count := length images |},
       w2)
  end.

(** [scrape_article]: [except Exception] turns a failure into [{}]. *)
Definition scrape_article (lib : Lib) (net : Net) (requester : t)
    (article_url : str) (w : World) : result article_dict * World :=
  let (r, w') := scrape_article_try lib net requester article_url w in
  match r with
  | Ok a => (Ok (ArticleDict a), w')
  | Raise e => if is_Exception e then (Ok EmptyDict, w') else (Raise e, w')
  end.

End RSSNewsScraper.

(** Vocabulary of the statements about the retry. *)

(** An attempt fails when [session.request] raises a [RequestException]
    or the answer has a 4xx or 5xx status; [failure] is the exception
    that the [except] clause then sees. *)
Definition failure (o : outcome) : option exn :=
  match o with
  | Fail e => if is_RequestException e then Some e else None
  | Respond r =>
      if ((400 <=? status_code r) && (status_code r <? 600))%Z
      then Some (HTTPError (status_code r)) else None
  end.

Definition success (o : outcome) : option Response :=
  match o with
  | Fail _ => None
  | Respond r =>
      if ((400 <=? status_code r) && (status_code r <? 600))%Z
      then None else Some r
  end.


Inductive shape : Type :=
| SRequest
| SSleep (seconds : Q).

Definition shape_of (ev : event) : shape :=
  match ev with
  | EvRequest _ _ _ _ => SRequest
  | EvSleep d => SSleep d
  end.

(** The trace of [retries + 1] attempts with a sleep of [d] seconds
    between consecutive attempts. *)
Fixpoint schedule (retries : nat) (d : Q) : list shape :=
  match retries with
  | O => [SRequest]
  | S n => SRequest :: SSleep d :: schedule n d
  end.

(** Between the worlds [w] and [w'] exactly [retries + 1] requests were
    issued, with a sleep of [d] seconds between consecutive ones. *)
Definition ran (w w' : World) (retries : nat) (d : Q) : Prop :=
  issued w' = issued w + retries + 1
  /\ exists evs,
       trace w' = trace w ++ evs /\ List.map shape_of evs = schedule retries d.

(** A duration that [time.sleep] accepts: not negative, and small enough
    for the 64-bit count of nanoseconds. *)
Definition sleepable (d : Q) : Prop :=
  (0 <= d)%Q /\ sleep_overflows d = false.


(** Between the worlds [w] and [w'] the recursion ran out of stack after
    [retries + 1] requests, each of them followed by a sleep of [d]
    seconds. *)
Definition ran_out_of_stack (w w' : World) (retries : nat) (d : Q) : Prop :=
  issued w' = issued w + retries + 1
  /\ exists evs,
       trace w' = trace w ++ evs
       /\ List.map shape_of evs = schedule retries d ++ [SSleep d].

(** What one fetch that starts in [w] did: some number [k] of retries, at
    most [max_retries] and at most what the stack has room for, a sleep
    of [d] seconds between consecutive requests and none after the last
    one; or else the stack was full when the next retry was due, and the
    call raised [RecursionError] after its last sleep. *)
Definition bounded_requests (net : Net) (max_retries : Z) (d : Q)
    (w : World) (call : result Response * World) : Prop :=
  exists k,
    (Z.of_nat k <= Z.max 0 max_retries)%Z
    /\ k <= recursion_limit net
    /\ (ran w (snd call) k d
        \/ (fst call = Raise RecursionError
            /\ k = recursion_limit net
            /\ ran_out_of_stack w (snd call) k d)).

(** What one call that starts in [w] did: its result [res], the world
    [w'] it left, with exactly one request and no sleep, the result being
    the outcome of that request. *)
Definition one_attempt_only (net : Net) (w : World)
    (call : result Response * World) : Prop :=
  exists res w',
    call = (res, w')
    /\ ran w w' 0 0
    /\ (forall e, transport net (issued w) = Fail e -> res = Raise e)
    /\ (forall e, failure (transport net (issued w)) = Some e -> res = Raise e)
    /\ (forall r, success (transport net (issued w)) = Some r -> res = Ok r).

(** A network for evaluation: the first [N] requests time out, the later
    ones are answered with status 200. *)
Definition ok_response : Response :=
  {| status_code := 200; text := lit "ok" |}.

Definition flaky_net (N : nat) : Net :=
  {| transport := fun k => if (k <? N)%nat then Fail Timeout
                           else Respond ok_response;
     rng := fun _ => 0;
     recursion_limit := 900 |}.

Definition fresh_world : World :=
  {| issued := 0; draws := 0; session_user_agent := []; trace := [] |}.

(** Vocabulary of the statements about pages and articles. *)

(** The cleaned text of a fetched page, before the truncation. *)
Definition cleaned_text (soup : list Bs4.node) : str :=
  join [NL]
    (List.filter truthy
       (List.map strip
          (split NL
             (Bs4.get_text
                (Bs4.decompose_all ImprovedHTTPRequester.removed_tags soup))))).

(** The non-empty paragraph texts of a body, joined by a blank line. *)
Definition paragraphs_text (body : Bs4.node) : str :=
  join [NL; NL]
    (List.filter truthy
       (List.map (fun p => Bs4.get_text_strip (Bs4.contents_of p))
          (Bs4.find_all [RSSNewsScraper.s_p] (Bs4.contents_of body)))).

Definition no_match (soup : list Bs4.node) (sel : Bs4.selector) : Prop :=
  Bs4.select_one sel soup = None.

(** The [main_text] of what [scrape_article] returned, if it is an
    article. *)
Definition scraped_text (r : result RSSNewsScraper.article_dict)
  : option str :=
  match r with
  | Ok (RSSNewsScraper.ArticleDict a) => Some (RSSNewsScraper.a_main_text a)
  | Ok RSSNewsScraper.EmptyDict | Raise _ => None
  end.

(** An absolute URL starts with a scheme and a colon (RFC 3986). *)
Definition is_absolute_url (s : str) : bool :=
  match find Urllib.COLON s with
  | Some i => (0 <? i)%nat && ascii_alpha (hd 0%N s)
              && forallb Urllib.scheme_char (firstn i s)
  | None => false
  end.

(** Settings for evaluation: a parser that always yields the given
    document, a [urljoin] that returns the reference, a network that
    answers every request with status 200. *)
Definition demo_lib (doc : list Bs4.node) : Lib :=
  {| tables := Urllib.ascii_tables;
     urljoin := fun _ ref => Ok ref;
     html_parser := fun _ => doc |}.

Definition text_node (s : string) : Bs4.node := Bs4.NavigableString (lit s).

Definition two_paragraphs : list Bs4.node :=
  [Bs4.Tag (lit "article") []
     [Bs4.Tag (lit "p") [] [text_node "First."];
      Bs4.Tag (lit "p") [] [text_node "Second."]]].

Definition img_tag (src : string) : Bs4.node :=
  Bs4.Tag (lit "img") [(lit "src", lit src)] [].

Definition long_page : list Bs4.node :=
  [Bs4.Tag (lit "body") [] [Bs4.NavigableString (repeat 97%N 1200)]].

Definition demo_requester : ImprovedHTTPRequester.t :=
  fst (RSSNewsScraper.init (flaky_net 0) fresh_world).

Definition demo_world : World :=
  snd (RSSNewsScraper.init (flaky_net 0) fresh_world).

(** Plain text: ASCII characters other than the square brackets. *)
Definition plain_char (c : char) : bool :=
  ((c <? 128) && negb (c =? Urllib.LBRACKET) && negb (c =? Urllib.RBRACKET))%N.

Definition plain (s : str) : bool := forallb plain_char s.

(** Predicates of the statements about strings. *)

(** [starts c s]: the first character of [s] is [c]. *)
Definition starts (c : char) (s : str) : bool :=
  match s with
  | x :: _ => (x =? c)%N
  | [] => false
  end.

(** [no_double c s]: [s] has no two adjacent occurrences of [c]. *)
Fixpoint no_double (c : char) (s : str) : bool :=
  match s with
  | [] => true
  | x :: t => negb ((x =? c)%N && starts c t) && no_double c t
  end.

(** [starts_ws s]: the first character of [s] is whitespace. *)
Definition starts_ws (s : str) : bool :=
  match s with
  | x :: _ => isspace x
  | [] => false
  end.

(** A line as [remove_extra_spaces] leaves it: not empty, without a
    newline, without whitespace at either end, without two adjacent
    spaces. *)
Definition clean_line (l : str) : Prop :=
  truthy l = true /\ contains NL l = false /\ strip l = l
  /\ no_double SP l = true.

(** ** Part4_exo2.py: [html_to_text]

    [html.unescape] consults the table of HTML entities; it is a
    parameter, like the parser. *)

Definition script_style : list str :=
  Eval cbv in List.map lit ["script"; "style"]%string.

Definition html_to_text (parser : str -> list Bs4.node)
    (unescape : str -> str) (html_string : str) (remove_scripts : bool)
  : str :=
  if negb (truthy html_string) then []
  else
    let soup := parser html_string in
    let soup := if remove_scripts
                then Bs4.decompose_all script_style soup else soup in
    let text := Bs4.get_text soup in
    let text := unescape text in
    let text := remove_extra_spaces text in
    text.

(** The characters that are not whitespace. *)
Definition visible (s : str) : str :=
  List.filter (fun c => negb (isspace c)) s.

(** A text without [/], [?] and [#], the characters that end the host
    part of a URL. *)
Definition delimiter_free (s : str) : bool :=
  forallb (fun c => negb ((c =? Urllib.SLASH) || (c =? Urllib.QUESTION)
                          || (c =? Urllib.HASH))%N) s.

(** What [extract_domain] makes of a host when the subdomain is not
    wanted. *)
Definition registrable (host : str) : str :=
  let parts := split DOT host in
  if (length parts <=? 2)%nat then host
  else if (3 <=? length parts)%nat
          && str_in (nth (length parts - 2) parts []) second_level_labels
  then join [DOT] (last_n 3 parts)
  else join [DOT] (last_n 2 parts).

(** A text without tab, carriage return and line feed. *)
Definition unsafe_free (s : str) : bool :=
  negb (contains 9%N s) && negb (contains 13%N s) && negb (contains 10%N s).

(** The response has a status that [raise_for_status] accepts. *)
Definition status_ok (r : Response) : bool :=
  negb ((400 <=? status_code r) && (status_code r <? 600))%Z.

(** When the request was made, the session held a user agent of the
    pool. *)
Definition agent_of_pool (pool : list str) (ev : event) : Prop :=
  match ev with
  | EvRequest _ _ _ session_agent => In session_agent pool
  | EvSleep _ => True
  end.


(** A page for evaluation with a link to its own site and a link to
    another one. *)
Definition links_page : list Bs4.node :=
  [Bs4.Tag (lit "a") [(lit "href", lit "https://www.esiee.fr/formations")]
     [text_node "Formations"];
   Bs4.Tag (lit "a") [(lit "href", lit "https://www.example.org/partner")]
     [text_node "Partner"]].

(** ** Part4_exo_final.py: RSS feeds

    [xml.etree.ElementTree] is a parameter: [rss_items text] is [None]
    when [ET.fromstring(text)] raises, and otherwise the elements that
    [root.findall('.//item')] yields, in document order.  For each child
    looked up by [item.find], an item tells whether the child is missing
    ([None]), present without text ([Some None]) or present with a text. *)

Module RSSFeeds.

Import ImprovedHTTPRequester.

Record Item : Type := {
  i_title : option (option str);
  i_link : option (option str);
  i_description : option (option str);
  i_pubDate : option (option str)
}.

(** An article of a feed; [None] is Python's [None]. *)
Record RssArticle : Type := {
  r_title : option str;
  r_url : option str;
  r_description : option str;
  r_pub_date : option str;
  r_category : str;
  r_domain : str
}.

(** [child.text if child is not None else ""]. *)
Definition text_or_empty (child : option (option str)) : option str :=
  match child with
  | Some text => text
  | None => Some []
  end.

(** The dictionary built for one item; [extract_domain(link.text)] may
    raise, and [extract_domain(None)] is the empty string. *)
Definition article_of_item (T : Urllib.Tables) (category : str) (item : Item)
  : result RssArticle :=
  domain <- match i_link item with
            | Some (Some link_text) => extract_domain T link_text false
            | Some None => Ok []
            | None => Ok []
            end ;;
  Ok {| r_title := text_or_empty (i_title item);
        r_url := text_or_empty (i_link item);
        r_description := text_or_empty (i_description item);
        r_pub_date := text_or_empty (i_pubDate item);
        r_category := category;
        r_domain := domain |}.

(** The loop over the items: an item that raises is skipped. *)
Fixpoint articles_of_items (T : Urllib.Tables) (category : str)
                           (items : list Item) : list RssArticle :=
  match items with
  | [] => []
  | item :: rest =>
      match article_of_item T category item with
      | Ok article => article :: articles_of_items T category rest
      | Raise _ => articles_of_items T category rest
      end
  end.

(** [parse_rss_feed]. *)
Definition parse_rss_feed (lib : Lib) (rss_items : str -> option (list Item))
    (net : Net) (requester : t) (rss_url category : str) (w : World)
  : result (list RssArticle) * World :=
  let (r, w1) := get net requester rss_url (Some 15%Q) 3 1 w in
  match r with
  | Ok response =>
      match rss_items (text response) with
      | Some items => (Ok (articles_of_items (tables lib) category items), w1)
      | None => (Ok [], w1)
      end
  | Raise e => if is_Exception e then (Ok [], w1) else (Raise e, w1)
  end.

(** A feed as [scrape_news] receives it: a dictionary that may lack the
    keys [category] and [url]. *)
Record Feed : Type := {
  f_category : option str;
  f_url : option str
}.

(** The code points of the default category, G, e acute, n, e acute, r,
    a, l. *)
Definition GENERAL : str := [71; 233; 110; 233; 114; 97; 108]%N.

(** An element of the list that [scrape_news] returns: the article of
    the feed, or the dictionary merged from the article of the feed, the
    result of [scrape_article] and the category. *)
Inductive NewsItem : Type :=
| FromFeed (article : RssArticle)
| Merged (article : RssArticle) (full_article : RSSNewsScraper.article_dict)
         (category : str).

Definition article_of (item : NewsItem) : RssArticle :=
  match item with
  | FromFeed article => article
  | Merged article _ _ => article
  end.

(** The value of the key [category] in the element. *)
Definition category_of (item : NewsItem) : str :=
  match item with
  | FromFeed article => r_category article
  | Merged _ _ category => category
  end.

(** [l[:n]] for an integer [n], negative or not. *)
Definition slice_to (A : Type) (n : Z) (l : list A) : list A :=
  if (0 <=? n)%Z then firstn (Z.to_nat n) l
  else firstn (length l - Z.to_nat (- n)) l.

(** [article.get('url')] as a condition. *)
Definition has_url (article : RssArticle) : bool :=
  match r_url article with
  | Some u => truthy u
  | None => false
  end.

(** The loop over the articles of one feed. *)
Fixpoint scrape_articles (lib : Lib) (net : Net) (requester : t)
    (category : str) (scrape_full_content : bool)
    (articles : list RssArticle) (w : World)
  : result (list NewsItem) * World :=
  match articles with
  | [] => (Ok [], w)
  | article :: rest =>
      if scrape_full_content && has_url article then
        match time_sleep 1 w with
        | (Raise e, w1) => (Raise e, w1)
        | (Ok _, w1) =>
            let url := match r_url article with Some u => u | None => [] end in
            match RSSNewsScraper.scrape_article lib net requester url w1 with
            | (Raise e, w2) => (Raise e, w2)
            | (Ok full_article, w2) =>
                let (r, w3) := scrape_articles lib net requester category
                                 scrape_full_content rest w2 in
                (others <- r ;;
                 Ok (Merged article full_article category :: others), w3)
            end
        end
      else
        let (r, w1) := scrape_articles lib net requester category
                         scrape_full_content rest w in
        (others <- r ;; Ok (FromFeed article :: others), w1)
  end.

(** The loop over the feeds. *)
Fixpoint scrape_feeds (lib : Lib) (rss_items : str -> option (list Item))
    (net : Net) (requester : t) (feeds : list Feed)
    (max_articles_per_feed : Z) (scrape_full_content : bool) (w : World)
  : result (list NewsItem) * World :=
  match feeds with
  | [] => (Ok [], w)
  | feed :: rest =>
      let category := match f_category feed with
                      | Some c => c
                      | None => GENERAL
                      end in
      let url := match f_url feed with Some u => u | None => [] end in
      if negb (truthy url) then
        scrape_feeds lib rss_items net requester rest max_articles_per_feed
                     scrape_full_content w
      else
        match parse_rss_feed lib rss_items net requester url category w with
        | (Raise e, w1) => (Raise e, w1)
        | (Ok articles, w1) =>
            match scrape_articles lib net requester category
                    scrape_full_content
                    (slice_to max_articles_per_feed articles) w1 with
            | (Raise e, w2) => (Raise e, w2)
            | (Ok items, w2) =>
                match time_sleep 2 w2 with
                | (Raise e, w3) => (Raise e, w3)
                | (Ok _, w3) =>
                    let (r, w4) := scrape_feeds lib rss_items net requester
                                     rest max_articles_per_feed
                                     scrape_full_content w3 in
                    (others <- r ;; Ok (items ++ others), w4)
                end
            end
        end
  end.

(** [scrape_news]: at most the first five feeds. *)
Definition scrape_news (lib : Lib) (rss_items : str -> option (list Item))
    (net : Net) (requester : t) (rss_feeds : list Feed)
    (max_articles_per_feed : Z) (scrape_full_content : bool) (w : World)
  : result (list NewsItem) * World :=
  scrape_feeds lib rss_items net requester (firstn 5 rss_feeds)
               max_articles_per_feed scrape_full_content w.

(** The category under which [scrape_news] reads a feed. *)
Definition feed_category (feed : Feed) : str :=
  match f_category feed with
  | Some c => c
  | None => GENERAL
  end.

(** [s.endswith(p)]. *)
Definition endswith (p s : str) : bool := startswith (rev p) (rev s).

(** [s.rsplit(c, 1)[0]]: the text before the last [c], or the whole
    string when it has no [c]. *)
Definition rsplit1_head (c : char) (s : str) : str :=
  match rfind c s with
  | Some i => firstn i s
  | None => s
  end.

Definition s_rss_dir : str := Eval cbv in lit "/rss/".
Definition s_dot_rss : str := Eval cbv in lit ".rss".
Definition s_rss : str := Eval cbv in lit "rss".

(** The test of [get_rss_feeds] on the target of a link; [lower] is
    [str.lower]. *)
Definition is_rss_link (lower : str -> str) (href : str) : bool :=
  substring_in s_rss_dir href || endswith s_dot_rss href
  || substring_in s_rss (lower href).

(** [soup.find_all('a', href=True)]: the [a] tags that have the
    attribute. *)
Definition links_with_href (soup : list Bs4.node) : list Bs4.node :=
  List.filter (fun n => str_eqb (Bs4.name_of n) s_a
                        && match Bs4.get s_href n with
                           | Some _ => true
                           | None => false
                           end)
              (flat_map Bs4.tags soup).

(** The loop over the links. *)
Fixpoint feeds_of_links (lower : str -> str) (rss_url : str)
                        (links : list Bs4.node) : list Feed :=
  match links with
  | [] => []
  | link :: rest =>
      let href := match Bs4.get s_href link with Some h => h | None => [] end in
      let text := Bs4.get_text_strip (Bs4.contents_of link) in
      if is_rss_link lower href then
        {| f_category := Some (if truthy text then text else GENERAL);
           f_url := Some (if startswith RSSNewsScraper.s_http href then href
                          else rsplit1_head Urllib.SLASH rss_url ++ href) |}
          :: feeds_of_links lower rss_url rest
      else feeds_of_links lower rss_url rest
  end.

(** [get_rss_feeds]. *)
Definition get_rss_feeds (lib : Lib) (lower : str -> str) (net : Net)
    (requester : t) (rss_url : str) (w : World)
  : result (list Feed) * World :=
  let (r, w1) := get_soup lib net requester rss_url (Some 15%Q) 3 1 w in
  match r with
  | Ok soup => (Ok (feeds_of_links lower rss_url (links_with_href soup)), w1)
  | Raise e => if is_Exception e then (Ok [], w1) else (Raise e, w1)
  end.

(** Settings for evaluation: a feed document of two items, the link of
    the second one having an unmatched bracket. *)
Definition two_items : list Item :=
  [ {| i_title := Some (Some (lit "First")) ;
       i_link := Some (Some (lit "https://www.lemonde.fr/a.html"));
       i_description := Some None;
       i_pubDate := None |};
    {| i_title := Some (Some (lit "Second"));
       i_link := Some (Some (lit "https://[lemonde.fr/b.html"));
       i_description := None;
       i_pubDate := None |} ].

End RSSFeeds.

(** ** Part4_exo4.py: the search scraper

    The keyword filter [class_=c] of BeautifulSoup is a parameter:
    [class_ c tag] tells whether the tag passes it. *)

Module GoogleSearchScraper.

Import ImprovedHTTPRequester.

(** [self.requester = ImprovedHTTPRequester(rotate_user_agent=True)]. *)
Definition init (net : Net) (w : World) : t * World :=
  ImprovedHTTPRequester.init net None true w.

(** One dictionary of the list of results. *)
Record SearchResult : Type := {
  sr_title : str;
  sr_url : str;
  sr_domain : str;
  sr_description : str
}.

Definition search_prefix : str :=
  Eval cbv in lit "https://html.duckduckgo.com/html/?q=".
Definition s_div : str := Eval cbv in lit "div".
Definition s_result : str := Eval cbv in lit "result".
Definition s_result_a : str := Eval cbv in lit "result__a".
Definition s_result_snippet : str := Eval cbv in lit "result__snippet".
Definition s_NA : str := Eval cbv in lit "N/A".

(** [soup.find_all('div', class_='result')]. *)
Definition find_results (class_ : str -> Bs4.node -> bool)
                        (soup : list Bs4.node) : list Bs4.node :=
  List.filter (fun n => str_eqb (Bs4.name_of n) s_div && class_ s_result n)
              (flat_map Bs4.tags soup).

(** [elem.find('a', class_=c)]: the first matching tag below [elem]. *)
Definition find_link (class_ : str -> Bs4.node -> bool) (c : str)
                     (elem : Bs4.node) : option Bs4.node :=
  List.find (fun n => str_eqb (Bs4.name_of n) s_a && class_ c n)
            (flat_map Bs4.tags (Bs4.contents_of elem)).

(** [e.get_text(strip=True) if e else empty]. *)
Definition text_of (e : option Bs4.node) : str :=
  match e with
  | Some tag => Bs4.get_text_strip (Bs4.contents_of tag)
  | None => []
  end.

(** The body of the loop over the results: the dictionary that is
    appended, if any; [extract_domain] may raise. *)
Definition result_of (T : Urllib.Tables) (class_ : str -> Bs4.node -> bool)
                     (elem : Bs4.node) : result (option SearchResult) :=
  let title_elem := find_link class_ s_result_a elem in
  let title := text_of title_elem in
  let url := match title_elem with
             | Some tag => Bs4.get s_href tag
             | None => Some []
             end in
  let desc_elem := find_link class_ s_result_snippet elem in
  let description := text_of desc_elem in
  let title := remove_extra_spaces title in
  let description := remove_extra_spaces description in
  match url with
  | Some url =>
      if truthy title && truthy url then
        let url := if startswith slashes_prefix url
                   then RSSNewsScraper.s_https_colon ++ url
                   else url in
        domain <- extract_domain T url false ;;
        Ok (Some {| sr_title := title;
                    sr_url := url;
                    sr_domain := domain;
                    sr_description := if truthy description then description
                                      else s_NA |})
      else Ok None
  | None => Ok None
  end.

(** The loop over the results: a result that raises is skipped. *)
Fixpoint collect_results (T : Urllib.Tables)
    (class_ : str -> Bs4.node -> bool) (search_results : list Bs4.node)
  : list SearchResult :=
  match search_results with
  | [] => []
  | elem :: rest =>
      match result_of T class_ elem with
      | Ok (Some r) => r :: collect_results T class_ rest
      | Ok None => collect_results T class_ rest
      | Raise _ => collect_results T class_ rest
      end
  end.

(** [search_duckduckgo]. *)
Definition search_duckduckgo (lib : Lib) (class_ : str -> Bs4.node -> bool)
    (net : Net) (requester : t) (query : str) (num_results : Z) (w : World)
  : result (list SearchResult) * World :=
  let search_url := search_prefix ++ query in
  let (r, w1) := get_soup lib net requester search_url (Some 15%Q) 3 1 w in
  match r with
  | Ok soup =>
      (Ok (collect_results (tables lib) class_
             (RSSFeeds.slice_to num_results (find_results class_ soup))), w1)
  | Raise e => if is_Exception e then (Ok [], w1) else (Raise e, w1)
  end.

(** [search]. *)
Definition search (lib : Lib) (class_ : str -> Bs4.node -> bool)
    (net : Net) (requester : t) (query : str) (num_results : Z) (w : World)
  : result (list SearchResult) * World :=
  search_duckduckgo lib class_ net requester query num_results w.

End GoogleSearchScraper.

(** Vocabulary of the statements about search results. *)

(** A result as the search scraper builds it: a clean, non-empty title,
    a non-empty URL that is not protocol-relative, the domain of that
    URL, and a non-empty description. *)
Definition well_formed_result (T : Urllib.Tables)
    (r : GoogleSearchScraper.SearchResult) : Prop :=
  truthy (GoogleSearchScraper.sr_title r) = true
  /\ remove_extra_spaces (GoogleSearchScraper.sr_title r)
     = GoogleSearchScraper.sr_title r
  /\ truthy (GoogleSearchScraper.sr_url r) = true
  /\ startswith slashes_prefix (GoogleSearchScraper.sr_url r) = false
  /\ extract_domain T (GoogleSearchScraper.sr_url r) false
     = Ok (GoogleSearchScraper.sr_domain r)
  /\ truthy (GoogleSearchScraper.sr_description r) = true.

(** A feed that [scrape_news] reads: it has a category that is not
    empty and a URL that starts with [http]. *)
Definition readable_feed (feed : RSSFeeds.Feed) : Prop :=
  (exists c, RSSFeeds.f_category feed = Some c /\ truthy c = true)
  /\ exists u, RSSFeeds.f_url feed = Some u
               /\ startswith RSSNewsScraper.s_http u = true.

(** Settings for evaluation: a class filter that looks for the token in
    the [class] attribute split at spaces, a page of two results, the
    second one without a link, and a page of links to feeds. *)
Definition class_token (c : str) (n : Bs4.node) : bool :=
  match Bs4.get RSSNewsScraper.s_class n with
  | Some v => str_in c (split SP v)
  | None => false
  end.

Definition results_page : list Bs4.node :=
  [Bs4.Tag (lit "div") [(lit "class", lit "result results_links")]
     [Bs4.Tag (lit "a") [(lit "class", lit "result__a");
                         (lit "href", lit "//www.esiee.fr/formations")]
        [text_node "  ESIEE   Paris "];
      Bs4.Tag (lit "a") [(lit "class", lit "result__snippet")] []];
   Bs4.Tag (lit "div") [(lit "class", lit "result")]
     [Bs4.Tag (lit "a") [(lit "class", lit "result__snippet")]
        [text_node "No link"]]].

Definition feeds_page : list Bs4.node :=
  [Bs4.Tag (lit "a") [(lit "href", lit "/rss/une.xml")] [text_node "Une"];
   Bs4.Tag (lit "a") [(lit "href", lit "https://www.lemonde.fr/sport.rss")] [];
   Bs4.Tag (lit "a") [(lit "href", lit "/contact")] [text_node "Contact"]].

(** Vocabulary of the statements about feeds. *)


(** The element was merged with what [scrape_article] returned for the
    URL of its article, called right after a pause of one second, between
    the states [w] and [w'] of the world. *)
Definition scraped_between (lib : Lib) (net : Net)
    (requester : ImprovedHTTPRequester.t) (w w' : World)
    (item : RSSFeeds.NewsItem) : Prop :=
  match item with
  | RSSFeeds.FromFeed _ => True
  | RSSFeeds.Merged a full_article _ =>
      exists u w1 w2,
        RSSFeeds.r_url a = Some u
        /\ (exists before, trace w1 = before ++ [EvSleep 1])
        /\ RSSNewsScraper.scrape_article lib net requester u w1
           = (Ok full_article, w2)
        /\ issued w <= issued w1 /\ issued w2 <= issued w'
  end.

(** The [domain] of the article is what [extract_domain] makes of its
    [url]. *)
Definition domain_of_url (T : Urllib.Tables) (a : RSSFeeds.RssArticle)
  : Prop :=
  match RSSFeeds.r_url a with
  | Some u => extract_domain T u false = Ok (RSSFeeds.r_domain a)
  | None => RSSFeeds.r_domain a = []
  end.

(* ===================================================================== *)
(** * Part II: properties *)
(* ===================================================================== *)

Ltac eqb_cases x y :=
  let E := fresh "E" in
  destruct (N.eqb_spec x y) as [E | E]; [try subst | idtac].

(** ** Facts about the string primitives *)

Section CharRuns.

Variable c : char.

Lemma re_sub_plus_no_double (s : str) (b : bool) :
  no_double c (re_sub_plus c [c] b s) = true
  /\ starts c (re_sub_plus c [c] true s) = false.
Proof.
  revert b; induction s as [| x t IH]; intros b; simpl.
  - now split.
  - eqb_cases x c.
    + destruct (IH true) as [Hn Hs]. destruct b; simpl.
      * now split.
      * rewrite N.eqb_refl, Hs, Hn. now split.
    + destruct (IH false) as [Hn _]. simpl.
      apply N.eqb_neq in E. rewrite E, Hn. now split.
Qed.

Lemma re_sub_plus_fixed (s : str) :
  no_double c s = true ->
  re_sub_plus c [c] false s = s
  /\ (starts c s = false -> re_sub_plus c [c] true s = s).
Proof.
  induction s as [| x t IH]; simpl; intros H.
  - now split.
  - apply andb_true_iff in H as [H1 H2].
    destruct (IH H2) as [IHf IHt].
    eqb_cases x c.
    + simpl in H1. apply negb_true_iff in H1. rewrite (IHt H1).
      split; [reflexivity | discriminate].
    + rewrite IHf. now split.
Qed.

Lemma starts_re_sub_plus (d : char) (s : str) :
  c <> d -> starts d (re_sub_plus c [c] false s) = starts d s.
Proof.
  intros Hcd. destruct s as [| x t]; simpl; [reflexivity |].
  eqb_cases x c; simpl; [| reflexivity].
  reflexivity.
Qed.

Lemma re_sub_plus_keeps_no_double (d : char) (s : str) (b : bool) :
  c <> d -> no_double d s = true ->
  no_double d (re_sub_plus c [c] b s) = true.
Proof.
  intros Hcd. revert b.
  induction s as [| x t IH]; intros b H; simpl; [reflexivity |].
  simpl in H. apply andb_true_iff in H as [H1 H2].
  eqb_cases x c.
  - destruct b; simpl; [now apply IH |].
    rewrite (proj2 (N.eqb_neq c d) Hcd). simpl. now apply IH.
  - simpl. rewrite (IH false H2), andb_true_r.
    rewrite starts_re_sub_plus by assumption. exact H1.
Qed.

End CharRuns.

Section Substrings.

Variable d : char.

Lemma no_double_app_l (p q : str) :
  no_double d (p ++ q) = true -> no_double d p = true.
Proof.
  induction p as [| x p IH]; simpl; intros H; [reflexivity |].
  apply andb_true_iff in H as [H1 H2].
  rewrite (IH H2), andb_true_r.
  destruct p as [| y p]; simpl in *.
  - now rewrite andb_false_r.
  - exact H1.
Qed.

Lemma no_double_app_r (p q : str) :
  no_double d (p ++ q) = true -> no_double d q = true.
Proof.
  induction p as [| x p IH]; simpl; intros H; [exact H |].
  apply andb_true_iff in H as [_ H2]. now apply IH.
Qed.

Lemma contains_app (p q : str) :
  contains d (p ++ q) = contains d p || contains d q.
Proof. unfold contains. apply existsb_app. Qed.

Lemma no_double_without (s : str) :
  contains d s = false -> no_double d s = true.
Proof.
  induction s as [| x t IH]; simpl; intros H; [reflexivity |].
  apply orb_false_iff in H as [H1 H2].
  rewrite (IH H2), andb_true_r, N.eqb_sym, H1. reflexivity.
Qed.

(** Gluing two pieces with a separator other than [d]. *)
Lemma no_double_glue (c : char) (a b : str) :
  c <> d -> no_double d a = true -> no_double d b = true ->
  no_double d (a ++ c :: b) = true.
Proof.
  intros Hcd Ha Hb. apply N.eqb_neq in Hcd.
  induction a as [| x a IH]; simpl.
  - now rewrite Hcd, Hb.
  - simpl in Ha. apply andb_true_iff in Ha as [H1 H2].
    rewrite (IH H2), andb_true_r.
    destruct a as [| y a]; simpl in *.
    + now rewrite Hcd, andb_false_r.
    + exact H1.
Qed.

(** Gluing with the separator [d] itself: neither piece may touch it. *)
Lemma no_double_glue_sep (a b : str) :
  truthy a = true -> contains d a = false ->
  starts d b = false -> no_double d b = true ->
  no_double d (a ++ d :: b) = true.
Proof.
  intros Hne Ha Hs Hb.
  induction a as [| x a IH]; [discriminate |].
  simpl in Ha. apply orb_false_iff in Ha as [H1 H2].
  rewrite N.eqb_sym in H1.
  change ((x :: a) ++ d :: b) with (x :: (a ++ d :: b)).
  simpl. rewrite H1. simpl.
  destruct a as [| y a].
  - simpl. now rewrite N.eqb_refl, Hs, Hb.
  - now apply IH.
Qed.

End Substrings.

(** ** [split] and [join] *)

Lemma split_not_nil (c : char) (s : str) : split c s <> [].
Proof.
  destruct s as [| x t]; simpl; [discriminate |].
  destruct (x =? c)%N; [discriminate |].
  destruct (split c t); discriminate.
Qed.

Lemma split_without_sep (c : char) (s : str) :
  Forall (fun l => contains c l = false) (split c s).
Proof.
  induction s as [| x t IH]; simpl.
  - now constructor.
  - eqb_cases x c.
    + now constructor.
    + destruct (split c t) as [| l ls] eqn:Et.
      * exfalso. now apply (split_not_nil c t).
      * inversion IH; subst. constructor; [| assumption].
        simpl. apply N.eqb_neq in E. rewrite N.eqb_sym, E. assumption.
  Qed.

Lemma starts_first_line (c d : char) (s : str) :
  starts d (hd [] (split c s)) = true -> starts d s = true.
Proof.
  destruct s as [| x t]; simpl; [discriminate |].
  destruct (x =? c)%N; simpl; [discriminate |].
  destruct (split c t); simpl; trivial.
Qed.

Lemma split_keeps_no_double (c d : char) (s : str) :
  no_double d s = true -> Forall (fun l => no_double d l = true) (split c s).
Proof.
  induction s as [| x t IH]; simpl; intros H.
  - now constructor.
  - apply andb_true_iff in H as [H1 H2]. specialize (IH H2).
    destruct (x =? c)%N.
    + now constructor.
    + pose proof (starts_first_line c d t) as Hs.
      destruct (split c t) as [| l ls].
      { constructor; [simpl; now rewrite andb_false_r | constructor]. }
      inversion IH; subst. constructor; [| assumption].
      simpl in *. apply andb_true_iff. split; [| assumption].
      destruct (x =? d)%N; [| reflexivity]. simpl in *.
      destruct (starts d l); [| reflexivity].
      now rewrite Hs in H1.
Qed.

Lemma split_single (c : char) (x : str) :
  contains c x = false -> split c x = [x].
Proof.
  induction x as [| y x IH]; simpl; intros H; [reflexivity |].
  apply orb_false_iff in H as [H1 H2].
  rewrite N.eqb_sym, H1, (IH H2). reflexivity.
Qed.

Lemma split_app_sep (c : char) (x rest : str) :
  contains c x = false -> split c (x ++ c :: rest) = x :: split c rest.
Proof.
  induction x as [| y x IH]; simpl; intros H.
  - now rewrite N.eqb_refl.
  - apply orb_false_iff in H as [H1 H2].
    rewrite N.eqb_sym, H1, (IH H2). reflexivity.
Qed.

Lemma split_join (c : char) (L : list str) :
  L <> [] -> Forall (fun l => contains c l = false) L ->
  split c (join [c] L) = L.
Proof.
  induction L as [| x r IH]; intros Hne HF; [congruence |].
  inversion HF as [| ? ? Hx Hr]; subst.
  destruct r as [| y r].
  - simpl. now apply split_single.
  - change (join [c] (x :: y :: r)) with (x ++ c :: join [c] (y :: r)).
    rewrite split_app_sep by assumption.
    f_equal. apply IH; [discriminate | assumption].
Qed.

(** ** [strip] *)

Lemma lstrip_suffix (s : str) : exists p, s = p ++ lstrip s.
Proof.
  induction s as [| x t [p IH]]; simpl.
  - now exists [].
  - destruct (isspace x).
    + exists (x :: p). simpl. now f_equal.
    + now exists [].
Qed.

Lemma rstrip_prefix (s : str) : exists q, s = rstrip s ++ q.
Proof.
  unfold rstrip. destruct (lstrip_suffix (rev s)) as [p Hp].
  exists (rev p). rewrite <- rev_app_distr, <- Hp. symmetry. apply rev_involutive.
Qed.

Lemma strip_infix (s : str) : exists p q, s = p ++ strip s ++ q.
Proof.
  unfold strip. destruct (lstrip_suffix s) as [p Hp].
  destruct (rstrip_prefix (lstrip s)) as [q Hq].
  exists p, q. now rewrite <- Hq.
Qed.

Lemma starts_ws_lstrip (s : str) : starts_ws (lstrip s) = false.
Proof.
  induction s as [| x t IH]; simpl; [reflexivity |].
  destruct (isspace x) eqn:Ex; [assumption | exact Ex].
Qed.

Lemma lstrip_fixed (s : str) : starts_ws s = false -> lstrip s = s.
Proof. destruct s as [| x t]; simpl; intros H; [| rewrite H]; reflexivity. Qed.

Lemma strip_fixed (s : str) :
  starts_ws s = false -> starts_ws (rev s) = false -> strip s = s.
Proof.
  intros H1 H2. unfold strip, rstrip.
  rewrite (lstrip_fixed s H1), (lstrip_fixed (rev s) H2).
  apply rev_involutive.
Qed.

Lemma strip_ends (s : str) :
  starts_ws (strip s) = false /\ starts_ws (rev (strip s)) = false.
Proof.
  unfold strip, rstrip. set (u := lstrip s).
  assert (Hu : starts_ws u = false) by apply starts_ws_lstrip.
  split.
  - destruct (lstrip_suffix (rev u)) as [p Hp].
    assert (Hu' : u = rev (lstrip (rev u)) ++ rev p).
    { rewrite <- rev_app_distr, <- Hp. symmetry. apply rev_involutive. }
    destruct (rev (lstrip (rev u))) as [| x w]; [reflexivity |].
    rewrite Hu' in Hu. exact Hu.
  - rewrite rev_involutive. apply starts_ws_lstrip.
Qed.

Lemma strip_idempotent (s : str) : strip (strip s) = strip s.
Proof. destruct (strip_ends s). now apply strip_fixed. Qed.

Lemma strip_keeps_no_double (d : char) (s : str) :
  no_double d s = true -> no_double d (strip s) = true.
Proof.
  destruct (strip_infix s) as (p & q & Hs). intros H. rewrite Hs in H.
  apply no_double_app_r in H. now apply no_double_app_l in H.
Qed.

Lemma strip_keeps_without (d : char) (s : str) :
  contains d s = false -> contains d (strip s) = false.
Proof.
  destruct (strip_infix s) as (p & q & Hs). intros H. rewrite Hs in H.
  rewrite !contains_app in H.
  apply orb_false_iff in H as [_ H]. now apply orb_false_iff in H as [H _].
Qed.

(** ** Lines joined by a newline *)

Lemma join_cons2 (sep x y : str) (r : list str) :
  join sep (x :: y :: r) = x ++ sep ++ join sep (y :: r).
Proof. reflexivity. Qed.

Lemma join_no_double_other (c d : char) (L : list str) :
  c <> d -> Forall (fun l => no_double d l = true) L ->
  no_double d (join [c] L) = true.
Proof.
  intros Hcd. induction L as [| x r IH]; intros HF; [reflexivity |].
  inversion HF; subst. destruct r as [| y r]; [assumption |].
  rewrite join_cons2. simpl app. apply no_double_glue; auto.
Qed.

Lemma starts_app_truthy (c : char) (a b : str) :
  truthy a = true -> starts c (a ++ b) = starts c a.
Proof. destruct a; [discriminate | reflexivity]. Qed.

Lemma starts_without (c : char) (a : str) :
  contains c a = false -> starts c a = false.
Proof.
  destruct a as [| x a]; simpl; [reflexivity |].
  intros H. apply orb_false_iff in H as [H _]. now rewrite N.eqb_sym.
Qed.

Lemma join_no_double_sep (c : char) (L : list str) :
  Forall (fun l => truthy l = true /\ contains c l = false) L ->
  no_double c (join [c] L) = true /\ starts c (join [c] L) = false.
Proof.
  induction L as [| x r IH]; intros HF; [now split |].
  inversion HF as [| ? ? [Hx1 Hx2] Hr]; subst.
  destruct r as [| y r].
  - simpl. split; [now apply no_double_without | now apply starts_without].
  - rewrite join_cons2. simpl app. destruct (IH Hr) as [IH1 IH2]. split.
    + now apply no_double_glue_sep.
    + rewrite starts_app_truthy by assumption. now apply starts_without.
Qed.

Lemma join_truthy (c : char) (L : list str) :
  truthy (join [c] L) = true -> L <> [].
Proof. destruct L; [discriminate | discriminate]. Qed.

(** ** [remove_extra_spaces] *)

Lemma clean_line_filter (L : list str) :
  Forall clean_line L ->
  List.filter truthy (List.map strip L) = L.
Proof.
  induction 1 as [| l L (Ht & _ & Hs & _) _ IH]; simpl; [reflexivity |].
  rewrite Hs, Ht, IH. reflexivity.
Qed.

(** The output of [remove_extra_spaces] is a list of clean lines joined
    by single newlines. *)
Lemma remove_extra_spaces_lines (s : str) :
  exists L, Forall clean_line L /\ remove_extra_spaces s = join [NL] L.
Proof.
  unfold remove_extra_spaces. destruct (truthy s) eqn:Hs; simpl.
  2:{ exists []. destruct s; [now split | discriminate]. }
  set (t := re_sub_plus NL [NL] false (re_sub_plus SP [SP] false s)).
  exists (List.filter truthy (List.map strip (split NL t))).
  split; [| reflexivity].
  assert (Ht : no_double SP t = true).
  { apply re_sub_plus_keeps_no_double; [discriminate |].
    apply re_sub_plus_no_double. }
  apply Forall_forall. intros l Hl.
  apply filter_In in Hl as [Hl Hne].
  apply in_map_iff in Hl as (l0 & <- & Hl0).
  pose proof (split_without_sep NL t) as H1.
  pose proof (split_keeps_no_double NL SP t Ht) as H2.
  rewrite Forall_forall in H1, H2.
  repeat split.
  - exact Hne.
  - apply strip_keeps_without. now apply H1.
  - apply strip_idempotent.
  - apply strip_keeps_no_double. now apply H2.
Qed.

(** Clean lines joined by newlines are left as they are. *)
Lemma remove_extra_spaces_join (L : list str) :
  Forall clean_line L ->
  remove_extra_spaces (join [NL] L) = join [NL] L.
Proof.
  intros HL. unfold remove_extra_spaces.
  destruct (truthy (join [NL] L)) eqn:Hj; simpl; [| reflexivity].
  assert (Hsp : no_double SP (join [NL] L) = true).
  { apply join_no_double_other; [discriminate |].
    eapply Forall_impl; [| exact HL]. now intros l (_ & _ & _ & H). }
  assert (Hnl : no_double NL (join [NL] L) = true).
  { apply join_no_double_sep.
    eapply Forall_impl; [| exact HL]. now intros l (H1 & H2 & _). }
  rewrite (proj1 (re_sub_plus_fixed SP _ Hsp)).
  rewrite (proj1 (re_sub_plus_fixed NL _ Hnl)).
  rewrite split_join.
  - now rewrite clean_line_filter.
  - now apply join_truthy in Hj.
  - eapply Forall_impl; [| exact HL]. now intros l (_ & H & _).
Qed.

(** C5: [remove_extra_spaces] (the specification's [normalize]) is
    idempotent: applying it to its own output changes nothing, for every
    string. *)
Theorem remove_extra_spaces_idempotent (x : str) :
  remove_extra_spaces (remove_extra_spaces x) = remove_extra_spaces x.
Proof.
  destruct (remove_extra_spaces_lines x) as (L & HL & ->).
  now apply remove_extra_spaces_join.
Qed.

(** ** The scanner against the run-length reading of the specification *)

Lemma runs_head (x : char) (t : str) :
  exists k r, runs (x :: t) = (x, S k) :: r.
Proof.
  revert x. induction t as [| y t IH]; intros x.
  - now exists 0, [].
  - destruct (IH y) as (k & r & Hr).
    change (runs (x :: y :: t)) with
      (match runs (y :: t) with
       | (d, n) :: r => if (x =? d)%N then (d, S n) :: r
                        else (x, 1) :: (d, n) :: r
       | [] => [(x, 1)]
       end).
    rewrite Hr. eqb_cases x y.
    + now exists (S k), r.
    + now exists 0, ((y, S k) :: r).
Qed.

Lemma re_sub_plus_collapse_runs (c : char) (s : str) :
  re_sub_plus c [c] false s = collapse_runs c s
  /\ re_sub_plus c [c] true s
     = if starts c s then tl (collapse_runs c s) else collapse_runs c s.
Proof.
  induction s as [| x t [IHf IHt]]; [now split |].
  destruct t as [| y t'].
  - unfold collapse_runs. simpl. destruct (x =? c)%N; now split.
  - destruct (runs_head y t') as (k & r & Hr).
    assert (Hc : collapse_runs c (y :: t')
                 = (if (y =? c)%N then [c] else repeat y (S k))
                   ++ flat_map (fun r => if (fst r =? c)%N then [c]
                                         else repeat (fst r) (snd r)) r).
    { unfold collapse_runs. rewrite Hr. reflexivity. }
    assert (Hx : collapse_runs c (x :: y :: t')
                 = if (x =? y)%N
                   then (if (y =? c)%N then [c] else repeat y (S (S k)))
                        ++ flat_map (fun r => if (fst r =? c)%N then [c]
                                              else repeat (fst r) (snd r)) r
                   else (if (x =? c)%N then [c] else [x])
                        ++ collapse_runs c (y :: t')).
    { unfold collapse_runs.
      change (runs (x :: y :: t')) with
        (match runs (y :: t') with
         | (d, n) :: r => if (x =? d)%N then (d, S n) :: r
                          else (x, 1) :: (d, n) :: r
         | [] => [(x, 1)]
         end).
      rewrite Hr. destruct (x =? y)%N; reflexivity. }
    rewrite Hx. clear Hx.
    change (re_sub_plus c [c] false (x :: y :: t')) with
      (if (x =? c)%N then c :: re_sub_plus c [c] true (y :: t')
       else x :: re_sub_plus c [c] false (y :: t')).
    change (re_sub_plus c [c] true (x :: y :: t')) with
      (if (x =? c)%N then re_sub_plus c [c] true (y :: t')
       else x :: re_sub_plus c [c] false (y :: t')).
    rewrite IHf, IHt, Hc. clear IHf IHt Hc.
    change (starts c (x :: y :: t')) with (x =? c)%N.
    change (starts c (y :: t')) with (y =? c)%N.
    eqb_cases x y.
    + destruct (y =? c)%N; simpl; now split.
    + destruct (x =? c)%N eqn:Exc; simpl.
      * apply N.eqb_eq in Exc. subst x.
        apply N.eqb_neq in E. rewrite N.eqb_sym in E. rewrite E.
        now split.
      * now split.
Qed.

Lemma remove_extra_spaces_refines (text : str) :
  remove_extra_spaces text = normalize_spec text.
Proof.
  unfold remove_extra_spaces, normalize_spec.
  destruct text as [| x t]; [reflexivity |].
  cbv beta iota delta [truthy negb].
  rewrite <- !(proj1 (re_sub_plus_collapse_runs _ _)).
  f_equal.
  apply filter_ext. now intros [| ? ?].
Qed.

(** C6: [remove_extra_spaces] does what the specification lists for
    [normalize]: it collapses each run of spaces to one space, then each
    run of newlines to one newline, strips every line, drops the lines
    that became empty and joins the rest with single newlines
    ([normalize_spec]); the resulting lines are clean; the empty string
    is returned unchanged; and [normalize("a   b\n\n\nc  ")] is
    ["a b\nc"]. *)
Theorem remove_extra_spaces_spec :
  (forall text, remove_extra_spaces text = normalize_spec text)
  /\ (forall text, exists lines,
         Forall clean_line lines
         /\ remove_extra_spaces text = join [NL] lines)
  /\ remove_extra_spaces [] = []
  /\ remove_extra_spaces
       (lit "a   b" ++ [NL; NL; NL] ++ lit "c  ")
     = lit "a b" ++ [NL] ++ lit "c".
Proof.
  split; [exact remove_extra_spaces_refines |].
  split; [exact remove_extra_spaces_lines |].
  split; reflexivity.
Qed.

(** ** [extract_domain] *)

Lemma last_n_app (A : Type) (front l : list A) :
  last_n (length l) (front ++ l) = l.
Proof.
  unfold last_n. rewrite length_app.
  replace (length front + length l - length l) with (length front) by lia.
  rewrite skipn_app, skipn_all, Nat.sub_diag. reflexivity.
Qed.

Lemma last_n_app_cons (A : Type) (front l : list A) (a : A) :
  last_n (length l) (front ++ a :: l) = l.
Proof.
  replace (front ++ a :: l) with ((front ++ [a]) ++ l)
    by (rewrite <- app_assoc; reflexivity).
  apply last_n_app.
Qed.

Lemma second_to_last (A : Type) (front : list A) (a b c d : A) :
  nth (length (front ++ [a; b; c]) - 2) (front ++ [a; b; c]) d = b.
Proof.
  rewrite length_app. simpl length.
  replace (length front + 3 - 2) with (length front + 1) by lia.
  rewrite app_nth2_plus. reflexivity.
Qed.

Section ExtractDomain.

Variable T : Urllib.Tables.

Lemma extract_domain_prepends (url : str) (b : bool) :
  truthy url = true ->
  startswith http_prefix url = false ->
  startswith https_prefix url = false ->
  startswith slashes_prefix url = false ->
  extract_domain T url b = extract_domain T (http_prefix ++ url) b.
Proof.
  intros Ht H1 H2 H3. unfold extract_domain.
  rewrite Ht. change (truthy (http_prefix ++ url)) with true.
  cbv beta iota delta [negb].
  unfold prepared_url at 1. rewrite H1, H2, H3.
  cbv beta iota delta [negb orb].
  unfold prepared_url.
  change (startswith http_prefix (http_prefix ++ url))
    with (startswith [] url).
  destruct url; reflexivity.
Qed.

Lemma extract_domain_parsed (url : str) (parsed : Urllib.ParseResult)
      (b : bool) :
  truthy url = true ->
  Urllib.urlparse T (prepared_url url) = Ok parsed ->
  extract_domain T url b =
  let host := netloc_of parsed in
  let parts := split DOT host in
  if b then Ok host
  else if (length parts <=? 2)%nat then Ok host
  else if (3 <=? length parts)%nat
          && str_in (nth (length parts - 2) parts []) second_level_labels
  then Ok (join [DOT] (last_n 3 parts))
  else Ok (join [DOT] (last_n 2 parts)).
Proof.
  intros Ht Hp. unfold extract_domain. rewrite Ht, Hp. reflexivity.
Qed.

Lemma extract_domain_with_subdomain (url : str) (parsed : Urllib.ParseResult) :
  truthy url = true ->
  Urllib.urlparse T (prepared_url url) = Ok parsed ->
  extract_domain T url true = Ok (netloc_of parsed).
Proof. intros Ht Hp. now rewrite (@extract_domain_parsed url parsed true Ht Hp). Qed.

Lemma extract_domain_short (url : str) (parsed : Urllib.ParseResult) :
  truthy url = true ->
  Urllib.urlparse T (prepared_url url) = Ok parsed ->
  length (split DOT (netloc_of parsed)) <= 2 ->
  extract_domain T url false = Ok (netloc_of parsed).
Proof.
  intros Ht Hp Hl. rewrite (@extract_domain_parsed url parsed false Ht Hp).
  cbv zeta. apply Nat.leb_le in Hl. now rewrite Hl.
Qed.

Lemma extract_domain_long (url : str) (parsed : Urllib.ParseResult)
      (front : list str) (a b c : str) :
  truthy url = true ->
  Urllib.urlparse T (prepared_url url) = Ok parsed ->
  split DOT (netloc_of parsed) = front ++ [a; b; c] ->
  extract_domain T url false =
  Ok (if str_in b second_level_labels
      then a ++ [DOT] ++ b ++ [DOT] ++ c
      else b ++ [DOT] ++ c).
Proof.
  intros Ht Hp Hs. rewrite (@extract_domain_parsed url parsed false Ht Hp).
  cbv zeta. rewrite Hs, second_to_last.
  assert (Hlen : length (front ++ [a; b; c]) = length front + 3)
    by (rewrite length_app; reflexivity).
  rewrite Hlen.
  replace (length front + 3 <=? 2)%nat with false
    by (symmetry; apply Nat.leb_gt; lia).
  replace (3 <=? length front + 3)%nat with true
    by (symmetry; apply Nat.leb_le; lia).
  rewrite (last_n_app front [a; b; c] : last_n 3 _ = _).
  rewrite (last_n_app_cons front [b; c] a : last_n 2 _ = _).
  destruct (str_in b second_level_labels); reflexivity.
Qed.

End ExtractDomain.

(** ** [urlparse] on plain ASCII text *)

Lemma plain_incl (a b : str) : incl a b -> plain b = true -> plain a = true.
Proof.
  unfold plain. rewrite !forallb_forall. intros Hi Hb x Hx. apply Hb, Hi, Hx.
Qed.

Lemma plain_isascii (s : str) : plain s = true -> isascii s = true.
Proof.
  unfold plain, isascii. rewrite !forallb_forall. intros H x Hx.
  specialize (H x Hx). unfold plain_char in H.
  now apply andb_true_iff in H as [H%andb_true_iff _].
Qed.

Lemma plain_no_bracket (s : str) :
  plain s = true ->
  contains Urllib.LBRACKET s = false /\ contains Urllib.RBRACKET s = false.
Proof.
  unfold plain, contains. rewrite forallb_forall. intros H.
  split; apply not_true_is_false; intros Hc;
    apply existsb_exists in Hc as (x & Hx & Hc);
    specialize (H x Hx); unfold plain_char in H;
    apply N.eqb_eq in Hc; subst x;
    apply andb_true_iff in H as [H1 H2];
    apply andb_true_iff in H1 as [_ H1]; discriminate.
Qed.

Lemma lstrip_chars_incl (p : char -> bool) (s : str) :
  incl (lstrip_chars p s) s.
Proof.
  induction s as [| x t IH]; simpl; [apply incl_refl |].
  destruct (p x); [now apply incl_tl | apply incl_refl].
Qed.

Lemma remove_char_incl (c : char) (s : str) : incl (remove_char c s) s.
Proof. apply incl_filter. Qed.

Lemma firstn_incl (A : Type) (n : nat) (l : list A) : incl (firstn n l) l.
Proof.
  intros x Hx. rewrite <- (firstn_skipn n l). apply in_or_app. now left.
Qed.

Lemma skipn_incl (A : Type) (n : nat) (l : list A) : incl (skipn n l) l.
Proof.
  intros x Hx. rewrite <- (firstn_skipn n l). apply in_or_app. now right.
Qed.

Lemma splitnetloc_incl (s : str) : incl (fst (Urllib.splitnetloc s)) s.
Proof.
  induction s as [| x t IH]; simpl; [apply incl_refl |].
  destruct ((x =? Urllib.SLASH) || (x =? Urllib.QUESTION)
            || (x =? Urllib.HASH))%N; simpl.
  - intros y [].
  - destruct (Urllib.splitnetloc t) as [n r]. simpl in *.
    intros y [<- | Hy]; [now left | right; now apply IH].
Qed.

Section UrlsplitFacts.

Variable T : Urllib.Tables.

(** The only exception of [urlsplit] is [ValueError]. *)
Lemma urlsplit_raises (url : str) (e : exn) :
  Urllib.urlsplit T url = Raise e -> e = ValueError.
Proof.
  unfold Urllib.urlsplit.
  repeat match goal with
         | |- context [match ?x with _ => _ end] =>
             lazymatch x with
             | context [match _ with _ => _ end] => fail
             | _ => destruct x
             end
         | |- Raise _ = Raise _ -> _ => intros H; now inversion H
         | |- Ok _ = Raise _ -> _ => discriminate
         | |- _ => progress cbn [bind]
         end.
Qed.

Lemma urlparse_raises (url : str) (e : exn) :
  Urllib.urlparse T url = Raise e -> e = ValueError.
Proof.
  unfold Urllib.urlparse.
  destruct (Urllib.urlsplit T url) as [sr | e'] eqn:Hs; cbn [bind].
  - destruct (_ && _); [destruct (Urllib.splitparams _) |]; discriminate.
  - intros H. inversion H; subst. now apply urlsplit_raises in Hs.
Qed.

End UrlsplitFacts.

Section PlainUrls.

Variable T : Urllib.Tables.

Lemma checknetloc_ascii (n : str) :
  isascii n = true -> Urllib.checknetloc T n = true.
Proof.
  intros H. unfold Urllib.checknetloc. now rewrite H, orb_true_r.
Qed.

Lemma urlsplit_plain (url : str) :
  plain url = true -> exists sr, Urllib.urlsplit T url = Ok sr.
Proof.
  intros Hp. unfold Urllib.urlsplit.
  set (u1 := Urllib.remove_unsafe _).
  assert (H1 : plain u1 = true).
  { apply plain_incl with (b := url); [| assumption].
    unfold u1, Urllib.remove_unsafe.
    repeat (eapply incl_tran; [apply remove_char_incl |]).
    apply lstrip_chars_incl. }
  match goal with
  | |- context [let '(_, _) := ?M in _] =>
      destruct M as [sch u2] eqn:Esch
  end.
  assert (H2 : plain u2 = true).
  { destruct (find Urllib.COLON u1) as [i |].
    - destruct (_ && _ && _); injection Esch as _ <-; [| assumption].
      apply plain_incl with (b := u1); [exact (skipn_incl (S i) u1) | assumption].
    - injection Esch as _ <-. assumption. }
  destruct (startswith [Urllib.SLASH; Urllib.SLASH] u2).
  - destruct (Urllib.splitnetloc (skipn 2 u2)) as [nl rest] eqn:En.
    assert (H3 : plain nl = true).
    { apply plain_incl with (b := u2); [| assumption].
      eapply incl_tran; [| apply (skipn_incl 2)].
      pose proof (splitnetloc_incl (skipn 2 u2)) as Hi.
      now rewrite En in Hi. }
    destruct (plain_no_bracket nl H3) as [Hl Hr].
    rewrite Hl, Hr. cbn [andb orb negb bind].
    rewrite (checknetloc_ascii nl (plain_isascii nl H3)).
    destruct (if contains Urllib.HASH rest then _ else _) as [u3 frag].
    destruct (if contains Urllib.QUESTION u3 then _ else _) as [u4 qry].
    eexists; reflexivity.
  - cbn [bind].
    destruct (if contains Urllib.HASH u2 then _ else _) as [u3 frag].
    destruct (if contains Urllib.QUESTION u3 then _ else _) as [u4 qry].
    eexists; reflexivity.
Qed.

Lemma urlparse_plain (url : str) :
  plain url = true -> exists parsed, Urllib.urlparse T url = Ok parsed.
Proof.
  intros Hp. unfold Urllib.urlparse.
  destruct (urlsplit_plain url Hp) as [sr ->]. cbn [bind].
  destruct (if _ && _ then _ else _) as [u prm].
  eexists; reflexivity.
Qed.

Lemma prepared_url_plain (url : str) :
  plain url = true -> plain (prepared_url url) = true.
Proof.
  intros Hp. unfold prepared_url.
  destruct (negb _); [| assumption].
  unfold plain in *. rewrite forallb_app. now rewrite Hp.
Qed.

Lemma extract_domain_returns_or_ValueError (url : str) (b : bool) :
  (exists s, extract_domain T url b = Ok s)
  \/ extract_domain T url b = Raise ValueError.
Proof.
  unfold extract_domain.
  destruct (negb (truthy url)); [left; eexists; reflexivity |].
  destruct (Urllib.urlparse T (prepared_url url)) as [parsed | e] eqn:Hu;
    cbn [bind].
  - left. cbv zeta.
    destruct b; [eexists; reflexivity |].
    destruct (_ <=? 2)%nat; [eexists; reflexivity |].
    destruct (_ && _); eexists; reflexivity.
  - right. apply urlparse_raises in Hu. now subst.
Qed.

Lemma extract_domain_plain (url : str) (b : bool) :
  plain url = true -> exists s, extract_domain T url b = Ok s.
Proof.
  intros Hp.
  destruct (extract_domain_returns_or_ValueError url b) as [H | H];
    [assumption | exfalso].
  unfold extract_domain in H.
  destruct (negb (truthy url)); [discriminate |].
  destruct (urlparse_plain _ (prepared_url_plain url Hp)) as [parsed Hq].
  rewrite Hq in H. cbn [bind] in H. cbv zeta in H.
  destruct b; [discriminate |].
  destruct (_ <=? 2)%nat; [discriminate |].
  destruct (_ && _); discriminate.
Qed.

End PlainUrls.

(** C4 (amended): [extract_domain] works on the text with [http://] put
    in front when it is not empty and starts with none of [http://],
    [https://], [//], whether it has another scheme or not; the parsing
    of the resulting text succeeds for every plain ASCII text (no square
    bracket).  For every text on which the parsing succeeds, the host
    being the [netloc] or, when that is empty, the first segment of the
    path: with [include_subdomain] the host is returned unchanged;
    without it, a host of at most two dot-separated labels is returned
    as it is, a host [... a.b.c] of at least three labels gives [a.b.c]
    when the second-to-last label [b] is one of co, com, ac, gov, org,
    net and [b.c] otherwise.  The four examples of the specification
    hold. *)
Theorem extract_domain_rules (T : Urllib.Tables) :
  (forall url b,
      truthy url = true ->
      startswith http_prefix url = false ->
      startswith https_prefix url = false ->
      startswith slashes_prefix url = false ->
      extract_domain T url b = extract_domain T (http_prefix ++ url) b)
  /\ (forall url,
         plain url = true ->
         exists parsed, Urllib.urlparse T (prepared_url url) = Ok parsed)
  /\ (forall url parsed,
         truthy url = true ->
         Urllib.urlparse T (prepared_url url) = Ok parsed ->
         let host := netloc_of parsed in
         extract_domain T url true = Ok host
         /\ (length (split DOT host) <= 2 ->
             extract_domain T url false = Ok host)
         /\ (forall front a b c,
                split DOT host = front ++ [a; b; c] ->
                extract_domain T url false =
                Ok (if str_in b second_level_labels
                    then a ++ [DOT] ++ b ++ [DOT] ++ c
                    else b ++ [DOT] ++ c)))
  /\ extract_domain T (lit "https://www.example.com/path?q=1") false
     = Ok (lit "example.com")
  /\ extract_domain T (lit "https://www.example.com/path?q=1") true
     = Ok (lit "www.example.com")
  /\ extract_domain T (lit "https://subdomain.example.co.uk/page") false
     = Ok (lit "example.co.uk")
  /\ extract_domain T (lit "api.github.com") false = Ok (lit "github.com").
Proof.
  split; [intros; now apply extract_domain_prepends |].
  split.
  { intros url Hp. apply urlparse_plain. now apply prepared_url_plain. }
  split.
  - intros url parsed Ht Hp host. subst host. split; [| split].
    + eapply extract_domain_with_subdomain; eassumption.
    + intros Hl. eapply extract_domain_short; eassumption.
    + intros front a b c Hs. eapply extract_domain_long; eassumption.
  - repeat split; reflexivity.
Qed.

Lemma extract_domain_rules_witness :
  let url := lit "shop.example.co.uk/cart" in
  truthy url = true
  /\ (exists parsed,
         Urllib.urlparse Urllib.ascii_tables (prepared_url url) = Ok parsed
         /\ split DOT (netloc_of parsed)
            = [lit "shop"] ++ [lit "example"; lit "co"; lit "uk"])
  /\ extract_domain Urllib.ascii_tables url false = Ok (lit "example.co.uk").
Proof.
  intros url.
  destruct (extract_domain_rules Urllib.ascii_tables) as (_ & Hplain & H & _).
  destruct (Hplain url eq_refl) as [parsed Hp].
  assert (Hs : split DOT (netloc_of parsed)
               = [lit "shop"] ++ [lit "example"; lit "co"; lit "uk"]).
  { vm_compute in Hp. injection Hp as <-. reflexivity. }
  split; [reflexivity |]. split; [now exists parsed |].
  destruct (H url parsed eq_refl Hp) as (_ & _ & H3).
  exact (H3 _ _ _ _ Hs).
Defined.

(** The claim as it was does not hold for every URL string.  On the text
    [[::1], which has no scheme, the parsing fails with [ValueError].  A
    URL with a scheme other than http and https gets [http://] in front
    as well, and what is returned is not its host.  A text that starts
    with [//] has no scheme and gets no prefix. *)
Lemma extract_domain_rules_counterexample :
  extract_domain Urllib.ascii_tables (lit "[::1") false = Raise ValueError
  /\ extract_domain Urllib.ascii_tables (lit "[::1") true = Raise ValueError
  /\ extract_domain Urllib.ascii_tables (lit "ftp://example.com/x") true
     = Ok (lit "ftp:")
  /\ prepared_url (lit "//cdn.example.com/a.png")
     = lit "//cdn.example.com/a.png".
Proof. repeat split. Qed.

(** C10 (amended): [extract_domain] returns a string for every plain
    ASCII text (no square bracket), valid URL or not; on any text it
    either returns a string or raises [ValueError], the exception of
    [urlparse]; the empty string maps to the empty string. *)
Theorem extract_domain_total_on_plain (T : Urllib.Tables) :
  (forall url b, plain url = true -> exists s, extract_domain T url b = Ok s)
  /\ (forall url b,
         (exists s, extract_domain T url b = Ok s)
         \/ extract_domain T url b = Raise ValueError)
  /\ (forall b, extract_domain T [] b = Ok []).
Proof.
  split; [intros; now apply extract_domain_plain |].
  split; [intros; apply extract_domain_returns_or_ValueError |].
  reflexivity.
Qed.

Lemma extract_domain_total_on_plain_witness :
  plain (lit "not a url at all") = true
  /\ exists s,
       extract_domain Urllib.ascii_tables (lit "not a url at all") false
       = Ok s.
Proof.
  split; [reflexivity |].
  exact (proj1 (extract_domain_total_on_plain Urllib.ascii_tables)
               (lit "not a url at all") false eq_refl).
Defined.

(** The text ["["] makes [urlparse] raise [ValueError]. *)
Lemma extract_domain_total_counterexample :
  extract_domain Urllib.ascii_tables (lit "[") false = Raise ValueError
  /\ extract_domain Urllib.ascii_tables (lit "[") true = Raise ValueError.
Proof. split; reflexivity. Qed.

(** ** The retry loop *)

Module RetryFacts.

Import ImprovedHTTPRequester.

Lemma request_with_retry_unfold net self method url timeout max_retries
      retry_delay current_attempt frames w :
  request_with_retry net self method url timeout max_retries retry_delay
                     current_attempt frames w
  = match attempt net method url timeout w with
    | (Ok response, w1) => (Ok response, w1)
    | (Raise e, w1) =>
        if is_RequestException e then
          if (current_attempt <? max_retries)%Z then
            match time_sleep retry_delay w1 with
            | (Raise e', w2) => (Raise e', w2)
            | (Ok _, w2) =>
                match frames with
                | O => (Raise RecursionError, rotate_if_enabled net self w2)
                | S frames' =>
                    request_with_retry net self method url timeout
                                       max_retries retry_delay
                                       (current_attempt + 1) frames'
                                       (rotate_if_enabled net self w2)
                end
            end
          else (Raise e, w1)
        else (Raise e, w1)
    end.
Proof.
  rewrite request_with_retry_equation_1.
  destruct (attempt net method url timeout w) as [[r | e] w1]; simpl.
  - reflexivity.
  - destruct (is_RequestException e); simpl; [| reflexivity].
    destruct (Z_lt_dec current_attempt max_retries) as [Hlt | Hge]; simpl.
    + rewrite (proj2 (Z.ltb_lt _ _) Hlt).
      destruct (time_sleep retry_delay w1) as [[[] | e'] w2];
        [| reflexivity].
      destruct frames; reflexivity.
    + rewrite (proj2 (Z.ltb_nlt _ _) Hge). reflexivity.
Qed.

Lemma rotate_if_enabled_issued net self w :
  issued (rotate_if_enabled net self w) = issued w
  /\ trace (rotate_if_enabled net self w) = trace w.
Proof.
  unfold rotate_if_enabled, update_user_agent.
  destruct (rotate_user_agent self); now split.
Qed.

Lemma attempt_world net method url timeout w :
  issued (snd (attempt net method url timeout w)) = S (issued w)
  /\ exists ev, trace (snd (attempt net method url timeout w)) = trace w ++ [ev]
                /\ shape_of ev = SRequest.
Proof.
  unfold attempt, session_request.
  destruct (transport net (issued w)); simpl; (split; [reflexivity |]);
    eexists; split; reflexivity.
Qed.

Lemma attempt_failure net method url timeout w e :
  failure (transport net (issued w)) = Some e ->
  fst (attempt net method url timeout w) = Raise e
  /\ is_RequestException e = true.
Proof.
  unfold attempt, session_request, failure, raise_for_status.
  destruct (transport net (issued w)) as [r | e0]; simpl.
  - destruct (_ && _)%bool; [| discriminate].
    intros [= <-]. now split.
  - destruct (is_RequestException e0) eqn:He; [| discriminate].
    intros [= <-]. now split.
Qed.

Lemma attempt_success net method url timeout w r :
  success (transport net (issued w)) = Some r ->
  fst (attempt net method url timeout w) = Ok r.
Proof.
  unfold attempt, session_request, success, raise_for_status.
  destruct (transport net (issued w)) as [r0 | e0]; simpl; [| discriminate].
  destruct (_ && _)%bool; [discriminate |]. now intros [= <-].
Qed.

(** [time.sleep]: what it leaves behind. *)
Lemma time_sleep_ok d w :
  sleepable d ->
  exists w2, time_sleep d w = (Ok tt, w2)
             /\ issued w2 = issued w /\ trace w2 = trace w ++ [EvSleep d].
Proof.
  intros [Hd Ho]. unfold time_sleep.
  rewrite Ho, (proj2 (Qle_bool_iff 0 d) Hd). eexists. repeat split.
Qed.

Lemma time_sleep_returns d w u w2 :
  time_sleep d w = (Ok u, w2) ->
  issued w2 = issued w
  /\ session_user_agent w2 = session_user_agent w
  /\ trace w2 = trace w ++ [EvSleep d].
Proof.
  unfold time_sleep. destruct (sleep_overflows d); [discriminate |].
  destruct (Qle_bool 0 d); [| discriminate].
  intros [= _ <-]. now repeat split.
Qed.

Lemma time_sleep_raises d w e w2 :
  time_sleep d w = (Raise e, w2) -> w2 = w.
Proof.
  unfold time_sleep. destruct (sleep_overflows d); [now intros [= _ <-] |].
  destruct (Qle_bool 0 d); [discriminate | now intros [= _ <-]].
Qed.

Lemma sleepable_one : sleepable 1.
Proof. split; [unfold Qle; simpl; lia | reflexivity]. Qed.

Lemma sleepable_two : sleepable 2.
Proof. split; [unfold Qle; simpl; lia | reflexivity]. Qed.

Lemma ran_one w w1 ev d :
  issued w1 = S (issued w) -> trace w1 = trace w ++ [ev] ->
  shape_of ev = SRequest -> ran w w1 0 d.
Proof.
  intros Hi Ht Hs. split; [lia |].
  exists [ev]. split; [assumption |]. simpl. now rewrite Hs.
Qed.

Lemma ran_step w w3 w' ev n d :
  issued w3 = S (issued w) ->
  trace w3 = (trace w ++ [ev]) ++ [EvSleep d] ->
  shape_of ev = SRequest ->
  ran w3 w' n d -> ran w w' (S n) d.
Proof.
  intros Hi Ht Hs [Hi' (evs & Ht' & Hm)]. split; [lia |].
  exists (ev :: EvSleep d :: evs). split.
  - rewrite Ht', Ht, <- !app_assoc. reflexivity.
  - simpl. now rewrite Hs, Hm.
Qed.

Lemma ran_out_of_stack_one w w3 ev d :
  issued w3 = S (issued w) ->
  trace w3 = (trace w ++ [ev]) ++ [EvSleep d] ->
  shape_of ev = SRequest ->
  ran_out_of_stack w w3 0 d.
Proof.
  intros Hi Ht Hs. split; [lia |].
  exists [ev; EvSleep d]. split.
  - rewrite Ht, <- app_assoc. reflexivity.
  - simpl. now rewrite Hs.
Qed.

Lemma ran_out_of_stack_step w w3 w' ev n d :
  issued w3 = S (issued w) ->
  trace w3 = (trace w ++ [ev]) ++ [EvSleep d] ->
  shape_of ev = SRequest ->
  ran_out_of_stack w3 w' n d -> ran_out_of_stack w w' (S n) d.
Proof.
  intros Hi Ht Hs [Hi' (evs & Ht' & Hm)]. split; [lia |].
  exists (ev :: EvSleep d :: evs). split.
  - rewrite Ht', Ht, <- !app_assoc. reflexivity.
  - simpl. now rewrite Hs, Hm.
Qed.

Section Retry.

Variables (net : Net) (self : t) (method url : str) (timeout : Q).
Variables (max_retries : Z) (retry_delay : Q).
Hypothesis delay_ok : sleepable retry_delay.




End Retry.



(** The requester of exercise 1 is the one of exercise 3 without the
    rotation. *)
Lemma basic_unfold net method url timeout max_retries retry_delay
      current_attempt frames w :
  HTTPRequester.request_with_retry net method url timeout max_retries
                                   retry_delay current_attempt frames w
  = match attempt net method url timeout w with
    | (Ok response, w1) => (Ok response, w1)
    | (Raise e, w1) =>
        if is_RequestException e then
          if (current_attempt <? max_retries)%Z then
            match time_sleep retry_delay w1 with
            | (Raise e', w2) => (Raise e', w2)
            | (Ok _, w2) =>
                match frames with
                | O => (Raise RecursionError, w2)
                | S frames' =>
                    HTTPRequester.request_with_retry
                      net method url timeout max_retries retry_delay
                      (current_attempt + 1) frames' w2
                end
            end
          else (Raise e, w1)
        else (Raise e, w1)
    end.
Proof.
  rewrite HTTPRequester.request_with_retry_equation_1.
  destruct (attempt net method url timeout w) as [[r | e] w1]; simpl.
  - reflexivity.
  - destruct (is_RequestException e); simpl; [| reflexivity].
    destruct (Z_lt_dec current_attempt max_retries) as [Hlt | Hge]; simpl.
    + rewrite (proj2 (Z.ltb_lt _ _) Hlt).
      destruct (time_sleep retry_delay w1) as [[[] | e'] w2];
        [| reflexivity].
      destruct frames; reflexivity.
    + rewrite (proj2 (Z.ltb_nlt _ _) Hge). reflexivity.
Qed.

Lemma basic_as_improved net agents method url timeout max_retries
      retry_delay (n : nat) :
  forall current_attempt frames w,
    Z.to_nat (max_retries - current_attempt) = n ->
    HTTPRequester.request_with_retry net method url timeout max_retries
                                     retry_delay current_attempt frames w
    = request_with_retry net {| user_agents := agents;
                                rotate_user_agent := false |}
                         method url timeout max_retries retry_delay
                         current_attempt frames w.
Proof.
  induction n as [| n IH]; intros cur frames w Hn;
    rewrite basic_unfold, request_with_retry_unfold;
    destruct (attempt net method url timeout w) as [[r | e] w1];
    try reflexivity;
    destruct (is_RequestException e); try reflexivity;
    destruct (cur <? max_retries)%Z eqn:Hlt; try reflexivity.
  - apply Z.ltb_lt in Hlt. lia.
  - destruct (time_sleep retry_delay w1) as [[[] | e'] w2]; [| reflexivity].
    destruct frames as [| frames]; [reflexivity |].
    apply Z.ltb_lt in Hlt. apply IH. lia.
Qed.


(** ** With [max_retries <= 0] *)

Lemma single_attempt net self method url timeout max_retries retry_delay
      frames w :
  (max_retries <= 0)%Z ->
  request_with_retry net self method url timeout max_retries retry_delay 0
                     frames w
  = attempt net method url timeout w.
Proof.
  intros Hm. rewrite request_with_retry_unfold.
  destruct (attempt net method url timeout w) as [[r | e] w1];
    [reflexivity |].
  replace (0 <? max_retries)%Z with false by (symmetry; apply Z.ltb_ge; lia).
  now destruct (is_RequestException e).
Qed.

Lemma attempt_raises net method url timeout w e :
  transport net (issued w) = Fail e ->
  fst (attempt net method url timeout w) = Raise e.
Proof.
  intros H. unfold attempt, session_request. now rewrite H.
Qed.

End RetryFacts.




(** C9: for every [max_retries <= 0], negative values included,
    [_request_with_retry] issues exactly one HTTP request and does not
    sleep; when that attempt fails, its error is raised at once. *)
Theorem nonpositive_max_retries_one_attempt
        (net : Net) (method url : str) (timeout : Q)
        (max_retries : Z) (retry_delay : Q) (frames : nat) (w : World) :
  (max_retries <= 0)%Z ->
  one_attempt_only net w
    (HTTPRequester.request_with_retry net method url timeout max_retries
                                      retry_delay 0 frames w)
  /\ forall self,
      one_attempt_only net w
        (ImprovedHTTPRequester.request_with_retry
           net self method url timeout max_retries retry_delay 0 frames w).
Proof.
  intros Hm.
  assert (H : forall self,
             one_attempt_only net w
               (ImprovedHTTPRequester.request_with_retry
                  net self method url timeout max_retries retry_delay 0
                  frames w)).
  { intros self. rewrite RetryFacts.single_attempt by assumption.
    pose proof (@RetryFacts.attempt_raises net method url timeout w) as Hr.
    pose proof (@RetryFacts.attempt_failure net method url timeout w) as Hf.
    pose proof (@RetryFacts.attempt_success net method url timeout w) as Hs.
    destruct (RetryFacts.attempt_world net method url timeout w)
      as [Hi (ev & Ht & Hsh)].
    destruct (attempt net method url timeout w) as [res w1].
    simpl in *. exists res, w1. split; [reflexivity |].
    split; [now apply RetryFacts.ran_one with (ev := ev) |].
    split; [assumption |]. split; [| assumption].
    intros e He. now apply Hf. }
  split; [| exact H].
  rewrite (@RetryFacts.basic_as_improved net [] method url timeout
             max_retries retry_delay _ 0%Z frames w eq_refl).
  apply H.
Qed.

Lemma nonpositive_max_retries_one_attempt_witness :
  (-2 <= 0)%Z
  /\ one_attempt_only (flaky_net 5) fresh_world
       (HTTPRequester.request_with_retry (flaky_net 5) GET
          (lit "https://httpbin.org/get") 10 (-2) 1 0 900 fresh_world).
Proof.
  split; [lia |].
  exact (proj1 (@nonpositive_max_retries_one_attempt
                  (flaky_net 5) GET (lit "https://httpbin.org/get") 10
                  (-2)%Z 1%Q 900 fresh_world ltac:(lia))).
Defined.

(** ** [parse_page] *)

(** C7: for every page, [main_text] of the summary that [parse_page]
    returns is the cleaned page text when it has at most 1000
    characters, and otherwise its first 1000 characters followed by
    ["..."]. *)
Theorem parse_page_main_text (lib : Lib) (net : Net)
        (self : ImprovedHTTPRequester.t) (url : str) (timeout : option Q)
        (max_retries : Z) (w w' : World)
        (page : ImprovedHTTPRequester.PageSummary) :
  ImprovedHTTPRequester.parse_page lib net self url timeout max_retries w
  = (Ok page, w') ->
  exists soup,
    ImprovedHTTPRequester.get_soup lib net self url timeout max_retries 1 w
    = (Ok soup, w')
    /\ (length (cleaned_text soup) <= 1000 ->
        ImprovedHTTPRequester.main_text page = cleaned_text soup)
    /\ (1000 < length (cleaned_text soup) ->
        ImprovedHTTPRequester.main_text page
        = firstn 1000 (cleaned_text soup) ++ lit "..."
        /\ length (ImprovedHTTPRequester.main_text page) = 1003).
Proof.
  unfold ImprovedHTTPRequester.parse_page. intros H.
  destruct (ImprovedHTTPRequester.get_soup _ _ _ _ _ _ _ _)
    as [[soup | e] w1]; cbn [bind] in H; [| discriminate].
  destruct (Urllib.urlparse _ _) as [parsed | e]; cbn [bind] in H;
    [| discriminate].
  destruct (ImprovedHTTPRequester.collect_image_links _ _ _) as [il | e];
    cbn [bind] in H; [| discriminate].
  destruct (ImprovedHTTPRequester.collect_external_links _ _ _ _)
    as [el | e]; cbn [bind] in H; [| discriminate].
  pose proof (f_equal snd H) as Hw. cbn [snd] in Hw. subst w1.
  pose proof (f_equal (fun r => match fst r with
                                | Ok p => ImprovedHTTPRequester.main_text p
                                | Raise _ => []
                                end) H) as Hm.
  cbn [fst ImprovedHTTPRequester.main_text] in Hm.
  fold (cleaned_text soup) in Hm.
  exists soup. split; [reflexivity |].
  rewrite <- Hm. clear Hm H. split.
  - intros Hle. apply Nat.ltb_ge in Hle. now rewrite Hle.
  - intros Hlt. pose proof Hlt as Hb. apply Nat.ltb_lt in Hb. rewrite Hb.
    split; [reflexivity |].
    rewrite length_app, length_firstn.
    change (length ImprovedHTTPRequester.ellipsis) with 3. lia.
Qed.

Lemma parse_page_main_text_witness :
  exists page w',
    ImprovedHTTPRequester.parse_page (demo_lib long_page) (flaky_net 0)
      demo_requester (lit "https://www.esiee.fr/") None 3 demo_world
    = (Ok page, w')
    /\ length (ImprovedHTTPRequester.main_text page) = 1003.
Proof.
  destruct (ImprovedHTTPRequester.parse_page (demo_lib long_page)
              (flaky_net 0) demo_requester (lit "https://www.esiee.fr/")
              None 3 demo_world) as [[page | e] w'] eqn:E.
  2:{ vm_compute in E. discriminate E. }
  exists page, w'. split; [reflexivity |].
  destruct (parse_page_main_text _ _ _ _ _ _ _ E) as (soup & Hs & _ & H).
  assert (Hsoup : soup = long_page).
  { vm_compute in Hs. injection Hs as <- _. reflexivity. }
  subst soup. apply H. vm_compute. lia.
Defined.

(** ** [scrape_article] *)

Module ScraperFacts.

Import RSSNewsScraper.

Lemma try_selectors_first_match (soup : list Bs4.node) (front : list Bs4.selector) :
  forall sel back body,
    Forall (no_match soup) front ->
    Bs4.select_one sel soup = Some body ->
    try_selectors (front ++ sel :: back) soup = (Some body, front ++ [sel]).
Proof.
  induction front as [| s front IH]; intros sel back body Hn Hm; simpl.
  - now rewrite Hm.
  - inversion Hn as [| ? ? Hs Hf]; subst. unfold no_match in Hs.
    rewrite Hs, (IH sel back body Hf Hm). reflexivity.
Qed.

Lemma try_selectors_none (soup : list Bs4.node) (sels : list Bs4.selector) :
  Forall (no_match soup) sels -> try_selectors sels soup = (None, sels).
Proof.
  induction 1 as [| s sels Hs _ IH]; simpl; [reflexivity |].
  unfold no_match in Hs. now rewrite Hs, IH.
Qed.

Lemma remove_extra_spaces_no_blank_line (s : str) :
  no_double NL (remove_extra_spaces s) = true.
Proof.
  destruct (remove_extra_spaces_lines s) as (L & HL & ->).
  apply join_no_double_sep.
  eapply Forall_impl; [| exact HL]. now intros l (H1 & H2 & _).
Qed.

Section Scrape.

Variables (lib : Lib) (net : Net) (requester : ImprovedHTTPRequester.t).
Variable article_url : str.

(** What a successful run of the [try] block went through. *)
Lemma scrape_article_try_inv (w w' : World) (a : Article) :
  scrape_article_try lib net requester article_url w = (Ok a, w') ->
  exists page_data w1 fetched,
    ImprovedHTTPRequester.parse_page lib net requester article_url
                                     (Some 15%Q) 3 w
    = (Ok page_data, w1)
    /\ ImprovedHTTPRequester.get_soup lib net requester article_url
                                      (Some 15%Q) 3 1 w1
       = (Ok fetched, w')
    /\ a_main_text a
       = remove_extra_spaces
           match fst (try_selectors selectors
                        (Bs4.decompose_all unwanted_tags fetched)) with
           | Some body => paragraphs_text body
           | None => ImprovedHTTPRequester.main_text page_data
           end
    /\ harvest_images (tables lib) article_url
         (Bs4.find_all [ImprovedHTTPRequester.s_img]
                       (Bs4.decompose_all unwanted_tags fetched))
       = Ok (images a)
    /\ image_count a = length (images a).
Proof.
  unfold scrape_article_try. intros H.
  destruct (ImprovedHTTPRequester.parse_page _ _ _ _ _ _ _)
    as [[page_data | e] w1] eqn:Hp; [| discriminate].
  destruct (ImprovedHTTPRequester.get_soup _ _ _ _ _ _ _ _)
    as [[fetched | e] w2] eqn:Hs; cbn [bind] in H; [| discriminate].
  destruct (harvest_images _ _ _) as [imgs | e] eqn:Himgs; cbn [bind] in H;
    [| discriminate].
  injection H as <- <-.
  exists page_data, w1, fetched.
  split; [reflexivity |]. split; [exact Hs |]. split; [reflexivity |].
  split; [exact Himgs | reflexivity].
Qed.

Lemma scrape_article_inv (w w' : World) (a : Article) :
  scrape_article lib net requester article_url w = (Ok (ArticleDict a), w') ->
  scrape_article_try lib net requester article_url w = (Ok a, w').
Proof.
  unfold scrape_article.
  destruct (scrape_article_try _ _ _ _ _) as [[a0 | e] w0].
  - now intros [= <- <-].
  - destruct (is_Exception e); discriminate.
Qed.

Lemma scrape_article_catches (w w1 : World) (e : exn) :
  scrape_article_try lib net requester article_url w = (Raise e, w1) ->
  scrape_article lib net requester article_url w = (Ok EmptyDict, w1).
Proof.
  unfold scrape_article. intros ->. now destruct e.
Qed.

Lemma scrape_article_returns (w : World) :
  exists d w', scrape_article lib net requester article_url w = (Ok d, w').
Proof.
  unfold scrape_article.
  destruct (scrape_article_try _ _ _ _ _) as [[a | e] w'].
  - now exists (ArticleDict a), w'.
  - exists EmptyDict, w'. now destruct e.
Qed.

Lemma try_parse_page_fails (w w1 : World) (e : exn) :
  ImprovedHTTPRequester.parse_page lib net requester article_url
                                   (Some 15%Q) 3 w = (Raise e, w1) ->
  scrape_article_try lib net requester article_url w = (Raise e, w1).
Proof. unfold scrape_article_try. now intros ->. Qed.

Lemma try_get_soup_fails (w w1 w2 : World) (e : exn)
      (page_data : ImprovedHTTPRequester.PageSummary) :
  ImprovedHTTPRequester.parse_page lib net requester article_url
                                   (Some 15%Q) 3 w = (Ok page_data, w1) ->
  ImprovedHTTPRequester.get_soup lib net requester article_url
                                 (Some 15%Q) 3 1 w1 = (Raise e, w2) ->
  scrape_article_try lib net requester article_url w = (Raise e, w2).
Proof. unfold scrape_article_try. now intros -> ->. Qed.

End Scrape.

End ScraperFacts.

(** ** Image sources *)

Lemma startswith_slashes_slash (s : str) :
  startswith [Urllib.SLASH] s = false -> startswith slashes_prefix s = false.
Proof.
  destruct s as [| x s]; [reflexivity |].
  unfold slashes_prefix, Urllib.SLASH. cbn [startswith].
  destruct (47 =? x)%N; [discriminate | reflexivity].
Qed.

Lemma harvest_images_http (T : Urllib.Tables) (article_url : str)
      (imgs : list Bs4.node) :
  forall stored,
    RSSNewsScraper.harvest_images T article_url imgs = Ok stored ->
    Forall (fun im => startswith RSSNewsScraper.s_http (RSSNewsScraper.src im)
                      = true) stored.
Proof.
  induction imgs as [| img rest IH]; intros stored H;
    cbn [RSSNewsScraper.harvest_images] in H.
  - injection H as <-. constructor.
  - destruct (RSSNewsScraper.image_source img) as [s |]; [| now apply IH].
    destruct (truthy s); [| now apply IH].
    destruct (startswith slashes_prefix s).
    { destruct (RSSNewsScraper.harvest_images T article_url rest)
        as [images | e]; [| discriminate].
      cbn [bind] in H. injection H as <-.
      constructor; [reflexivity | now apply IH]. }
    destruct (startswith [Urllib.SLASH] s).
    { destruct (extract_domain T article_url false) as [d | e];
        [| discriminate].
      cbn [bind] in H.
      destruct (RSSNewsScraper.harvest_images T article_url rest)
        as [images | e]; [| discriminate].
      cbn [bind] in H. injection H as <-.
      constructor; [reflexivity | now apply IH]. }
    destruct (startswith RSSNewsScraper.s_http s) eqn:Hh; cbn [negb] in H;
      [| now apply IH].
    destruct (RSSNewsScraper.harvest_images T article_url rest)
      as [images | e]; [| discriminate].
    cbn [bind] in H. injection H as <-.
    constructor; [exact Hh | now apply IH].
Qed.

(** X24: in the image loop of [scrape_article] the source of an image is
    its [src] attribute or, when that is missing or empty, its
    [data-src] attribute.  A source that starts with ["//"] is stored
    with ["https:"] in front; one that starts with ["/"] is stored with
    ["https://"] and [extract_domain(article_url)] in front; any other
    source is stored as it is when it starts with ["http"] and is left
    out otherwise.  So every stored source starts with ["http"]. *)
Theorem harvest_images_rules (T : Urllib.Tables) (article_url : str) :
  (forall imgs stored,
      RSSNewsScraper.harvest_images T article_url imgs = Ok stored ->
      Forall (fun im => startswith (lit "http") (RSSNewsScraper.src im) = true)
             stored)
  /\ (forall img rest s,
         (Bs4.get (lit "src") img = Some s
          \/ ((Bs4.get (lit "src") img = None
               \/ Bs4.get (lit "src") img = Some [])
              /\ Bs4.get (lit "data-src") img = Some s)) ->
         truthy s = true ->
         let alt := match Bs4.get (lit "alt") img with
                    | Some a => a
                    | None => []
                    end in
         let others := RSSNewsScraper.harvest_images T article_url rest in
         (startswith (lit "//") s = true ->
          RSSNewsScraper.harvest_images T article_url (img :: rest)
          = (images <- others ;;
             Ok ({| RSSNewsScraper.src := lit "https:" ++ s;
                    RSSNewsScraper.alt := alt |} :: images)))
         /\ (startswith (lit "//") s = false ->
             startswith (lit "/") s = true ->
             RSSNewsScraper.harvest_images T article_url (img :: rest)
             = (domain <- extract_domain T article_url false ;;
                images <- others ;;
                Ok ({| RSSNewsScraper.src := lit "https://" ++ domain ++ s;
                       RSSNewsScraper.alt := alt |} :: images)))
         /\ (startswith (lit "/") s = false ->
             startswith (lit "http") s = false ->
             RSSNewsScraper.harvest_images T article_url (img :: rest)
             = others)
         /\ (startswith (lit "/") s = false ->
             startswith (lit "http") s = true ->
             RSSNewsScraper.harvest_images T article_url (img :: rest)
             = (images <- others ;;
                Ok ({| RSSNewsScraper.src := s;
                       RSSNewsScraper.alt := alt |} :: images))))
  /\ (forall img rest,
         (Bs4.get (lit "src") img = None \/ Bs4.get (lit "src") img = Some [])
         -> (Bs4.get (lit "data-src") img = None
             \/ Bs4.get (lit "data-src") img = Some [])
         -> RSSNewsScraper.harvest_images T article_url (img :: rest)
            = RSSNewsScraper.harvest_images T article_url rest).
Proof.
  split; [exact (harvest_images_http T article_url) |].
  change (lit "//") with slashes_prefix.
  change (lit "/") with [Urllib.SLASH].
  change (lit "http") with RSSNewsScraper.s_http.
  change (lit "alt") with RSSNewsScraper.s_alt.
  change (lit "src") with ImprovedHTTPRequester.s_src.
  change (lit "data-src") with RSSNewsScraper.s_data_src.
  split.
  - intros img rest s Hsrc Ht alt others. subst alt others.
    assert (Hs : RSSNewsScraper.image_source img = Some s).
    { unfold RSSNewsScraper.image_source.
      destruct Hsrc as [-> | [[-> | ->] ->]]; [now rewrite Ht | | ];
        reflexivity. }
    repeat split.
    + intros H1. cbn [RSSNewsScraper.harvest_images]. now rewrite Hs, Ht, H1.
    + intros H1 H2. cbn [RSSNewsScraper.harvest_images].
      now rewrite Hs, Ht, H1, H2.
    + intros H2 H3. cbn [RSSNewsScraper.harvest_images].
      now rewrite Hs, Ht, (startswith_slashes_slash s H2), H2, H3.
    + intros H2 H3. cbn [RSSNewsScraper.harvest_images].
      now rewrite Hs, Ht, (startswith_slashes_slash s H2), H2, H3.
  - intros img rest Hsrc Hdata. cbn [RSSNewsScraper.harvest_images].
    unfold RSSNewsScraper.image_source.
    destruct Hsrc as [-> | ->], Hdata as [-> | ->]; reflexivity.
Qed.

Lemma harvest_images_rules_witness :
  RSSNewsScraper.harvest_images Urllib.ascii_tables
    (lit "https://www.lemonde.fr/economie/article.html")
    [Bs4.Tag (lit "img") [(lit "src", []);
                          (lit "data-src", lit "/static/logo.png")] [];
     img_tag "https://img.lemde.fr/a.jpg"]
  = Ok [{| RSSNewsScraper.src := lit "https://lemonde.fr/static/logo.png";
           RSSNewsScraper.alt := [] |};
        {| RSSNewsScraper.src := lit "https://img.lemde.fr/a.jpg";
           RSSNewsScraper.alt := [] |}].
Proof.
  destruct (harvest_images_rules Urllib.ascii_tables
              (lit "https://www.lemonde.fr/economie/article.html"))
    as (_ & H & _).
  destruct (H (Bs4.Tag (lit "img") [(lit "src", []);
                                    (lit "data-src", lit "/static/logo.png")]
                       [])
              [img_tag "https://img.lemde.fr/a.jpg"]
              (lit "/static/logo.png")
              (or_intror (conj (or_intror eq_refl) eq_refl)) eq_refl)
    as (_ & H2 & _).
  rewrite (H2 eq_refl eq_refl). reflexivity.
Defined.

(** C3: the relative source [http.png] is stored although it is not an
    absolute URL; and on an http page of host [www.site.com] the
    root-relative source gets [https://site.com], neither the scheme nor
    the host of the page. *)
Lemma image_sources_counterexample :
  RSSNewsScraper.harvest_images Urllib.ascii_tables
    (lit "http://www.site.com/news") [img_tag "/img.png"]
  = Ok [{| RSSNewsScraper.src := lit "https://site.com/img.png";
           RSSNewsScraper.alt := [] |}]
  /\ RSSNewsScraper.harvest_images Urllib.ascii_tables
       (lit "http://www.site.com/news") [img_tag "http.png"]
     = Ok [{| RSSNewsScraper.src := lit "http.png";
              RSSNewsScraper.alt := [] |}]
  /\ is_absolute_url (lit "http.png") = false.
Proof. repeat split. Qed.

(** ** The article body *)

(** C2 (amended): for every fetched document, [scrape_article] tries the
    selectors article, [class*="article-content"],
    [class*="article-body"], [class*="post-content"],
    [id*="article-content"], main in this order, takes the first one that
    matches an element and tries no later one.  When a body is found, the
    stored text is [remove_extra_spaces] of the non-empty texts of its
    paragraphs joined by a blank line; when no selector matches, it is
    [remove_extra_spaces] of the [main_text] of [parse_page].  Because of
    that last cleaning the stored text never holds a blank line:
    consecutive paragraphs end up separated by one newline. *)
Theorem scrape_article_body_text (lib : Lib) (net : Net)
        (requester : ImprovedHTTPRequester.t) (article_url : str)
        (w w' : World) (a : RSSNewsScraper.Article) :
  RSSNewsScraper.scrape_article lib net requester article_url w
  = (Ok (RSSNewsScraper.ArticleDict a), w') ->
  exists page_data w1 fetched,
    ImprovedHTTPRequester.parse_page lib net requester article_url
                                     (Some 15%Q) 3 w
    = (Ok page_data, w1)
    /\ ImprovedHTTPRequester.get_soup lib net requester article_url
                                      (Some 15%Q) 3 1 w1
       = (Ok fetched, w')
    /\ let soup := Bs4.decompose_all RSSNewsScraper.unwanted_tags fetched in
       (forall front sel back body,
           RSSNewsScraper.selectors = front ++ sel :: back ->
           Forall (no_match soup) front ->
           Bs4.select_one sel soup = Some body ->
           RSSNewsScraper.try_selectors RSSNewsScraper.selectors soup
           = (Some body, front ++ [sel])
           /\ RSSNewsScraper.a_main_text a
              = remove_extra_spaces (paragraphs_text body))
       /\ (Forall (no_match soup) RSSNewsScraper.selectors ->
           RSSNewsScraper.try_selectors RSSNewsScraper.selectors soup
           = (None, RSSNewsScraper.selectors)
           /\ RSSNewsScraper.a_main_text a
              = remove_extra_spaces
                  (ImprovedHTTPRequester.main_text page_data))
       /\ no_double NL (RSSNewsScraper.a_main_text a) = true.
Proof.
  intros H. apply ScraperFacts.scrape_article_inv in H.
  apply ScraperFacts.scrape_article_try_inv in H
    as (page_data & w1 & fetched & Hp & Hs & Ht & _).
  exists page_data, w1, fetched.
  split; [exact Hp |]. split; [exact Hs |].
  intros soup. subst soup. split; [| split].
  - intros front sel back body Hsel Hfront Hm.
    assert (Htry : RSSNewsScraper.try_selectors RSSNewsScraper.selectors
                     (Bs4.decompose_all RSSNewsScraper.unwanted_tags fetched)
                   = (Some body, front ++ [sel])).
    { rewrite Hsel. now apply ScraperFacts.try_selectors_first_match. }
    split; [exact Htry |]. rewrite Ht, Htry. reflexivity.
  - intros Hnone.
    pose proof (ScraperFacts.try_selectors_none Hnone) as Htry.
    split; [exact Htry |]. rewrite Ht, Htry. reflexivity.
  - rewrite Ht. apply ScraperFacts.remove_extra_spaces_no_blank_line.
Qed.

Lemma scrape_article_body_text_witness :
  exists a w',
    RSSNewsScraper.scrape_article (demo_lib two_paragraphs) (flaky_net 0)
      demo_requester (lit "https://www.lemonde.fr/a.html") demo_world
    = (Ok (RSSNewsScraper.ArticleDict a), w')
    /\ no_double NL (RSSNewsScraper.a_main_text a) = true.
Proof.
  destruct (RSSNewsScraper.scrape_article (demo_lib two_paragraphs)
              (flaky_net 0) demo_requester
              (lit "https://www.lemonde.fr/a.html") demo_world)
    as [[[| a] | e] w'] eqn:E;
    [vm_compute in E; discriminate E | | vm_compute in E; discriminate E].
  exists a, w'. split; [reflexivity |].
  destruct (scrape_article_body_text _ _ _ _ _ E)
    as (page_data & w1 & fetched & _ & _ & H).
  exact (proj2 (proj2 H)).
Defined.

(** An [<article>] with the paragraphs [First.] and [Second.]: the stored
    text has them on consecutive lines, not separated by a blank line. *)
Lemma scrape_article_body_text_counterexample :
  scraped_text
    (fst (RSSNewsScraper.scrape_article (demo_lib two_paragraphs)
            (flaky_net 0) demo_requester
            (lit "https://www.lemonde.fr/a.html") demo_world))
  = Some (lit "First." ++ [NL] ++ lit "Second.")
  /\ paragraphs_text (hd (Bs4.NavigableString []) two_paragraphs)
     = lit "First." ++ [NL; NL] ++ lit "Second.".
Proof. split; vm_compute; reflexivity. Qed.

(** C8: for every article URL, [scrape_article] returns a dictionary and
    never raises: when the [try] block fails, in particular when
    [parse_page] (fetch and parse) or the second fetch fails, the result
    is the empty dictionary. *)
Theorem scrape_article_never_raises (lib : Lib) (net : Net)
        (requester : ImprovedHTTPRequester.t) (article_url : str)
        (w : World) :
  (exists d w',
      RSSNewsScraper.scrape_article lib net requester article_url w
      = (Ok d, w'))
  /\ (forall e w1,
         RSSNewsScraper.scrape_article_try lib net requester article_url w
         = (Raise e, w1) ->
         RSSNewsScraper.scrape_article lib net requester article_url w
         = (Ok RSSNewsScraper.EmptyDict, w1))
  /\ (forall e w1,
         ImprovedHTTPRequester.parse_page lib net requester article_url
                                          (Some 15%Q) 3 w
         = (Raise e, w1) ->
         RSSNewsScraper.scrape_article lib net requester article_url w
         = (Ok RSSNewsScraper.EmptyDict, w1))
  /\ (forall page_data w1 e w2,
         ImprovedHTTPRequester.parse_page lib net requester article_url
                                          (Some 15%Q) 3 w
         = (Ok page_data, w1) ->
         ImprovedHTTPRequester.get_soup lib net requester article_url
                                        (Some 15%Q) 3 1 w1
         = (Raise e, w2) ->
         RSSNewsScraper.scrape_article lib net requester article_url w
         = (Ok RSSNewsScraper.EmptyDict, w2)).
Proof.
  split; [apply ScraperFacts.scrape_article_returns |].
  split; [intros e w1; apply ScraperFacts.scrape_article_catches |].
  split.
  - intros e w1 H. eapply ScraperFacts.scrape_article_catches.
    eapply ScraperFacts.try_parse_page_fails; exact H.
  - intros page_data w1 e w2 Hp Hs.
    eapply ScraperFacts.scrape_article_catches.
    eapply ScraperFacts.try_get_soup_fails; eassumption.
Qed.

Lemma scrape_article_never_raises_witness :
  exists w1,
    ImprovedHTTPRequester.parse_page (demo_lib two_paragraphs) (flaky_net 9)
      demo_requester (lit "https://www.lemonde.fr/a.html") (Some 15%Q) 3
      demo_world
    = (Raise Timeout, w1)
    /\ RSSNewsScraper.scrape_article (demo_lib two_paragraphs) (flaky_net 9)
         demo_requester (lit "https://www.lemonde.fr/a.html") demo_world
       = (Ok RSSNewsScraper.EmptyDict, w1).
Proof.
  destruct (ImprovedHTTPRequester.parse_page (demo_lib two_paragraphs)
              (flaky_net 9) demo_requester
              (lit "https://www.lemonde.fr/a.html") (Some 15%Q) 3 demo_world)
    as [[page | e] w1] eqn:E; [vm_compute in E; discriminate E |].
  assert (He : e = Timeout).
  { vm_compute in E. injection E as <- _. reflexivity. }
  subst e. exists w1. split; [reflexivity |].
  destruct (scrape_article_never_raises (demo_lib two_paragraphs)
              (flaky_net 9) demo_requester
              (lit "https://www.lemonde.fr/a.html") demo_world)
    as (_ & _ & H & _).
  exact (H Timeout w1 E).
Defined.

(** * Further properties of the code *)

(** ** The text cleaning keeps the visible characters *)

Lemma join_split (c : char) (s : str) : join [c] (split c s) = s.
Proof.
  induction s as [| x t IH]; [reflexivity |].
  simpl. eqb_cases x c.
  - destruct (split c t) as [| l ls] eqn:Et;
      [now apply split_not_nil in Et |].
    rewrite <- IH. reflexivity.
  - destruct (split c t) as [| l ls] eqn:Et;
      [now apply split_not_nil in Et |].
    rewrite <- IH. destruct ls; reflexivity.
Qed.

Lemma join_length_cons (sep a : str) (M : list str) :
  length (join sep (a :: M)) <= length a + length sep + length (join sep M).
Proof.
  destruct M as [| b M]; [simpl; lia |].
  rewrite join_cons2, !length_app. lia.
Qed.

Lemma join_length_cons2 (sep a b : str) (M : list str) :
  length (join sep (a :: b :: M))
  = length a + length sep + length (join sep (b :: M)).
Proof. rewrite join_cons2, !length_app. lia. Qed.

Lemma strip_length (l : str) : length (strip l) <= length l.
Proof.
  destruct (strip_infix l) as (p & q & H).
  rewrite H at 2. rewrite !length_app. lia.
Qed.

Lemma re_sub_plus_length (c : char) (s : str) (b : bool) :
  length (re_sub_plus c [c] b s) <= length s.
Proof.
  revert b. induction s as [| x t IH]; intros b; simpl; [lia |].
  destruct (x =? c)%N.
  - destruct b; simpl; [specialize (IH true) | specialize (IH true)]; lia.
  - simpl. specialize (IH false). lia.
Qed.

Lemma stripped_lines_length (c : char) (L : list str) :
  length (join [c] (List.filter truthy (List.map strip L)))
  <= length (join [c] L).
Proof.
  induction L as [| x r IH]; [simpl; lia |].
  pose proof (strip_length x) as Hx.
  cbn [List.map List.filter].
  destruct r as [| y r].
  - destruct (truthy (strip x)); simpl; lia.
  - rewrite join_length_cons2.
    destruct (truthy (strip x)).
    + pose proof (join_length_cons [c] (strip x)
                    (List.filter truthy (List.map strip (y :: r)))) as Hj.
      lia.
    + lia.
Qed.

(** X1: [remove_extra_spaces] never makes a text longer. *)
Theorem remove_extra_spaces_length (text : str) :
  length (remove_extra_spaces text) <= length text.
Proof.
  unfold remove_extra_spaces. destruct (truthy text); simpl; [| lia].
  set (t := re_sub_plus NL [NL] false (re_sub_plus SP [SP] false text)).
  assert (Ht : length t <= length text).
  { unfold t.
    pose proof (re_sub_plus_length NL (re_sub_plus SP [SP] false text) false).
    pose proof (re_sub_plus_length SP text false). lia. }
  pose proof (stripped_lines_length NL (split NL t)) as Hs.
  rewrite join_split in Hs. lia.
Qed.

Lemma visible_app (a b : str) : visible (a ++ b) = visible a ++ visible b.
Proof. apply filter_app. Qed.

Lemma visible_re_sub_plus (c : char) (s : str) (b : bool) :
  isspace c = true -> visible (re_sub_plus c [c] b s) = visible s.
Proof.
  intros Hc. revert b. induction s as [| x t IH]; intros b; [reflexivity |].
  simpl. eqb_cases x c.
  - unfold visible at 2. simpl. rewrite Hc. simpl.
    destruct b; [apply IH |].
    unfold visible at 1. simpl. rewrite Hc. simpl. apply IH.
  - unfold visible. simpl. destruct (isspace x); simpl; [apply IH |].
    f_equal. apply IH.
Qed.

Lemma visible_lstrip (s : str) : visible (lstrip s) = visible s.
Proof.
  induction s as [| x t IH]; [reflexivity |]. cbn [lstrip].
  destruct (isspace x) eqn:Ex; [| reflexivity].
  rewrite IH. unfold visible. simpl. now rewrite Ex.
Qed.

Lemma visible_rev (s : str) : visible (rev s) = rev (visible s).
Proof.
  induction s as [| x t IH]; [reflexivity |].
  simpl. rewrite visible_app, IH. unfold visible at 2 3. simpl.
  destruct (isspace x); simpl; [now rewrite app_nil_r | reflexivity].
Qed.

Lemma visible_strip (s : str) : visible (strip s) = visible s.
Proof.
  unfold strip, rstrip.
  now rewrite visible_rev, visible_lstrip, visible_rev, rev_involutive,
    visible_lstrip.
Qed.

Lemma visible_join (L : list str) :
  visible (join [NL] L) = concat (List.map visible L).
Proof.
  induction L as [| x r IH]; [reflexivity |].
  destruct r as [| y r].
  - simpl. now rewrite app_nil_r.
  - rewrite join_cons2, visible_app, visible_app, IH. reflexivity.
Qed.

Lemma visible_stripped_lines (L : list str) :
  concat (List.map visible (List.filter truthy (List.map strip L)))
  = concat (List.map visible L).
Proof.
  induction L as [| x r IH]; [reflexivity |].
  cbn [List.map List.filter concat]. rewrite <- IH, <- (visible_strip x).
  destruct (strip x); reflexivity.
Qed.

(** X2: [remove_extra_spaces] only touches whitespace: the characters
    that are not whitespace come out unchanged and in the same order. *)
Theorem remove_extra_spaces_visible (text : str) :
  visible (remove_extra_spaces text) = visible text.
Proof.
  unfold remove_extra_spaces. destruct (truthy text); simpl; [| reflexivity].
  rewrite visible_join, visible_stripped_lines, <- visible_join, join_split.
  now rewrite !visible_re_sub_plus.
Qed.

(** X3: [html_to_text] returns the empty string for an empty input and
    in every case a text that is already clean: clean lines joined by
    single newlines, which [remove_extra_spaces] leaves unchanged. *)
Theorem html_to_text_clean (parser : str -> list Bs4.node)
        (unescape : str -> str) (html_string : str) (remove_scripts : bool) :
  html_to_text parser unescape [] remove_scripts = []
  /\ (exists lines,
         Forall clean_line lines
         /\ html_to_text parser unescape html_string remove_scripts
            = join [NL] lines)
  /\ remove_extra_spaces
       (html_to_text parser unescape html_string remove_scripts)
     = html_to_text parser unescape html_string remove_scripts.
Proof.
  split; [reflexivity |].
  unfold html_to_text. destruct (negb (truthy html_string)).
  - split; [now exists [] | reflexivity].
  - split; [apply remove_extra_spaces_lines |].
    destruct (remove_extra_spaces_lines
                (unescape (Bs4.get_text
                   (if remove_scripts
                    then Bs4.decompose_all script_style (parser html_string)
                    else parser html_string)))) as (L & HL & ->).
    now apply remove_extra_spaces_join.
Qed.

(** ** What [extract_domain] returns *)

Lemma delimiter_free_incl (a b : str) :
  incl a b -> delimiter_free b = true -> delimiter_free a = true.
Proof.
  unfold delimiter_free. rewrite !forallb_forall. intros Hi Hb x Hx.
  apply Hb, Hi, Hx.
Qed.

Lemma splitnetloc_delimiter_free (s : str) :
  delimiter_free (fst (Urllib.splitnetloc s)) = true.
Proof.
  induction s as [| x t IH]; [reflexivity |]. simpl.
  destruct ((x =? Urllib.SLASH) || (x =? Urllib.QUESTION)
            || (x =? Urllib.HASH))%N eqn:Ex; [reflexivity |].
  destruct (Urllib.splitnetloc t) as [n r]. simpl in *.
  now rewrite Ex.
Qed.

Lemma find_firstn_without (c : char) (s : str) (i : nat) :
  find c s = Some i -> contains c (firstn i s) = false.
Proof.
  revert i. induction s as [| x t IH]; intros i; simpl; [discriminate |].
  eqb_cases x c.
  - now intros [= <-].
  - destruct (find c t) as [j |]; [| discriminate].
    intros [= <-]. simpl. apply N.eqb_neq in E.
    rewrite N.eqb_sym, E. now apply IH.
Qed.

Lemma contains_incl (c : char) (a b : str) :
  incl a b -> contains c b = false -> contains c a = false.
Proof.
  unfold contains. intros Hi Hb. apply not_true_is_false. intros Ha.
  apply existsb_exists in Ha as (x & Hx & Hc).
  assert (existsb (N.eqb c) b = true)
    by (apply existsb_exists; exists x; auto).
  congruence.
Qed.

Lemma split1_fst (c : char) (s : str) :
  incl (fst (split1 c s)) s /\ contains c (fst (split1 c s)) = false
  \/ find c s = None.
Proof.
  unfold split1. destruct (find c s) as [i |] eqn:Ef; [left | now right].
  split; [apply firstn_incl | now apply find_firstn_without].
Qed.

Lemma find_none_without (c : char) (s : str) :
  find c s = None -> contains c s = false.
Proof.
  induction s as [| x t IH]; [reflexivity |]. simpl.
  eqb_cases x c; [discriminate |].
  destruct (find c t); [discriminate |]. intros _.
  apply N.eqb_neq in E. rewrite N.eqb_sym, E. now apply IH.
Qed.

(** Cutting at the first [c], when there is one, leaves a part of the
    text without [c]. *)
Lemma cut_at_first (c : char) (s : str) :
  let part := fst (if contains c s then split1 c s else (s, [])) in
  incl part s /\ contains c part = false.
Proof.
  cbv zeta. destruct (contains c s) eqn:Hc.
  - destruct (split1_fst c s) as [H | H]; [exact H |].
    apply find_none_without in H. congruence.
  - split; [apply incl_refl | exact Hc].
Qed.

Lemma split_lines_incl (c : char) (s : str) :
  Forall (fun l => incl l s) (split c s).
Proof.
  induction s as [| x t IH]; simpl.
  - constructor; [apply incl_refl | constructor].
  - destruct (x =? c)%N.
    + constructor; [intros y [] |].
      eapply Forall_impl; [| exact IH]. intros l Hl. now apply incl_tl.
    + destruct (split c t) as [| l ls].
      { constructor; [intros y [<- | []]; now left | constructor]. }
      inversion IH; subst. constructor.
      * intros y [<- | Hy]; [now left | right; auto].
      * eapply Forall_impl; [| eassumption]. intros l' Hl. now apply incl_tl.
Qed.

Lemma hd_split_incl (c : char) (s : str) : incl (hd [] (split c s)) s.
Proof.
  pose proof (split_lines_incl c s) as H.
  destruct (split c s); [intros y [] | now inversion H].
Qed.

Lemma hd_split_without (c : char) (s : str) :
  contains c (hd [] (split c s)) = false.
Proof.
  pose proof (split_without_sep c s) as H.
  destruct (split c s); [reflexivity | now inversion H].
Qed.

Lemma delimiter_free_iff (s : str) :
  delimiter_free s = true <->
  contains Urllib.SLASH s = false /\ contains Urllib.QUESTION s = false
  /\ contains Urllib.HASH s = false.
Proof.
  unfold delimiter_free, contains.
  induction s as [| x t IH]; [cbn; tauto |].
  cbn [forallb existsb].
  rewrite andb_true_iff, IH, !orb_false_iff, negb_true_iff, !orb_false_iff.
  rewrite (N.eqb_sym x Urllib.SLASH), (N.eqb_sym x Urllib.QUESTION),
    (N.eqb_sym x Urllib.HASH).
  tauto.
Qed.

Lemma splitnetloc_rest_incl (s : str) : incl (snd (Urllib.splitnetloc s)) s.
Proof.
  induction s as [| x t IH]; simpl; [apply incl_refl |].
  destruct ((x =? Urllib.SLASH) || (x =? Urllib.QUESTION)
            || (x =? Urllib.HASH))%N; simpl; [apply incl_refl |].
  destruct (Urllib.splitnetloc t) as [n r]. simpl in *. now apply incl_tl.
Qed.

Section UrlsplitShape.

Variable T : Urllib.Tables.

(** The host part of a parsed URL holds no delimiter, its path neither
    [#] nor [?]; both are made of characters of the cleaned text. *)
Lemma urlsplit_inv (url : str) (sr : Urllib.SplitResult) :
  Urllib.urlsplit T url = Ok sr ->
  let u1 := Urllib.remove_unsafe
              (lstrip_chars Urllib.WHATWG_C0_CONTROL_OR_SPACE url) in
  incl (Urllib.s_netloc sr) u1
  /\ incl (Urllib.s_path sr) u1
  /\ delimiter_free (Urllib.s_netloc sr) = true
  /\ contains Urllib.HASH (Urllib.s_path sr) = false
  /\ contains Urllib.QUESTION (Urllib.s_path sr) = false.
Proof.
  unfold Urllib.urlsplit. intros H. cbv zeta.
  set (u1 := Urllib.remove_unsafe _) in *.
  match type of H with
  | context [let '(_, _) := ?M in _] => destruct M as [sch u2] eqn:Esch
  end.
  assert (H2 : incl u2 u1).
  { destruct (find Urllib.COLON u1) as [i |].
    - destruct (_ && _ && _); injection Esch as _ <-;
        [exact (skipn_incl (S i) u1) | apply incl_refl].
    - injection Esch as _ <-. apply incl_refl. }
  assert (Hcut : forall nl rest,
             incl nl u1 -> incl rest u1 -> delimiter_free nl = true ->
             (let '(url0, fragment) :=
                if contains Urllib.HASH rest then split1 Urllib.HASH rest
                else (rest, []) in
              let '(url1, query) :=
                if contains Urllib.QUESTION url0
                then split1 Urllib.QUESTION url0 else (url0, []) in
              if Urllib.checknetloc T nl
              then Ok {| Urllib.s_scheme := sch; Urllib.s_netloc := nl;
                         Urllib.s_path := url1; Urllib.s_query := query;
                         Urllib.s_fragment := fragment |}
              else Raise ValueError) = Ok sr ->
             incl (Urllib.s_netloc sr) u1
             /\ incl (Urllib.s_path sr) u1
             /\ delimiter_free (Urllib.s_netloc sr) = true
             /\ contains Urllib.HASH (Urllib.s_path sr) = false
             /\ contains Urllib.QUESTION (Urllib.s_path sr) = false).
  { intros nl rest Hnl Hrest Hfree Hres.
    pose proof (cut_at_first Urllib.HASH rest) as [Hi3 Hh3].
    destruct (if contains Urllib.HASH rest then _ else _) as [u3 frag].
    cbn [fst] in Hi3, Hh3.
    pose proof (cut_at_first Urllib.QUESTION u3) as [Hi4 Hq4].
    destruct (if contains Urllib.QUESTION u3 then _ else _) as [u4 qry].
    cbn [fst] in Hi4, Hq4.
    destruct (Urllib.checknetloc T nl); [| discriminate].
    injection Hres as <-. cbn.
    split; [assumption |].
    split; [eapply incl_tran; [exact Hi4 |];
            eapply incl_tran; [exact Hi3 | exact Hrest] |].
    split; [assumption |].
    split; [eapply contains_incl; eassumption | assumption]. }
  destruct (startswith [Urllib.SLASH; Urllib.SLASH] u2).
  - pose proof (splitnetloc_incl (skipn 2 u2)) as Hn.
    pose proof (splitnetloc_rest_incl (skipn 2 u2)) as Hr.
    pose proof (splitnetloc_delimiter_free (skipn 2 u2)) as Hf.
    destruct (Urllib.splitnetloc (skipn 2 u2)) as [nl rest].
    cbn [fst snd] in Hn, Hr, Hf.
    assert (Hs : incl (skipn 2 u2) u1)
      by (eapply incl_tran; [apply (skipn_incl 2) | exact H2]).
    destruct (_ || _); [discriminate |].
    destruct (_ && _ && _); [discriminate |].
    cbn [bind] in H. apply (Hcut nl rest); try assumption.
    + eapply incl_tran; eassumption.
    + eapply incl_tran; eassumption.
  - cbn [bind] in H. apply (Hcut [] u2); try assumption.
    + intros y [].
    + reflexivity.
Qed.

Lemma splitparams_incl (url : str) : incl (fst (Urllib.splitparams url)) url.
Proof.
  unfold Urllib.splitparams.
  destruct (contains Urllib.SLASH url).
  - destruct (find_from _ _ _); [apply firstn_incl | apply incl_refl].
  - destruct (find Urllib.SEMI url); apply firstn_incl.
Qed.

(** The [netloc] variable of [extract_domain] holds no delimiter. *)
Lemma netloc_of_delimiter_free (url : str) (parsed : Urllib.ParseResult) :
  Urllib.urlparse T url = Ok parsed ->
  delimiter_free (netloc_of parsed) = true
  /\ incl (netloc_of parsed)
          (Urllib.remove_unsafe
             (lstrip_chars Urllib.WHATWG_C0_CONTROL_OR_SPACE url)).
Proof.
  unfold Urllib.urlparse.
  destruct (Urllib.urlsplit T url) as [sr | e] eqn:Hs; [| discriminate].
  cbn [bind].
  apply urlsplit_inv in Hs. cbv zeta in Hs.
  destruct Hs as (Hn & Hp & Hf & Hh & Hq).
  assert (Hpath : incl (fst (if str_in (Urllib.s_scheme sr) Urllib.uses_params
                                && contains Urllib.SEMI (Urllib.s_path sr)
                             then Urllib.splitparams (Urllib.s_path sr)
                             else (Urllib.s_path sr, [])))
                       (Urllib.s_path sr)).
  { destruct (_ && _); [apply splitparams_incl | apply incl_refl]. }
  destruct (if _ && _ then _ else _) as [u prm]. cbn [fst] in Hpath.
  intros [= <-]. unfold netloc_of. cbn.
  destruct (truthy (Urllib.s_netloc sr)); [now split |].
  split.
  - apply delimiter_free_iff. split; [apply hd_split_without |].
    split; (eapply contains_incl; [| eassumption]);
      (eapply incl_tran; [apply hd_split_incl | exact Hpath]).
  - eapply incl_tran; [apply hd_split_incl |].
    eapply incl_tran; eassumption.
Qed.

End UrlsplitShape.

Lemma join_skipn_suffix (c : char) (k : nat) :
  forall L, exists p, join [c] L = p ++ join [c] (skipn k L).
Proof.
  induction k as [| k IH]; intros L; [now exists [] |].
  destruct L as [| x r]; [now exists [] |].
  destruct (IH r) as [p Hp]. cbn [skipn].
  destruct r as [| y r].
  - exists x. rewrite skipn_nil. simpl. now rewrite app_nil_r.
  - exists (x ++ [c] ++ p). rewrite join_cons2, Hp, <- !app_assoc.
    reflexivity.
Qed.

Section ExtractDomainShape.

Variable T : Urllib.Tables.

(** Without the subdomain, the result is the host cut after some of its
    leading labels. *)
Lemma extract_domain_cut (url : str) (parsed : Urllib.ParseResult) :
  truthy url = true ->
  Urllib.urlparse T (prepared_url url) = Ok parsed ->
  exists k,
    extract_domain T url false
    = Ok (join [DOT] (skipn k (split DOT (netloc_of parsed)))).
Proof.
  intros Ht Hp. rewrite (@extract_domain_parsed T url parsed false Ht Hp).
  cbv zeta. destruct (_ <=? 2)%nat.
  - exists 0. cbn [skipn]. now rewrite join_split.
  - destruct (_ && _); eexists; reflexivity.
Qed.

Lemma extract_domain_inv (url : str) (b : bool) (d : str) :
  extract_domain T url b = Ok d ->
  truthy url = false /\ d = []
  \/ exists parsed,
       truthy url = true
       /\ Urllib.urlparse T (prepared_url url) = Ok parsed.
Proof.
  unfold extract_domain. destruct (truthy url); cbn [negb].
  - destruct (Urllib.urlparse T (prepared_url url)) as [parsed | e];
      [| discriminate].
    intros _. right. now exists parsed.
  - intros [= <-]. now left.
Qed.

End ExtractDomainShape.

(** X4: the domain without subdomain is always the end of the host that
    [extract_domain] returns with [include_subdomain]. *)
Theorem extract_domain_suffix_of_host (T : Urllib.Tables) (url host d : str) :
  extract_domain T url true = Ok host ->
  extract_domain T url false = Ok d ->
  exists front, host = front ++ d.
Proof.
  intros Hh Hd.
  destruct (extract_domain_inv _ _ _ Hh) as [[Ht _] | (parsed & Ht & Hp)].
  - unfold extract_domain in Hh, Hd. rewrite Ht in Hh, Hd.
    injection Hh as <-. injection Hd as <-. now exists [].
  - rewrite (@extract_domain_parsed T url parsed true Ht Hp) in Hh.
    cbv zeta in Hh. injection Hh as <-.
    destruct (@extract_domain_cut T url parsed Ht Hp) as [k Hk].
    rewrite Hk in Hd. injection Hd as <-.
    destruct (join_skipn_suffix DOT k (split DOT (netloc_of parsed)))
      as [p Hp'].
    rewrite join_split in Hp'. now exists p.
Qed.

Lemma extract_domain_suffix_of_host_witness :
  exists front,
    lit "api.github.com" = front ++ lit "github.com".
Proof.
  exact (@extract_domain_suffix_of_host Urllib.ascii_tables
           (lit "http://api.github.com/users/octocat")
           (lit "api.github.com") (lit "github.com") eq_refl eq_refl).
Defined.

(** X5: whatever [extract_domain] returns holds none of [/], [?], [#]:
    never a piece of the path, the query or the fragment. *)
Theorem extract_domain_delimiter_free (T : Urllib.Tables) (url d : str)
        (include_subdomain : bool) :
  extract_domain T url include_subdomain = Ok d ->
  delimiter_free d = true.
Proof.
  intros Hd.
  destruct (extract_domain_inv _ _ _ Hd) as [[_ ->] | (parsed & Ht & Hp)];
    [reflexivity |].
  destruct (@netloc_of_delimiter_free T _ parsed Hp) as [Hfree _].
  destruct include_subdomain.
  - rewrite (@extract_domain_parsed T url parsed true Ht Hp) in Hd.
    cbv zeta in Hd. now injection Hd as <-.
  - destruct (@extract_domain_cut T url parsed Ht Hp) as [k Hk].
    rewrite Hk in Hd. injection Hd as <-.
    destruct (join_skipn_suffix DOT k (split DOT (netloc_of parsed)))
      as [p Hp'].
    rewrite join_split in Hp'.
    apply delimiter_free_incl with (b := netloc_of parsed); [| assumption].
    intros x Hx. rewrite Hp'. apply in_or_app. now right.
Qed.

Lemma extract_domain_delimiter_free_witness :
  delimiter_free (lit "lemonde.fr") = true.
Proof.
  exact (@extract_domain_delimiter_free Urllib.ascii_tables
           (lit "https://www.lemonde.fr/article/12345?x=1#top")
           (lit "lemonde.fr") false eq_refl).
Defined.

(** ** Applying [extract_domain] twice *)

Lemma remove_char_without (c : char) (s : str) :
  contains c (remove_char c s) = false.
Proof.
  induction s as [| x t IH]; [reflexivity |].
  unfold remove_char in *. simpl. eqb_cases x c; simpl; [exact IH |].
  apply N.eqb_neq in E. rewrite N.eqb_sym, E. exact IH.
Qed.

Lemma remove_char_fixed (c : char) (s : str) :
  contains c s = false -> remove_char c s = s.
Proof.
  induction s as [| x t IH]; [reflexivity |].
  unfold remove_char, contains in *. simpl. intros H.
  apply orb_false_iff in H as [H1 H2].
  rewrite N.eqb_sym, H1. simpl. f_equal. now apply IH.
Qed.

Lemma remove_unsafe_unsafe_free (s : str) :
  unsafe_free (Urllib.remove_unsafe s) = true.
Proof.
  unfold unsafe_free, Urllib.remove_unsafe.
  rewrite remove_char_without.
  rewrite (contains_incl 13%N (remove_char_incl 10%N _)
             (remove_char_without 13%N _)).
  rewrite (contains_incl 9%N
             (incl_tran (remove_char_incl 10%N _) (remove_char_incl 13%N _))
             (remove_char_without 9%N _)).
  reflexivity.
Qed.

Lemma unsafe_free_incl (a b : str) :
  incl a b -> unsafe_free b = true -> unsafe_free a = true.
Proof.
  unfold unsafe_free. intros Hi Hb.
  apply andb_true_iff in Hb as [Hb H3]. apply andb_true_iff in Hb as [H1 H2].
  apply negb_true_iff in H1, H2, H3.
  now rewrite (contains_incl _ Hi H1), (contains_incl _ Hi H2),
    (contains_incl _ Hi H3).
Qed.

Lemma remove_unsafe_fixed (s : str) :
  unsafe_free s = true -> Urllib.remove_unsafe s = s.
Proof.
  unfold unsafe_free, Urllib.remove_unsafe. intros H.
  apply andb_true_iff in H as [H H3]. apply andb_true_iff in H as [H1 H2].
  apply negb_true_iff in H1, H2, H3.
  now rewrite (remove_char_fixed _ _ H1), (remove_char_fixed _ _ H2),
    (remove_char_fixed _ _ H3).
Qed.

Lemma splitnetloc_whole (s : str) :
  delimiter_free s = true -> Urllib.splitnetloc s = (s, []).
Proof.
  induction s as [| x t IH]; [reflexivity |].
  unfold delimiter_free. cbn [forallb Urllib.splitnetloc]. intros H.
  apply andb_true_iff in H as [H1 H2]. apply negb_true_iff in H1.
  rewrite H1, (IH H2). reflexivity.
Qed.

Lemma startswith_incl (p s : str) : startswith p s = true -> incl p s.
Proof.
  revert s. induction p as [| x p IH]; intros s H; [intros y [] |].
  destruct s as [| y s]; [discriminate |]. simpl in H.
  apply andb_true_iff in H as [H1 H2]. apply N.eqb_eq in H1. subst y.
  intros z [<- | Hz]; [now left | right; now apply (IH s)].
Qed.

Lemma prepared_url_host (d : str) :
  delimiter_free d = true -> prepared_url d = http_prefix ++ d.
Proof.
  intros Hf. apply delimiter_free_iff in Hf as [Hs _].
  assert (Hno : forall p, In Urllib.SLASH p -> startswith p d = false).
  { intros p Hin. apply not_true_is_false. intros Hp.
    apply startswith_incl in Hp.
    assert (contains Urllib.SLASH d = true).
    { apply existsb_exists. exists Urllib.SLASH. split; [now apply Hp |].
      apply N.eqb_refl. }
    congruence. }
  unfold prepared_url.
  rewrite !Hno; [reflexivity | | |]; cbv; tauto.
Qed.

Lemma remove_unsafe_app (a b : str) :
  Urllib.remove_unsafe (a ++ b)
  = Urllib.remove_unsafe a ++ Urllib.remove_unsafe b.
Proof.
  unfold Urllib.remove_unsafe, remove_char. now rewrite !filter_app.
Qed.

Lemma urlsplit_host (T : Urllib.Tables) (d : str) :
  plain d = true -> delimiter_free d = true -> unsafe_free d = true ->
  Urllib.urlsplit T (http_prefix ++ d)
  = Ok {| Urllib.s_scheme := lit "http"; Urllib.s_netloc := d;
          Urllib.s_path := []; Urllib.s_query := [];
          Urllib.s_fragment := [] |}.
Proof.
  intros Hp Hf Hu. unfold Urllib.urlsplit.
  change (lstrip_chars Urllib.WHATWG_C0_CONTROL_OR_SPACE (http_prefix ++ d))
    with (http_prefix ++ d).
  rewrite remove_unsafe_app, (remove_unsafe_fixed d Hu).
  change (Urllib.remove_unsafe http_prefix) with http_prefix.
  change (find Urllib.COLON (http_prefix ++ d)) with (Some 4).
  cbv beta iota.
  change (firstn 4 (http_prefix ++ d)) with (lit "http").
  change (skipn 5 (http_prefix ++ d)) with (slashes_prefix ++ d).
  change (hd 0%N (http_prefix ++ d)) with 104%N.
  change ((0 <? 4)%nat && ascii_alpha 104%N
          && forallb Urllib.scheme_char (lit "http")) with true.
  cbv beta iota.
  change (startswith [Urllib.SLASH; Urllib.SLASH] (slashes_prefix ++ d))
    with true.
  change (skipn 2 (slashes_prefix ++ d)) with d.
  cbv beta iota. rewrite (splitnetloc_whole d Hf).
  destruct (plain_no_bracket d Hp) as [Hl Hr]. rewrite Hl, Hr.
  cbn [andb orb negb bind contains existsb].
  rewrite (checknetloc_ascii T d (plain_isascii d Hp)).
  reflexivity.
Qed.

Lemma urlparse_host (T : Urllib.Tables) (d : str) :
  plain d = true -> delimiter_free d = true -> unsafe_free d = true ->
  exists parsed,
    Urllib.urlparse T (http_prefix ++ d) = Ok parsed
    /\ Urllib.netloc parsed = d /\ Urllib.path parsed = [].
Proof.
  intros Hp Hf Hu. unfold Urllib.urlparse.
  rewrite (urlsplit_host T d Hp Hf Hu). cbn [bind].
  eexists. split; [reflexivity |]. now split.
Qed.

Lemma nth_after_skipn (A : Type) (n i : nat) (l : list A) (d : A) :
  nth i (skipn n l) d = nth (n + i) l d.
Proof.
  revert l. induction n as [| n IH]; intros l; [reflexivity |].
  destruct l as [| x l]; [now destruct i | apply IH].
Qed.

Lemma last_n_length (A : Type) (k : nat) (l : list A) :
  k <= length l -> length (last_n k l) = k.
Proof. intros H. unfold last_n. rewrite length_skipn. lia. Qed.

Lemma last_n_all (A : Type) (l : list A) : last_n (length l) l = l.
Proof. unfold last_n. now rewrite Nat.sub_diag. Qed.

Lemma split_join_last_n (k : nat) (h : str) :
  0 < k -> k <= length (split DOT h) ->
  split DOT (join [DOT] (last_n k (split DOT h))) = last_n k (split DOT h).
Proof.
  intros Hk Hle. apply split_join.
  - intros Hnil. pose proof (@last_n_length _ k (split DOT h) Hle) as Hl.
    rewrite Hnil in Hl. simpl in Hl. lia.
  - apply Forall_forall. intros l Hl.
    pose proof (split_without_sep DOT h) as HF. rewrite Forall_forall in HF.
    apply HF. unfold last_n in Hl. now apply skipn_incl in Hl.
Qed.

(** Reducing a host that is already reduced changes nothing. *)
Lemma registrable_idempotent (h : str) :
  registrable (registrable h) = registrable h.
Proof.
  destruct (length (split DOT h) <=? 2)%nat eqn:E.
  - assert (Hr : registrable h = h)
      by (unfold registrable; cbv zeta; now rewrite E).
    now rewrite !Hr.
  - pose proof E as E'. apply Nat.leb_gt in E'.
    assert (E2 : (3 <=? length (split DOT h))%nat = true)
      by (apply Nat.leb_le; lia).
    destruct (str_in (nth (length (split DOT h) - 2) (split DOT h) [])
                     second_level_labels) eqn:E3.
    + assert (Hr : registrable h = join [DOT] (last_n 3 (split DOT h)))
        by (unfold registrable; cbv zeta; now rewrite E, E2, E3).
      rewrite !Hr. unfold registrable. cbv zeta.
      rewrite split_join_last_n by lia.
      rewrite (@last_n_length _ 3 (split DOT h)) by lia.
      cbn [Nat.leb Nat.sub].
      unfold last_n at 1. rewrite nth_after_skipn.
      replace (length (split DOT h) - 3 + 1)
        with (length (split DOT h) - 2) by lia.
      rewrite E3. cbn [andb].
      rewrite <- (@last_n_length _ 3 (split DOT h)) at 1 by lia.
      now rewrite last_n_all.
    + assert (Hr : registrable h = join [DOT] (last_n 2 (split DOT h)))
        by (unfold registrable; cbv zeta;
            now rewrite E, E3, andb_false_r).
      rewrite !Hr. unfold registrable. cbv zeta.
      rewrite split_join_last_n by lia.
      rewrite (@last_n_length _ 2 (split DOT h)) by lia.
      reflexivity.
Qed.

Lemma extract_domain_registrable (T : Urllib.Tables) (url : str)
      (parsed : Urllib.ParseResult) :
  truthy url = true ->
  Urllib.urlparse T (prepared_url url) = Ok parsed ->
  extract_domain T url false = Ok (registrable (netloc_of parsed)).
Proof.
  intros Ht Hp. rewrite (@extract_domain_parsed T url parsed false Ht Hp).
  unfold registrable. cbv zeta.
  destruct (_ <=? 2)%nat; [reflexivity |].
  now destruct (_ && _).
Qed.

Lemma registrable_incl (h : str) : incl (registrable h) h.
Proof.
  unfold registrable. cbv zeta.
  assert (H : forall k, incl (join [DOT] (last_n k (split DOT h))) h).
  { intros k. unfold last_n.
    destruct (join_skipn_suffix DOT (length (split DOT h) - k) (split DOT h))
      as [p Hp].
    rewrite join_split in Hp. intros x Hx. rewrite Hp.
    apply in_or_app. now right. }
  destruct (_ <=? 2)%nat; [apply incl_refl |].
  destruct (_ && _); apply H.
Qed.

(** X6: on plain ASCII text [extract_domain] is idempotent: given its own
    result it returns it again, with or without the subdomain. *)
Theorem extract_domain_idempotent (T : Urllib.Tables) (url d : str) :
  plain url = true ->
  extract_domain T url false = Ok d ->
  extract_domain T d false = Ok d /\ extract_domain T d true = Ok d.
Proof.
  intros Hplain Hd.
  destruct (extract_domain_inv _ _ _ Hd) as [[_ ->] | (parsed & Ht & Hp)];
    [now split |].
  rewrite (@extract_domain_registrable T url parsed Ht Hp) in Hd. injection Hd as <-.
  destruct (@netloc_of_delimiter_free T _ parsed Hp) as [Hfree Hincl].
  set (h := netloc_of parsed) in *.
  pose proof (registrable_incl h) as Hrh.
  assert (Hpl : plain (registrable h) = true).
  { apply plain_incl with (b := prepared_url url).
    - eapply incl_tran; [exact Hrh |]. eapply incl_tran; [exact Hincl |].
      unfold Urllib.remove_unsafe.
      repeat (eapply incl_tran; [apply remove_char_incl |]).
      apply lstrip_chars_incl.
    - now apply prepared_url_plain. }
  assert (Hfr : delimiter_free (registrable h) = true)
    by (eapply delimiter_free_incl; eassumption).
  assert (Hun : unsafe_free (registrable h) = true).
  { eapply unsafe_free_incl; [eapply incl_tran; eassumption |].
    apply remove_unsafe_unsafe_free. }
  destruct (truthy (registrable h)) eqn:Hne.
  2:{ destruct (registrable h); [now split | discriminate]. }
  destruct (@urlparse_host T (registrable h) Hpl Hfr Hun)
    as (parsed' & Hp' & Hn' & _).
  rewrite <- (@prepared_url_host (registrable h) Hfr) in Hp'.
  assert (Hnet : netloc_of parsed' = registrable h).
  { unfold netloc_of. now rewrite Hn', Hne. }
  split.
  - rewrite (@extract_domain_registrable T _ parsed' Hne Hp'), Hnet.
    now rewrite registrable_idempotent.
  - rewrite (@extract_domain_parsed T _ parsed' true Hne Hp'). cbv zeta.
    now rewrite Hnet.
Qed.

Lemma extract_domain_idempotent_witness :
  extract_domain Urllib.ascii_tables (lit "example.co.uk") false
  = Ok (lit "example.co.uk")
  /\ extract_domain Urllib.ascii_tables (lit "example.co.uk") true
     = Ok (lit "example.co.uk").
Proof.
  exact (@extract_domain_idempotent Urllib.ascii_tables
           (lit "https://subdomain.example.co.uk/page")
           (lit "example.co.uk") eq_refl eq_refl).
Defined.

(** ** The retry loop on any network *)

Module RetryMore.

Import ImprovedHTTPRequester.

Lemma attempt_ok_inv net method url timeout w r0 w0 :
  attempt net method url timeout w = (Ok r0, w0) ->
  status_ok r0 = true /\ transport net (issued w) = Respond r0.
Proof.
  unfold attempt, session_request, raise_for_status, status_ok.
  destruct (transport net (issued w)) as [r1 | e1]; cbn [bind].
  - destruct (_ && _)%bool eqn:E; cbn [bind]; [discriminate |].
    intros [= <- _]. now rewrite E.
  - discriminate.
Qed.

Section AnyNetwork.

Variables (net : Net) (self : t) (method url : str) (timeout : Q).
Variables (max_retries : Z) (retry_delay : Q).

(** Whatever the network and the clock do, the loop issues a request,
    then a sleep and a request for each retry, at most [max_retries]
    retries and at most as many as the stack has room for; it ends with
    a sleep only when the stack is full. *)
Lemma retry_trace (n : nat) :
  forall current_attempt frames w,
    Z.to_nat (max_retries - current_attempt) = n ->
    exists k,
      k <= n /\ k <= frames
      /\ (ran w (snd (request_with_retry net self method url timeout
                        max_retries retry_delay current_attempt frames w))
              k retry_delay
          \/ (fst (request_with_retry net self method url timeout
                     max_retries retry_delay current_attempt frames w)
              = Raise RecursionError
              /\ k = frames
              /\ ran_out_of_stack w
                   (snd (request_with_retry net self method url timeout
                           max_retries retry_delay current_attempt frames w))
                   k retry_delay)).
Proof.
  induction n as [| n IH]; intros cur frames w Hn;
    rewrite RetryFacts.request_with_retry_unfold;
    destruct (RetryFacts.attempt_world net method url timeout w)
      as [Hi (ev & Ht & Hs)];
    destruct (attempt net method url timeout w) as [[r | e] w1];
    cbn [fst snd] in Hi, Ht;
    try (exists 0; split; [lia |]; split; [lia |]; left;
         now apply RetryFacts.ran_one with (ev := ev));
    destruct (is_RequestException e);
    try (exists 0; split; [lia |]; split; [lia |]; left;
         now apply RetryFacts.ran_one with (ev := ev));
    destruct (cur <? max_retries)%Z eqn:Hlt;
    try (exists 0; split; [lia |]; split; [lia |]; left;
         now apply RetryFacts.ran_one with (ev := ev)).
  - apply Z.ltb_lt in Hlt. lia.
  - apply Z.ltb_lt in Hlt.
    destruct (time_sleep retry_delay w1) as [[u | e'] w2] eqn:Hsl.
    2:{ apply RetryFacts.time_sleep_raises in Hsl. subst w2.
        exists 0. split; [lia |]. split; [lia |]. left.
        now apply RetryFacts.ran_one with (ev := ev). }
    apply RetryFacts.time_sleep_returns in Hsl as (Hi2 & _ & Ht2).
    destruct (RetryFacts.rotate_if_enabled_issued net self w2) as [Hi3 Ht3].
    assert (Hi4 : issued (rotate_if_enabled net self w2) = S (issued w))
      by congruence.
    assert (Ht4 : trace (rotate_if_enabled net self w2)
                  = (trace w ++ [ev]) ++ [EvSleep retry_delay])
      by now rewrite Ht3, Ht2, Ht.
    destruct frames as [| frames].
    + exists 0. split; [lia |]. split; [lia |]. right. cbn [fst snd].
      split; [reflexivity |]. split; [reflexivity |].
      now apply RetryFacts.ran_out_of_stack_one with (ev := ev).
    + destruct (IH (cur + 1)%Z frames (rotate_if_enabled net self w2))
        as (k & Hk & Hkf & Hr); [lia |].
      exists (S k). split; [lia |]. split; [lia |].
      destruct Hr as [Hr | (Hres & -> & Hr)].
      * left. now apply RetryFacts.ran_step
                with (w3 := rotate_if_enabled net self w2) (ev := ev).
      * right. split; [exact Hres |]. split; [reflexivity |].
        now apply RetryFacts.ran_out_of_stack_step
          with (w3 := rotate_if_enabled net self w2) (ev := ev).
Qed.

(** The number of requests of the loop. *)
Lemma retry_issued current_attempt frames w :
  issued w
  < issued (snd (request_with_retry net self method url timeout max_retries
                   retry_delay current_attempt frames w))
  <= issued w + Z.to_nat (max_retries - current_attempt) + 1.
Proof.
  destruct (@retry_trace (Z.to_nat (max_retries - current_attempt))
              current_attempt frames w eq_refl)
    as (k & Hk & _ & [[Hi _] | (_ & _ & [Hi _])]); lia.
Qed.

(** A response that the loop returns was given by the network to one of
    the requests of this call, and its status is not 4xx or 5xx. *)
Lemma retry_returns (n : nat) :
  forall current_attempt frames w r w',
    Z.to_nat (max_retries - current_attempt) = n ->
    request_with_retry net self method url timeout max_retries retry_delay
                       current_attempt frames w = (Ok r, w') ->
    status_ok r = true
    /\ exists k, issued w <= k < issued w' /\ transport net k = Respond r.
Proof.
  induction n as [| n IH]; intros cur frames w r w' Hn;
    rewrite RetryFacts.request_with_retry_unfold;
    destruct (RetryFacts.attempt_world net method url timeout w)
      as [Hi _];
    pose proof (@attempt_ok_inv net method url timeout w) as Hok;
    destruct (attempt net method url timeout w) as [[r0 | e] w1];
    cbn [fst snd] in Hi.
  1,3: intros [= <- <-]; destruct (Hok r0 w1 eq_refl) as [H1 H2];
       (split; [exact H1 |]); exists (issued w); split; [lia | exact H2].
  - destruct (is_RequestException e); [| discriminate].
    destruct (cur <? max_retries)%Z eqn:Hlt; [| discriminate].
    apply Z.ltb_lt in Hlt. lia.
  - destruct (is_RequestException e); [| discriminate].
    destruct (cur <? max_retries)%Z eqn:Hlt; [| discriminate].
    apply Z.ltb_lt in Hlt.
    destruct (time_sleep retry_delay w1) as [[u | e'] w2] eqn:Hsl;
      [| discriminate].
    apply RetryFacts.time_sleep_returns in Hsl as (Hi2 & _ & _).
    destruct frames as [| frames]; [discriminate |].
    intros Hrec. apply IH in Hrec as [H1 (k & Hk & H2)]; [| lia].
    split; [exact H1 |]. exists k. split; [| exact H2].
    rewrite (proj1 (RetryFacts.rotate_if_enabled_issued net self w2)) in Hk.
    lia.
Qed.

End AnyNetwork.


Lemma ran_out_of_stack_rotated net self w w' k d :
  ran_out_of_stack (rotate_if_enabled net self w) w' k d ->
  ran_out_of_stack w w' k d.
Proof.
  destruct (RetryFacts.rotate_if_enabled_issued net self w) as [Hi Ht].
  unfold ran_out_of_stack. now rewrite Hi, Ht.
Qed.


(** The user agent of the session stays in the pool, and at every
    request the session holds a user agent of the pool. *)
Lemma update_user_agent_pool net self w :
  user_agents self <> [] ->
  In (session_user_agent (update_user_agent net self w)) (user_agents self).
Proof.
  intros Hne. unfold update_user_agent.
  destruct (rotate_user_agent self); cbn [session_user_agent].
  - apply nth_In. apply Nat.mod_upper_bound.
    destruct (user_agents self); [congruence | discriminate].
  - destruct (user_agents self); [congruence | now left].
Qed.

Lemma rotate_if_enabled_pool net self w :
  user_agents self <> [] ->
  In (session_user_agent w) (user_agents self) ->
  In (session_user_agent (rotate_if_enabled net self w)) (user_agents self).
Proof.
  intros Hne Hin. unfold rotate_if_enabled.
  destruct (rotate_user_agent self) eqn:E; [| assumption].
  now apply update_user_agent_pool.
Qed.

Lemma retry_pool net self method url timeout max_retries retry_delay
      (n : nat) :
  user_agents self <> [] ->
  forall current_attempt frames w,
    Z.to_nat (max_retries - current_attempt) = n ->
    In (session_user_agent w) (user_agents self) ->
    let w' := snd (request_with_retry net self method url timeout
                     max_retries retry_delay current_attempt frames w) in
    In (session_user_agent w') (user_agents self)
    /\ exists evs,
         trace w' = trace w ++ evs
         /\ Forall (agent_of_pool (user_agents self)) evs.
Proof.
  intros Hne. induction n as [| n IH]; intros cur frames w Hn Hin; cbv zeta;
    rewrite RetryFacts.request_with_retry_unfold;
    assert (Ha : session_user_agent
                   (snd (attempt net method url timeout w))
                 = session_user_agent w
                 /\ trace (snd (attempt net method url timeout w))
                    = trace w ++ [EvRequest method url timeout
                                            (session_user_agent w)])
      by (unfold attempt, session_request;
          destruct (transport net (issued w)); now split);
    destruct (attempt net method url timeout w) as [[r | e] w1];
    cbn [snd] in Ha; destruct Ha as [Hua Htr];
    assert (Hone : In (session_user_agent w1) (user_agents self)
                   /\ exists evs,
                        trace w1 = trace w ++ evs
                        /\ Forall (agent_of_pool (user_agents self)) evs)
      by (split; [now rewrite Hua |];
          eexists; split; [exact Htr |];
          constructor; [exact Hin | constructor]);
    cbn [snd]; try exact Hone;
    destruct (is_RequestException e); cbn [snd]; try exact Hone;
    destruct (cur <? max_retries)%Z eqn:Hlt; cbn [snd]; try exact Hone.
  - apply Z.ltb_lt in Hlt. lia.
  - apply Z.ltb_lt in Hlt.
    destruct (time_sleep retry_delay w1) as [[u | e'] w2] eqn:Hsl.
    2:{ apply RetryFacts.time_sleep_raises in Hsl. subst w2. exact Hone. }
    apply RetryFacts.time_sleep_returns in Hsl as (_ & Hua2 & Ht2).
    assert (Hin2 : In (session_user_agent (rotate_if_enabled net self w2))
                      (user_agents self)).
    { apply rotate_if_enabled_pool; [assumption |].
      now rewrite Hua2, Hua. }
    assert (Htr2 : trace (rotate_if_enabled net self w2)
                   = trace w ++ [EvRequest method url timeout
                                   (session_user_agent w);
                                 EvSleep retry_delay]).
    { rewrite (proj2 (RetryFacts.rotate_if_enabled_issued net self w2)).
      rewrite Ht2, Htr, <- app_assoc. reflexivity. }
    destruct frames as [| frames]; cbn [snd].
    + split; [exact Hin2 |]. eexists. split; [exact Htr2 |].
      constructor; [exact Hin |]. constructor; [exact I | constructor].
    + destruct (IH (cur + 1)%Z frames (rotate_if_enabled net self w2)
                  ltac:(lia) Hin2) as [H1 (evs & H2 & H3)].
      split; [exact H1 |].
      exists (EvRequest method url timeout (session_user_agent w)
              :: EvSleep retry_delay :: evs).
      split.
      * rewrite H2, Htr2, <- app_assoc. reflexivity.
      * constructor; [exact Hin |]. constructor; [exact I | exact H3].
Qed.

End RetryMore.

(** X7: whatever the network answers and whatever the delay, a [get] or
    [post] of either requester issues at least one request and at most
    [max_retries + 1] (one when [max_retries] is negative), with a sleep
    of [retry_delay] between consecutive requests; no sleep follows the
    last request, unless the recursion runs out of stack: then the call
    raises [RecursionError] after a last sleep. *)
Theorem fetch_requests_bounded (net : Net) (url : str) (timeout : option Q)
        (max_retries : Z) (retry_delay : Q) (w : World) :
  (forall call,
      In call [HTTPRequester.get net url timeout max_retries retry_delay w;
               HTTPRequester.post net url timeout max_retries retry_delay w] ->
      bounded_requests net max_retries retry_delay w call)
  /\ (forall self call,
         In call [ImprovedHTTPRequester.get net self url timeout max_retries
                    retry_delay w;
                  ImprovedHTTPRequester.post net self url timeout max_retries
                    retry_delay w] ->
         bounded_requests net max_retries retry_delay w call).
Proof.
  assert (Himp : forall self method w0,
             issued w0 = issued w -> trace w0 = trace w ->
             bounded_requests net max_retries retry_delay w
               (ImprovedHTTPRequester.request_with_retry
                  net self method url (timeout_or_default timeout)
                  max_retries retry_delay 0 (recursion_limit net) w0)).
  { intros self method w0 Hi Ht.
    destruct (@RetryMore.retry_trace net self method url
                (timeout_or_default timeout) max_retries retry_delay
                (Z.to_nat (max_retries - 0)) 0%Z (recursion_limit net) w0
                eq_refl)
      as (k & Hk & Hkf & Hr).
    exists k. split; [lia |]. split; [exact Hkf |].
    unfold ran, ran_out_of_stack in *. now rewrite <- Hi, <- Ht. }
  split.
  - intros call [<- | [<- | []]];
      unfold HTTPRequester.get, HTTPRequester.post;
      rewrite (@RetryFacts.basic_as_improved net [] _ url
                 (timeout_or_default timeout) max_retries retry_delay
                 _ 0%Z (recursion_limit net) w eq_refl);
      now apply Himp.
  - intros self call [<- | [<- | []]];
      unfold ImprovedHTTPRequester.get, ImprovedHTTPRequester.post;
      apply Himp;
      apply (RetryFacts.rotate_if_enabled_issued net self w).
Qed.

Lemma fetch_requests_bounded_witness :
  bounded_requests (flaky_net 7) 2 1 fresh_world
    (HTTPRequester.get (flaky_net 7) (lit "https://httpbin.org/get") None
                       2 1 fresh_world).
Proof.
  apply (proj1 (@fetch_requests_bounded (flaky_net 7)
                  (lit "https://httpbin.org/get") None 2%Z 1%Q fresh_world)).
  now left.
Defined.

(** X8: a response returned by [get] is the answer of the network to
    one of the requests of this call, and its status is never 4xx or
    5xx. *)
Theorem get_returns_accepted_response (net : Net) (url : str)
        (timeout : option Q) (max_retries : Z) (retry_delay : Q)
        (w w' : World) (r : Response) :
  (HTTPRequester.get net url timeout max_retries retry_delay w = (Ok r, w')
   \/ exists self,
        ImprovedHTTPRequester.get net self url timeout max_retries
                                  retry_delay w = (Ok r, w')) ->
  status_ok r = true
  /\ exists k, issued w <= k < issued w' /\ transport net k = Respond r.
Proof.
  intros [H | [self H]].
  - unfold HTTPRequester.get in H.
    rewrite (@RetryFacts.basic_as_improved net [] GET url
               (timeout_or_default timeout) max_retries retry_delay
               _ 0%Z (recursion_limit net) w eq_refl) in H.
    exact (@RetryMore.retry_returns net _ GET url _ max_retries retry_delay
             _ 0%Z _ _ r w' eq_refl H).
  - unfold ImprovedHTTPRequester.get in H.
    destruct (@RetryMore.retry_returns net _ GET url _ max_retries
                retry_delay _ 0%Z _ _ r w' eq_refl H)
      as [H1 (k & Hk & H2)].
    rewrite (proj1 (RetryFacts.rotate_if_enabled_issued net self w)) in Hk.
    split; [exact H1 |]. now exists k.
Qed.

Lemma get_returns_accepted_response_witness :
  exists w',
    HTTPRequester.get (flaky_net 1) (lit "https://httpbin.org/get") None
                      3 1 fresh_world = (Ok ok_response, w')
    /\ status_ok ok_response = true.
Proof.
  destruct (HTTPRequester.get (flaky_net 1) (lit "https://httpbin.org/get")
              None 3 1 fresh_world) as [[r | e] w'] eqn:E;
    [| vm_compute in E; discriminate E].
  assert (Hr : r = ok_response).
  { vm_compute in E. injection E as <- _. reflexivity. }
  subst r. exists w'. split; [reflexivity |].
  exact (proj1 (@get_returns_accepted_response (flaky_net 1)
                  (lit "https://httpbin.org/get") None 3%Z 1%Q
                  fresh_world w' ok_response (or_introl E))).
Defined.





(** X11: with the rotation switched off, the requester of exercise 3
    does exactly what the requester of exercise 1 does, for [get] and
    for [post]: same result, same requests, same sleeps. *)
Theorem requesters_agree (net : Net) (agents : list str) (url : str)
        (timeout : option Q) (max_retries : Z) (retry_delay : Q) (w : World) :
  let self := {| ImprovedHTTPRequester.user_agents := agents;
                 ImprovedHTTPRequester.rotate_user_agent := false |} in
  ImprovedHTTPRequester.get net self url timeout max_retries retry_delay w
  = HTTPRequester.get net url timeout max_retries retry_delay w
  /\ ImprovedHTTPRequester.post net self url timeout max_retries
                                retry_delay w
     = HTTPRequester.post net url timeout max_retries retry_delay w.
Proof.
  cbv zeta.
  unfold ImprovedHTTPRequester.get, ImprovedHTTPRequester.post,
    HTTPRequester.get, HTTPRequester.post,
    ImprovedHTTPRequester.rotate_if_enabled.
  cbn [ImprovedHTTPRequester.rotate_user_agent].
  split; symmetry; now apply RetryFacts.basic_as_improved with (n := Z.to_nat (max_retries - 0)).
Qed.

(** X12: a requester built by [__init__] has a non-empty pool of user
    agents, its session carries one of them, and during a later [get]
    the session holds a user agent of the pool at every request and at
    the end.  (A [User-Agent] among the headers of the call itself is
    not a header of the session.) *)
Theorem requests_use_pool_agents (net : Net) (agents : option (list str))
        (rotate : bool) (w0 : World) (url : str) (timeout : option Q)
        (max_retries : Z) (retry_delay : Q) :
  let self := fst (ImprovedHTTPRequester.init net agents rotate w0) in
  let w := snd (ImprovedHTTPRequester.init net agents rotate w0) in
  let w' := snd (ImprovedHTTPRequester.get net self url timeout max_retries
                   retry_delay w) in
  ImprovedHTTPRequester.user_agents self <> []
  /\ In (session_user_agent w) (ImprovedHTTPRequester.user_agents self)
  /\ In (session_user_agent w') (ImprovedHTTPRequester.user_agents self)
  /\ exists evs,
       trace w' = trace w ++ evs
       /\ Forall (agent_of_pool (ImprovedHTTPRequester.user_agents self)) evs.
Proof.
  cbv zeta. unfold ImprovedHTTPRequester.init. cbn [fst snd].
  set (self := {| ImprovedHTTPRequester.user_agents := _;
                  ImprovedHTTPRequester.rotate_user_agent := rotate |}).
  assert (Hne : ImprovedHTTPRequester.user_agents self <> []).
  { cbn. destruct agents as [[| a l] |]; discriminate. }
  assert (Hin : In (session_user_agent
                      (ImprovedHTTPRequester.update_user_agent net self w0))
                   (ImprovedHTTPRequester.user_agents self))
    by now apply RetryMore.update_user_agent_pool.
  split; [exact Hne |]. split; [exact Hin |].
  unfold ImprovedHTTPRequester.get.
  set (w := ImprovedHTTPRequester.update_user_agent net self w0) in *.
  assert (Hin' : In (session_user_agent
                       (ImprovedHTTPRequester.rotate_if_enabled net self w))
                    (ImprovedHTTPRequester.user_agents self))
    by now apply RetryMore.rotate_if_enabled_pool.
  destruct (@RetryMore.retry_pool net self GET url
              (timeout_or_default timeout) max_retries retry_delay
              (Z.to_nat (max_retries - 0)) Hne 0%Z (recursion_limit net)
              (ImprovedHTTPRequester.rotate_if_enabled net self w)
              eq_refl Hin') as [H1 (evs & H2 & H3)].
  split; [exact H1 |]. exists evs. split; [| exact H3].
  now rewrite H2, (proj2 (RetryFacts.rotate_if_enabled_issued net self w)).
Qed.

(** ** Pages and articles *)

Lemma str_eqb_eq (a b : str) : str_eqb a b = true <-> a = b.
Proof.
  revert b. induction a as [| x a IH]; intros [| y b]; simpl;
    try (split; [discriminate | discriminate || reflexivity]);
    try (split; reflexivity).
  rewrite andb_true_iff, N.eqb_eq, IH. split.
  - now intros [-> ->].
  - now intros [= -> ->].
Qed.

Lemma collect_external_links_foreign (lib : Lib) (url domain : str)
      (anchors : list Bs4.node) :
  forall links,
    ImprovedHTTPRequester.collect_external_links lib url domain anchors
    = Ok links ->
    Forall (fun link =>
              exists parsed,
                Urllib.urlparse (tables lib) link = Ok parsed
                /\ Urllib.netloc parsed <> []
                /\ Urllib.netloc parsed <> domain) links.
Proof.
  induction anchors as [| a rest IH]; intros links H;
    cbn [ImprovedHTTPRequester.collect_external_links] in H.
  - injection H as <-. constructor.
  - destruct (Bs4.get ImprovedHTTPRequester.s_href a) as [href |];
      [| now apply IH].
    destruct (urljoin lib url href) as [absolute | e]; [| discriminate].
    cbn [bind] in H.
    destruct (Urllib.urlparse (tables lib) absolute) as [parsed | e] eqn:Hp;
      [| discriminate].
    cbn [bind] in H.
    destruct (ImprovedHTTPRequester.collect_external_links lib url domain rest)
      as [others | e]; [| discriminate].
    cbn [bind] in H.
    destruct (truthy (Urllib.netloc parsed)) eqn:Ht; cbn [andb] in H.
    + destruct (str_eqb (Urllib.netloc parsed) domain) eqn:Heq;
        cbn [negb] in H; injection H as <-; [now apply IH |].
      constructor; [| now apply IH].
      exists parsed. split; [exact Hp |]. split.
      * intros Hnil. now rewrite Hnil in Ht.
      * intros Hd. apply str_eqb_eq in Hd. congruence.
    + injection H as <-. now apply IH.
Qed.

(** X13: the [domain] of a page summary is the host of its URL, and no
    external link of the summary has an empty host or the host of the
    page itself. *)
Theorem parse_page_external_links (lib : Lib) (net : Net)
        (self : ImprovedHTTPRequester.t) (url : str) (timeout : option Q)
        (max_retries : Z) (w w' : World)
        (page : ImprovedHTTPRequester.PageSummary) :
  ImprovedHTTPRequester.parse_page lib net self url timeout max_retries w
  = (Ok page, w') ->
  (exists parsed_url,
      Urllib.urlparse (tables lib) url = Ok parsed_url
      /\ ImprovedHTTPRequester.domain page = Urllib.netloc parsed_url)
  /\ Forall (fun link =>
               exists parsed,
                 Urllib.urlparse (tables lib) link = Ok parsed
                 /\ Urllib.netloc parsed <> []
                 /\ Urllib.netloc parsed <> ImprovedHTTPRequester.domain page)
            (ImprovedHTTPRequester.external_links page).
Proof.
  unfold ImprovedHTTPRequester.parse_page. intros H.
  destruct (ImprovedHTTPRequester.get_soup _ _ _ _ _ _ _ _)
    as [[soup | e] w1]; cbn [bind] in H; [| discriminate].
  destruct (Urllib.urlparse _ _) as [parsed | e] eqn:Hu; cbn [bind] in H;
    [| discriminate].
  destruct (ImprovedHTTPRequester.collect_image_links _ _ _) as [il | e];
    cbn [bind] in H; [| discriminate].
  destruct (ImprovedHTTPRequester.collect_external_links _ _ _ _)
    as [el | e] eqn:He; cbn [bind] in H; [| discriminate].
  pose proof (f_equal (fun r => match fst r with
                                | Ok p => ImprovedHTTPRequester.domain p
                                | Raise _ => []
                                end) H) as Hd.
  pose proof (f_equal (fun r => match fst r with
                                | Ok p =>
                                    ImprovedHTTPRequester.external_links p
                                | Raise _ => []
                                end) H) as Hl.
  cbn [fst ImprovedHTTPRequester.domain
       ImprovedHTTPRequester.external_links] in Hd, Hl.
  rewrite <- Hd, <- Hl. split; [now exists parsed |].
  now apply collect_external_links_foreign with (url := url)
    (anchors := Bs4.find_all [ImprovedHTTPRequester.s_a] soup).
Qed.

Lemma parse_page_external_links_witness :
  exists page w',
    ImprovedHTTPRequester.parse_page (demo_lib links_page) (flaky_net 0)
      demo_requester (lit "https://www.esiee.fr/") None 3 demo_world
    = (Ok page, w')
    /\ ImprovedHTTPRequester.external_links page
       = [lit "https://www.example.org/partner"]
    /\ Forall (fun link =>
                 exists parsed,
                   Urllib.urlparse Urllib.ascii_tables link = Ok parsed
                   /\ Urllib.netloc parsed <> []
                   /\ Urllib.netloc parsed
                      <> ImprovedHTTPRequester.domain page)
              (ImprovedHTTPRequester.external_links page).
Proof.
  destruct (ImprovedHTTPRequester.parse_page (demo_lib links_page)
              (flaky_net 0) demo_requester (lit "https://www.esiee.fr/")
              None 3 demo_world) as [[page | e] w'] eqn:E.
  2:{ vm_compute in E. discriminate E. }
  exists page, w'. split; [reflexivity |]. split.
  - vm_compute in E. injection E as <- _. reflexivity.
  - exact (proj2 (parse_page_external_links _ _ _ _ _ _ _ E)).
Defined.

Lemma harvest_images_total (T : Urllib.Tables) (article_url d : str)
      (imgs : list Bs4.node) :
  extract_domain T article_url false = Ok d ->
  exists stored,
    RSSNewsScraper.harvest_images T article_url imgs = Ok stored
    /\ length stored <= length imgs.
Proof.
  intros Hd. induction imgs as [| img rest (stored & IH & Hl)];
    [now exists [] |].
  cbn [RSSNewsScraper.harvest_images]. rewrite IH, Hd. cbn [bind length].
  destruct (RSSNewsScraper.image_source img) as [s |];
    [| exists stored; split; [reflexivity | lia]].
  destruct (truthy s); [| exists stored; split; [reflexivity | lia]].
  destruct (startswith slashes_prefix s);
    [eexists; split; [reflexivity | cbn [length]; lia] |].
  destruct (startswith [Urllib.SLASH] s);
    [eexists; split; [reflexivity | cbn [length]; lia] |].
  destruct (negb (startswith RSSNewsScraper.s_http s));
    [exists stored; split; [reflexivity | lia] |].
  eexists; split; [reflexivity | cbn [length]; lia].
Qed.

(** X14: an article whose two fetches succeed, whose page parses and
    whose URL [extract_domain] accepts is never lost: [scrape_article]
    returns it, with the URL asked for, the domain and the title of the
    page, the first heading as title when there is one, and an image
    count equal to the number of stored images, at most one per
    [<img>]. *)
Theorem scrape_article_succeeds (lib : Lib) (net : Net)
        (requester : ImprovedHTTPRequester.t) (article_url d : str)
        (w w1 w2 : World) (page_data : ImprovedHTTPRequester.PageSummary)
        (fetched : list Bs4.node) :
  ImprovedHTTPRequester.parse_page lib net requester article_url
                                   (Some 15%Q) 3 w
  = (Ok page_data, w1) ->
  ImprovedHTTPRequester.get_soup lib net requester article_url
                                 (Some 15%Q) 3 1 w1
  = (Ok fetched, w2) ->
  extract_domain (tables lib) article_url false = Ok d ->
  exists a,
    RSSNewsScraper.scrape_article lib net requester article_url w
    = (Ok (RSSNewsScraper.ArticleDict a), w2)
    /\ RSSNewsScraper.url a = article_url
    /\ RSSNewsScraper.a_domain a = ImprovedHTTPRequester.domain page_data
    /\ RSSNewsScraper.page_title a = ImprovedHTTPRequester.title page_data
    /\ RSSNewsScraper.article_title a
       = hd (ImprovedHTTPRequester.title page_data)
            (ImprovedHTTPRequester.h1_tags page_data)
    /\ RSSNewsScraper.image_count a = length (RSSNewsScraper.images a)
    /\ length (RSSNewsScraper.images a)
       <= length (Bs4.find_all [lit "img"]
                    (Bs4.decompose_all RSSNewsScraper.unwanted_tags fetched)).
Proof.
  intros Hp Hs Hd.
  unfold RSSNewsScraper.scrape_article, RSSNewsScraper.scrape_article_try.
  rewrite Hp, Hs. cbn [bind].
  destruct (@harvest_images_total (tables lib) article_url d
              (Bs4.find_all [ImprovedHTTPRequester.s_img]
                 (Bs4.decompose_all RSSNewsScraper.unwanted_tags fetched)) Hd)
    as (stored & Hh & Hl).
  rewrite Hh. cbn [bind].
  eexists. split; [reflexivity |].
  cbn [RSSNewsScraper.url RSSNewsScraper.a_domain RSSNewsScraper.page_title
       RSSNewsScraper.article_title RSSNewsScraper.image_count
       RSSNewsScraper.images].
  split; [reflexivity |]. split; [reflexivity |]. split; [reflexivity |].
  split; [now destruct (ImprovedHTTPRequester.h1_tags page_data) |].
  split; [reflexivity | exact Hl].
Qed.

Lemma scrape_article_succeeds_witness :
  exists a w2,
    RSSNewsScraper.scrape_article (demo_lib two_paragraphs) (flaky_net 0)
      demo_requester (lit "https://www.lemonde.fr/a.html") demo_world
    = (Ok (RSSNewsScraper.ArticleDict a), w2)
    /\ RSSNewsScraper.url a = lit "https://www.lemonde.fr/a.html"
    /\ RSSNewsScraper.image_count a = length (RSSNewsScraper.images a).
Proof.
  destruct (ImprovedHTTPRequester.parse_page (demo_lib two_paragraphs)
              (flaky_net 0) demo_requester
              (lit "https://www.lemonde.fr/a.html") (Some 15%Q) 3 demo_world)
    as [[page | e] w1] eqn:Hp.
  2:{ vm_compute in Hp. discriminate Hp. }
  pose proof Hp as Hv. vm_compute in Hv. injection Hv as _ Hw1.
  destruct (ImprovedHTTPRequester.get_soup (demo_lib two_paragraphs)
              (flaky_net 0) demo_requester
              (lit "https://www.lemonde.fr/a.html") (Some 15%Q) 3 1 w1)
    as [[fetched | e] w2] eqn:Hs.
  2:{ rewrite <- Hw1 in Hs. vm_compute in Hs. discriminate Hs. }
  destruct (@scrape_article_succeeds (demo_lib two_paragraphs) (flaky_net 0)
              demo_requester (lit "https://www.lemonde.fr/a.html")
              (lit "lemonde.fr") demo_world w1 w2 page fetched Hp Hs eq_refl)
    as (a & Ha & Hu & _ & _ & _ & Hc & _).
  now exists a, w2.
Defined.

(** ** The number of requests of [scrape_article] *)

Lemma get_issued (net : Net) (self : ImprovedHTTPRequester.t) (url : str)
      (timeout : option Q) (max_retries : Z) (retry_delay : Q) (w : World) :
  issued w
  < issued (snd (ImprovedHTTPRequester.get net self url timeout max_retries
                   retry_delay w))
  <= issued w + Z.to_nat max_retries + 1.
Proof.
  unfold ImprovedHTTPRequester.get.
  destruct (RetryFacts.rotate_if_enabled_issued net self w) as [Hi _].
  pose proof (@RetryMore.retry_issued net self GET url
                (timeout_or_default timeout) max_retries retry_delay 0%Z
                (recursion_limit net)
                (ImprovedHTTPRequester.rotate_if_enabled net self w)) as H.
  rewrite Hi, Z.sub_0_r in H. exact H.
Qed.

Lemma get_soup_world (lib : Lib) (net : Net) (self : ImprovedHTTPRequester.t)
      (url : str) (timeout : option Q) (max_retries : Z) (retry_delay : Q)
      (w : World) :
  snd (ImprovedHTTPRequester.get_soup lib net self url timeout max_retries
         retry_delay w)
  = snd (ImprovedHTTPRequester.get net self url timeout max_retries
           retry_delay w).
Proof.
  unfold ImprovedHTTPRequester.get_soup.
  now destruct (ImprovedHTTPRequester.get _ _ _ _ _ _ _).
Qed.

Lemma parse_page_world (lib : Lib) (net : Net)
      (self : ImprovedHTTPRequester.t) (url : str) (timeout : option Q)
      (max_retries : Z) (w : World) :
  snd (ImprovedHTTPRequester.parse_page lib net self url timeout max_retries w)
  = snd (ImprovedHTTPRequester.get net self url timeout max_retries 1 w).
Proof.
  unfold ImprovedHTTPRequester.parse_page.
  rewrite <- get_soup_world with (lib := lib).
  now destruct (ImprovedHTTPRequester.get_soup _ _ _ _ _ _ _ _).
Qed.

(** X15: one call of [scrape_article] issues at least one and at most
    eight HTTP requests (two fetches of at most four attempts each), and
    at least two when it returns an article. *)
Theorem scrape_article_request_budget (lib : Lib) (net : Net)
        (requester : ImprovedHTTPRequester.t) (article_url : str)
        (w : World) :
  let call := RSSNewsScraper.scrape_article lib net requester article_url w in
  issued w < issued (snd call) <= issued w + 8
  /\ forall a,
      fst call = Ok (RSSNewsScraper.ArticleDict a) ->
      issued w + 2 <= issued (snd call).
Proof.
  cbv zeta.
  pose proof (@get_issued net requester article_url (Some 15%Q) 3 1 w)
    as H1.
  rewrite <- parse_page_world with (lib := lib) in H1.
  unfold RSSNewsScraper.scrape_article, RSSNewsScraper.scrape_article_try.
  destruct (ImprovedHTTPRequester.parse_page lib net requester article_url
              (Some 15%Q) 3 w) as [[page_data | e] w1].
  - cbn [snd] in H1.
    pose proof (@get_issued net requester article_url (Some 15%Q) 3 1 w1)
      as H2.
    rewrite <- get_soup_world with (lib := lib) in H2.
    destruct (ImprovedHTTPRequester.get_soup lib net requester article_url
                (Some 15%Q) 3 1 w1) as [[fetched | e] w2];
      cbn [snd bind] in *.
    + destruct (RSSNewsScraper.harvest_images _ _ _) as [imgs | e];
        cbn [bind fst snd].
      * split; [lia |]. intros _ _. lia.
      * destruct (is_Exception e); cbn [fst snd];
          (split; [lia |]); intros a Ha; lia.
    + destruct (is_Exception e); cbn [fst snd];
        (split; [lia |]); intros a Ha; lia.
  - cbn [snd] in H1. destruct e; cbn [is_Exception fst snd];
      (split; [lia |]); intros a Ha; discriminate Ha.
Qed.

Lemma scrape_article_request_budget_witness :
  issued (snd (RSSNewsScraper.scrape_article (demo_lib two_paragraphs)
                 (flaky_net 9) demo_requester
                 (lit "https://www.lemonde.fr/a.html") demo_world))
  <= issued demo_world + 8.
Proof.
  exact (proj2 (proj1 (@scrape_article_request_budget
                         (demo_lib two_paragraphs) (flaky_net 9)
                         demo_requester
                         (lit "https://www.lemonde.fr/a.html") demo_world))).
Defined.

(** ** RSS feeds *)

Module FeedFacts.

Import RSSFeeds.

Lemma article_of_item_inv (T : Urllib.Tables) (category : str) (item : Item)
      (a : RssArticle) :
  article_of_item T category item = Ok a ->
  r_category a = category /\ domain_of_url T a.
Proof.
  unfold article_of_item, domain_of_url.
  destruct (i_link item) as [[u |] |]; cbn [bind text_or_empty].
  - destruct (extract_domain T u false) as [d |] eqn:Hd; cbn [bind];
      [| discriminate].
    intros [= <-]. cbn. now split.
  - intros [= <-]. cbn. now split.
  - intros [= <-]. cbn. now split.
Qed.

Lemma articles_of_items_spec (T : Urllib.Tables) (category : str)
      (items : list Item) :
  length (articles_of_items T category items) <= length items
  /\ Forall (fun a => r_category a = category /\ domain_of_url T a)
            (articles_of_items T category items).
Proof.
  induction items as [| item rest [IHl IHf]];
    [cbn [articles_of_items length]; split; [lia | constructor] |].
  cbn [articles_of_items length].
  destruct (article_of_item T category item) as [a | e] eqn:Ha.
  - split; [cbn [length]; lia |].
    constructor; [now apply article_of_item_inv with (item := item) | exact IHf].
  - split; [lia | exact IHf].
Qed.

Section Feed.

Variables (lib : Lib) (rss_items : str -> option (list Item)) (net : Net).
Variable requester : ImprovedHTTPRequester.t.

Lemma parse_rss_feed_returns (rss_url category : str) (w : World) :
  exists articles w',
    parse_rss_feed lib rss_items net requester rss_url category w
    = (Ok articles, w')
    /\ Forall (fun a => r_category a = category
                        /\ domain_of_url (tables lib) a) articles.
Proof.
  unfold parse_rss_feed.
  destruct (ImprovedHTTPRequester.get net requester rss_url (Some 15%Q) 3 1 w)
    as [[response | e] w1].
  - destruct (rss_items (text response)) as [items |].
    + eexists _, w1. split; [reflexivity |].
      apply articles_of_items_spec.
    + exists [], w1. split; [reflexivity | constructor].
  - exists [], w1. split; [now destruct e | constructor].
Qed.

Lemma slice_to_length (A : Type) (n : Z) (l : list A) :
  (0 <= n)%Z -> length (slice_to n l) <= Z.to_nat n.
Proof.
  intros Hn. unfold slice_to.
  rewrite (proj2 (Z.leb_le 0 n) Hn), length_firstn. lia.
Qed.

Lemma slice_to_incl (A : Type) (n : Z) (l : list A) : incl (slice_to n l) l.
Proof. unfold slice_to. destruct (0 <=? n)%Z; apply firstn_incl. Qed.

Lemma scrape_article_issued (url : str) (w : World) :
  issued w
  <= issued (snd (RSSNewsScraper.scrape_article lib net requester url w)).
Proof.
  pose proof (@get_issued net requester url (Some 15%Q) 3 1 w) as H1.
  rewrite <- parse_page_world with (lib := lib) in H1.
  unfold RSSNewsScraper.scrape_article, RSSNewsScraper.scrape_article_try.
  destruct (ImprovedHTTPRequester.parse_page lib net requester url
              (Some 15%Q) 3 w) as [[page_data | e] w1]; cbn [snd] in H1.
  - pose proof (@get_issued net requester url (Some 15%Q) 3 1 w1) as H2.
    rewrite <- get_soup_world with (lib := lib) in H2.
    destruct (ImprovedHTTPRequester.get_soup lib net requester url
                (Some 15%Q) 3 1 w1) as [[fetched | e] w2];
      cbn [snd bind] in *.
    + destruct (RSSNewsScraper.harvest_images _ _ _) as [imgs | e];
        cbn [bind snd]; [lia |].
      destruct (is_Exception e); cbn [snd]; lia.
    + destruct (is_Exception e); cbn [snd]; lia.
  - destruct (is_Exception e); cbn [snd]; lia.
Qed.

Lemma parse_rss_feed_issued (rss_url category : str) (w : World) :
  issued w
  <= issued (snd (parse_rss_feed lib rss_items net requester rss_url
                    category w)).
Proof.
  pose proof (@get_issued net requester rss_url (Some 15%Q) 3 1 w) as H1.
  unfold parse_rss_feed.
  destruct (ImprovedHTTPRequester.get net requester rss_url (Some 15%Q) 3 1 w)
    as [[response | e] w1]; cbn [snd] in H1.
  - destruct (rss_items (text response)); cbn [snd]; lia.
  - destruct (is_Exception e); cbn [snd]; lia.
Qed.

Lemma scraped_between_wider (w0 w w' w1 : World) (item : NewsItem) :
  issued w0 <= issued w -> issued w' <= issued w1 ->
  scraped_between lib net requester w w' item ->
  scraped_between lib net requester w0 w1 item.
Proof.
  intros H0 H1. destruct item as [a | a full c]; [trivial |].
  intros (u & wa & wb & Hu & Ht & Hs & Ha & Hb).
  exists u, wa, wb. repeat split; try assumption; lia.
Qed.

Lemma scrape_articles_returns (category : str) (scrape_full_content : bool)
      (articles : list RssArticle) :
  forall w,
    exists items w',
      scrape_articles lib net requester category scrape_full_content
                      articles w
      = (Ok items, w')
      /\ issued w <= issued w'
      /\ List.map article_of items = articles
      /\ Forall (fun item =>
                   match item with
                   | FromFeed a => scrape_full_content && has_url a = false
                   | Merged a _ c =>
                       scrape_full_content && has_url a = true
                       /\ c = category
                   end
                   /\ scraped_between lib net requester w w' item) items.
Proof.
  induction articles as [| article rest IH]; intros w.
  - exists [], w. split; [reflexivity |]. split; [lia |].
    split; [reflexivity | constructor].
  - cbn [scrape_articles].
    destruct (scrape_full_content && has_url article) eqn:Hc.
    + destruct (RetryFacts.time_sleep_ok w RetryFacts.sleepable_one)
        as (w1 & -> & Hi1 & Ht1).
      assert (Hu : exists u, r_url article = Some u).
      { apply andb_true_iff in Hc as [_ Hc]. unfold has_url in Hc.
        destruct (r_url article) as [u |]; [now exists u | discriminate]. }
      destruct Hu as [u Hu]. rewrite Hu.
      pose proof (scrape_article_issued u w1) as Hi2.
      destruct (RSSNewsScraper.scrape_article lib net requester u w1)
        as [[full | e] w2] eqn:Hs.
      2:{ exfalso.
          destruct (ScraperFacts.scrape_article_returns lib net requester
                      u w1) as (d & w2' & Hr).
          rewrite Hs in Hr. discriminate Hr. }
      cbn [snd] in Hi2.
      destruct (IH w2) as (others & w3 & -> & Hi3 & Hm & Hf).
      cbn [bind]. eexists _, w3. split; [reflexivity |].
      split; [lia |].
      split; [cbn [List.map article_of]; now rewrite Hm |].
      constructor.
      * split; [now split |].
        exists u, w1, w2. split; [exact Hu |].
        split; [now exists (trace w) |].
        split; [exact Hs |]. lia.
      * eapply Forall_impl; [| exact Hf].
        intros item [Ha Hb]. split; [exact Ha |].
        apply scraped_between_wider with (w := w2) (w' := w3);
          [lia | lia | exact Hb].
    + destruct (IH w) as (others & w1 & -> & Hi1 & Hm & Hf).
      cbn [bind]. eexists _, w1. split; [reflexivity |].
      split; [exact Hi1 |].
      split; [cbn [List.map article_of]; now rewrite Hm |].
      constructor; [split; [exact Hc | exact I] | exact Hf].
Qed.

(** What the loop over the feeds returns. *)
Lemma scrape_feeds_returns (max_articles_per_feed : Z)
      (scrape_full_content : bool) (feeds : list Feed) :
  forall w,
    exists items w',
      scrape_feeds lib rss_items net requester feeds max_articles_per_feed
                   scrape_full_content w
      = (Ok items, w')
      /\ issued w <= issued w'
      /\ ((0 <= max_articles_per_feed)%Z ->
          length items <= length feeds * Z.to_nat max_articles_per_feed)
      /\ Forall (fun item =>
                   category_of item = r_category (article_of item)
                   /\ In (category_of item) (List.map feed_category feeds)
                   /\ domain_of_url (tables lib) (article_of item)
                   /\ match item with
                      | FromFeed a =>
                          scrape_full_content && has_url a = false
                      | Merged a _ _ =>
                          scrape_full_content && has_url a = true
                      end
                   /\ scraped_between lib net requester w w' item) items.
Proof.
  induction feeds as [| feed rest IH]; intros w.
  - exists [], w. split; [reflexivity |]. split; [lia |].
    split; [simpl; lia | constructor].
  - cbn [scrape_feeds]. fold (feed_category feed).
    destruct (negb (truthy match f_url feed with Some u => u | None => [] end)).
    + destruct (IH w) as (items & w' & -> & Hi & Hl & Hf).
      exists items, w'. split; [reflexivity |]. split; [exact Hi |]. split.
      * intros Hm. specialize (Hl Hm). cbn [length]. lia.
      * eapply Forall_impl; [| exact Hf].
        intros item (Ha & Hb & Hc). split; [exact Ha |].
        split; [now right | exact Hc].
    + pose proof (parse_rss_feed_issued
                    (match f_url feed with Some u => u | None => [] end)
                    (feed_category feed) w) as Hi1.
      destruct (parse_rss_feed_returns
                  (match f_url feed with Some u => u | None => [] end)
                  (feed_category feed) w) as (articles & w1 & Hp & Hart).
      rewrite Hp in Hi1 |- *. cbn [snd] in Hi1.
      destruct (scrape_articles_returns (feed_category feed)
                  scrape_full_content
                  (slice_to max_articles_per_feed articles) w1)
        as (items & w2 & -> & Hi2 & Hmap & Hitems).
      destruct (RetryFacts.time_sleep_ok w2 RetryFacts.sleepable_two)
        as (w3 & -> & Hi3 & _).
      destruct (IH w3) as (others & w4 & -> & Hi4 & Hl & Hf).
      cbn [bind]. exists (items ++ others), w4.
      split; [reflexivity |]. split; [lia |]. split.
      * intros Hm. specialize (Hl Hm).
        pose proof (slice_to_length articles Hm) as Hs.
        rewrite <- Hmap, length_map in Hs.
        rewrite length_app. cbn [length]. lia.
      * apply Forall_app. split.
        -- apply Forall_forall. intros item Hin.
           rewrite Forall_forall in Hitems, Hart.
           destruct (Hitems item Hin) as [Hi Hsc].
           assert (Hin' : In (article_of item) articles).
           { apply (@slice_to_incl _ max_articles_per_feed).
             rewrite <- Hmap. now apply in_map. }
           destruct (Hart _ Hin') as [Hcat Hdom].
           assert (Hsc' : scraped_between lib net requester w w4 item)
             by (apply scraped_between_wider with (w := w1) (w' := w2);
                 [lia | lia | exact Hsc]).
           destruct item as [a | a full c]; cbn [category_of article_of] in *.
           ++ split; [reflexivity |]. split; [left; now rewrite Hcat |].
              split; [exact Hdom |]. split; [exact Hi | exact I].
           ++ destruct Hi as [Hi ->]. split; [now rewrite Hcat |].
              split; [now left |]. split; [exact Hdom |].
              split; [exact Hi | exact Hsc'].
        -- eapply Forall_impl; [| exact Hf].
           intros item (Ha & Hb & Hc & Hd & He). split; [exact Ha |].
           split; [now right |]. split; [exact Hc |]. split; [exact Hd |].
           apply scraped_between_wider with (w := w3) (w' := w4);
             [lia | lia | exact He].
Qed.

End Feed.

End FeedFacts.

(** X16: [parse_rss_feed] never raises: it returns a list, which is empty
    when the fetch of the feed fails and when the XML parser rejects the
    document, and which has at most one article per [<item>]. *)
Theorem parse_rss_feed_never_raises (lib : Lib)
        (rss_items : str -> option (list RSSFeeds.Item)) (net : Net)
        (requester : ImprovedHTTPRequester.t) (rss_url category : str)
        (w : World) :
  (exists articles w',
      RSSFeeds.parse_rss_feed lib rss_items net requester rss_url category w
      = (Ok articles, w'))
  /\ (forall e w1,
         ImprovedHTTPRequester.get net requester rss_url (Some 15%Q) 3 1 w
         = (Raise e, w1) ->
         RSSFeeds.parse_rss_feed lib rss_items net requester rss_url
                                 category w
         = (Ok [], w1))
  /\ (forall response w1,
         ImprovedHTTPRequester.get net requester rss_url (Some 15%Q) 3 1 w
         = (Ok response, w1) ->
         (rss_items (text response) = None ->
          RSSFeeds.parse_rss_feed lib rss_items net requester rss_url
                                  category w
          = (Ok [], w1))
         /\ (forall items,
                rss_items (text response) = Some items ->
                exists articles,
                  RSSFeeds.parse_rss_feed lib rss_items net requester
                                          rss_url category w
                  = (Ok articles, w1)
                  /\ length articles <= length items)).
Proof.
  split.
  - destruct (FeedFacts.parse_rss_feed_returns lib rss_items net requester
                rss_url category w) as (articles & w' & H & _).
    now exists articles, w'.
  - unfold RSSFeeds.parse_rss_feed. split.
    + intros e w1 ->. now destruct e.
    + intros response w1 ->. split.
      * now intros ->.
      * intros items ->. eexists. split; [reflexivity |].
        apply FeedFacts.articles_of_items_spec.
Qed.

Lemma parse_rss_feed_never_raises_witness :
  exists w1,
    RSSFeeds.parse_rss_feed (demo_lib []) (fun _ => Some RSSFeeds.two_items)
      (flaky_net 9) demo_requester
      (lit "https://www.lemonde.fr/rss/une.xml") (lit "Une") demo_world
    = (Ok [], w1).
Proof.
  destruct (ImprovedHTTPRequester.get (flaky_net 9) demo_requester
              (lit "https://www.lemonde.fr/rss/une.xml") (Some 15%Q) 3 1
              demo_world) as [[response | e] w1] eqn:E;
    [vm_compute in E; discriminate E |].
  exists w1.
  exact (proj1 (proj2 (@parse_rss_feed_never_raises (demo_lib [])
                         (fun _ => Some RSSFeeds.two_items) (flaky_net 9)
                         demo_requester
                         (lit "https://www.lemonde.fr/rss/une.xml")
                         (lit "Une") demo_world)) e w1 E).
Defined.

(** X17: every article that [parse_rss_feed] returns carries the
    category that was passed in, and its [domain] is what
    [extract_domain] makes of its [url]; an item whose link
    [extract_domain] rejects is not returned. *)
Theorem parse_rss_feed_articles (lib : Lib)
        (rss_items : str -> option (list RSSFeeds.Item)) (net : Net)
        (requester : ImprovedHTTPRequester.t) (rss_url category : str)
        (w w' : World) (articles : list RSSFeeds.RssArticle) :
  RSSFeeds.parse_rss_feed lib rss_items net requester rss_url category w
  = (Ok articles, w') ->
  Forall (fun a => RSSFeeds.r_category a = category
                   /\ domain_of_url (tables lib) a) articles.
Proof.
  intros H.
  destruct (FeedFacts.parse_rss_feed_returns lib rss_items net requester
              rss_url category w) as (articles0 & w0 & H0 & Hf).
  rewrite H in H0. now injection H0 as -> _.
Qed.

Lemma parse_rss_feed_articles_witness :
  exists articles w',
    RSSFeeds.parse_rss_feed (demo_lib []) (fun _ => Some RSSFeeds.two_items)
      (flaky_net 0) demo_requester
      (lit "https://www.lemonde.fr/rss/une.xml") (lit "Une") demo_world
    = (Ok articles, w')
    /\ List.map RSSFeeds.r_domain articles = [lit "lemonde.fr"]
    /\ Forall (fun a => RSSFeeds.r_category a = lit "Une"
                        /\ domain_of_url Urllib.ascii_tables a) articles.
Proof.
  destruct (RSSFeeds.parse_rss_feed (demo_lib [])
              (fun _ => Some RSSFeeds.two_items) (flaky_net 0) demo_requester
              (lit "https://www.lemonde.fr/rss/une.xml") (lit "Une")
              demo_world) as [[articles | e] w'] eqn:E;
    [| vm_compute in E; discriminate E].
  exists articles, w'. split; [reflexivity |]. split.
  - vm_compute in E. injection E as <- _. reflexivity.
  - exact (parse_rss_feed_articles _ _ _ _ _ _ _ E).
Defined.

(** X18: [scrape_news] never raises, reads at most the first five feeds
    and, for a non-negative [max_articles_per_feed], returns at most that
    many elements per feed, so at most five times as many in all. *)
Theorem scrape_news_bounded (lib : Lib)
        (rss_items : str -> option (list RSSFeeds.Item)) (net : Net)
        (requester : ImprovedHTTPRequester.t)
        (rss_feeds : list RSSFeeds.Feed) (max_articles_per_feed : Z)
        (scrape_full_content : bool) (w : World) :
  exists items w',
    RSSFeeds.scrape_news lib rss_items net requester rss_feeds
                         max_articles_per_feed scrape_full_content w
    = (Ok items, w')
    /\ ((0 <= max_articles_per_feed)%Z ->
        length items <= 5 * Z.to_nat max_articles_per_feed)
    /\ RSSFeeds.scrape_news lib rss_items net requester (firstn 5 rss_feeds)
                            max_articles_per_feed scrape_full_content w
       = (Ok items, w').
Proof.
  unfold RSSFeeds.scrape_news.
  destruct (FeedFacts.scrape_feeds_returns lib rss_items net requester
              max_articles_per_feed scrape_full_content (firstn 5 rss_feeds) w)
    as (items & w' & H & _ & Hl & _).
  exists items, w'. split; [exact H |]. split.
  - intros Hm. specialize (Hl Hm).
    pose proof (length_firstn 5 rss_feeds) as Hf. nia.
  - now rewrite firstn_firstn.
Qed.

Lemma scrape_news_bounded_witness :
  exists items w',
    RSSFeeds.scrape_news (demo_lib two_paragraphs)
      (fun _ => Some RSSFeeds.two_items) (flaky_net 0) demo_requester
      [ {| RSSFeeds.f_category := Some (lit "Une");
           RSSFeeds.f_url := Some (lit "https://www.lemonde.fr/rss/une.xml") |} ]
      1 true demo_world
    = (Ok items, w')
    /\ length items <= 5 * Z.to_nat 1.
Proof.
  destruct (@scrape_news_bounded (demo_lib two_paragraphs)
              (fun _ => Some RSSFeeds.two_items) (flaky_net 0) demo_requester
              [ {| RSSFeeds.f_category := Some (lit "Une");
                   RSSFeeds.f_url :=
                     Some (lit "https://www.lemonde.fr/rss/une.xml") |} ]
              1%Z true demo_world) as (items & w' & H & Hl & _).
  exists items, w'. split; [exact H |]. apply Hl. lia.
Defined.



(** ** The list of feeds *)

Module FeedListFacts.

Import RSSFeeds.

Lemma startswith_app (p s : str) : startswith p (p ++ s) = true.
Proof.
  induction p as [| x p IH]; [reflexivity |].
  cbn [app startswith]. now rewrite N.eqb_refl, IH.
Qed.

Lemma startswith_inv (p s : str) :
  startswith p s = true -> exists rest, s = p ++ rest.
Proof.
  revert s. induction p as [| x p IH]; intros s H; [now exists s |].
  destruct s as [| y s]; [discriminate |]. cbn [startswith] in H.
  apply andb_true_iff in H as [H1 H2]. apply N.eqb_eq in H1. subst y.
  destruct (IH s H2) as (rest & ->). now exists rest.
Qed.

Lemma find_app_lt (c : char) (a b : str) (j : nat) :
  contains c b = false -> find c (a ++ b) = Some j -> j < length a.
Proof.
  intros Hb. revert j. induction a as [| x a IH]; intros j.
  - cbn [app]. intros Hf. destruct (find c b) as [k |] eqn:Hk;
      [| discriminate].
    exfalso. clear Hf. revert k Hk.
    induction b as [| y b IHb]; intros k; cbn [find]; [discriminate |].
    unfold contains in Hb. cbn [existsb] in Hb.
    apply orb_false_iff in Hb as [Hy Hb].
    rewrite N.eqb_sym, Hy.
    destruct (find c b) as [k' |]; [| discriminate].
    intros _. now apply (IHb Hb k').
  - cbn [app find length].
    destruct (x =? c)%N; [intros [= <-]; lia |].
    destruct (find c (a ++ b)) as [k |] eqn:Hk; [| discriminate].
    cbn [option_map]. intros [= <-]. specialize (IH k eq_refl). lia.
Qed.

(** The text before the last [c] keeps a prefix that has no [c]. *)
Lemma rsplit1_head_prefix (c : char) (p rest : str) :
  contains c p = false ->
  exists rest', rsplit1_head c (p ++ rest) = p ++ rest'.
Proof.
  intros Hp. unfold rsplit1_head, rfind.
  destruct (find c (rev (p ++ rest))) as [j |] eqn:Hj; cbn [option_map];
    [| now exists rest].
  rewrite rev_app_distr in Hj.
  assert (Hc : contains c (rev p) = false).
  { unfold contains in *. apply not_true_is_false. intros H.
    apply existsb_exists in H as (x & Hx & Hxc).
    apply in_rev in Hx.
    assert (existsb (N.eqb c) p = true)
      by (apply existsb_exists; now exists x).
    congruence. }
  pose proof (@find_app_lt c (rev rest) (rev p) j Hc Hj) as Hlt.
  rewrite length_rev in Hlt. rewrite length_app.
  exists (firstn (length p + length rest - 1 - j - length p) rest).
  rewrite firstn_app. f_equal. apply firstn_all2. lia.
Qed.

Lemma feeds_of_links_spec (lower : str -> str) (rss_url : str)
      (links : list Bs4.node) :
  length (feeds_of_links lower rss_url links) <= length links
  /\ (startswith RSSNewsScraper.s_http rss_url = true ->
      Forall readable_feed (feeds_of_links lower rss_url links)).
Proof.
  induction links as [| link rest [IHl IHf]];
    [cbn [feeds_of_links length]; split; [lia | constructor] |].
  cbn [feeds_of_links length].
  set (href := match Bs4.get _ link with Some h => h | None => [] end).
  destruct (is_rss_link lower href).
  - split; [cbn [length]; lia |]. intros Hu.
    constructor; [| now apply IHf]. split; cbn [f_category f_url].
    + eexists. split; [reflexivity |].
      now destruct (truthy (Bs4.get_text_strip (Bs4.contents_of link))) eqn:E.
    + eexists. split; [reflexivity |].
      destruct (startswith RSSNewsScraper.s_http href) eqn:E; [exact E |].
      destruct (startswith_inv _ _ Hu) as (tail & ->).
      destruct (@rsplit1_head_prefix Urllib.SLASH RSSNewsScraper.s_http tail
                  eq_refl) as (rest' & ->).
      rewrite <- app_assoc. apply startswith_app.
  - split; [lia | exact IHf].
Qed.

End FeedListFacts.

(** X20: [get_rss_feeds] never raises: it returns a list of feeds, which
    is empty when the page cannot be fetched and which has at most one
    feed per link of the page. *)
Theorem get_rss_feeds_never_raises (lib : Lib) (lower : str -> str)
        (net : Net) (requester : ImprovedHTTPRequester.t) (rss_url : str)
        (w : World) :
  exists feeds w',
    RSSFeeds.get_rss_feeds lib lower net requester rss_url w = (Ok feeds, w')
    /\ (forall e,
           fst (ImprovedHTTPRequester.get_soup lib net requester rss_url
                  (Some 15%Q) 3 1 w) = Raise e ->
           feeds = [])
    /\ (forall soup,
           fst (ImprovedHTTPRequester.get_soup lib net requester rss_url
                  (Some 15%Q) 3 1 w) = Ok soup ->
           length feeds <= length (RSSFeeds.links_with_href soup)).
Proof.
  unfold RSSFeeds.get_rss_feeds.
  destruct (ImprovedHTTPRequester.get_soup lib net requester rss_url
              (Some 15%Q) 3 1 w) as [[soup | e] w1]; cbn [fst].
  - eexists _, w1. split; [reflexivity |]. split; [discriminate |].
    intros soup' [= <-]. apply FeedListFacts.feeds_of_links_spec.
  - exists [], w1. split; [now destruct e |]. split; [reflexivity |].
    discriminate.
Qed.

Lemma get_rss_feeds_never_raises_witness :
  exists feeds w',
    RSSFeeds.get_rss_feeds (demo_lib feeds_page) ascii_lower (flaky_net 9)
      demo_requester (lit "https://www.lemonde.fr/rss/") demo_world
    = (Ok feeds, w')
    /\ feeds = [].
Proof.
  destruct (@get_rss_feeds_never_raises (demo_lib feeds_page) ascii_lower
              (flaky_net 9) demo_requester (lit "https://www.lemonde.fr/rss/")
              demo_world) as (feeds & w' & H & He & _).
  exists feeds, w'. split; [exact H |].
  destruct (fst (ImprovedHTTPRequester.get_soup (demo_lib feeds_page)
                   (flaky_net 9) demo_requester
                   (lit "https://www.lemonde.fr/rss/") (Some 15%Q) 3 1
                   demo_world)) as [soup | e] eqn:E;
    [vm_compute in E; discriminate E |].
  exact (He e eq_refl).
Defined.

(** X21: when the address of the page starts with [http], every feed
    that [get_rss_feeds] returns has a category that is not empty and a
    URL that starts with [http], so that [scrape_news] does not skip
    it. *)
Theorem get_rss_feeds_readable (lib : Lib) (lower : str -> str)
        (net : Net) (requester : ImprovedHTTPRequester.t) (rss_url : str)
        (w w' : World) (feeds : list RSSFeeds.Feed) :
  startswith RSSNewsScraper.s_http rss_url = true ->
  RSSFeeds.get_rss_feeds lib lower net requester rss_url w = (Ok feeds, w') ->
  Forall readable_feed feeds.
Proof.
  intros Hu. unfold RSSFeeds.get_rss_feeds.
  destruct (ImprovedHTTPRequester.get_soup lib net requester rss_url
              (Some 15%Q) 3 1 w) as [[soup | e] w1].
  - intros [= <- _]. now apply FeedListFacts.feeds_of_links_spec.
  - destruct (is_Exception e); [| discriminate].
    intros [= <- _]. constructor.
Qed.

Lemma get_rss_feeds_readable_witness :
  exists feeds w',
    RSSFeeds.get_rss_feeds (demo_lib feeds_page) ascii_lower (flaky_net 0)
      demo_requester (lit "https://www.lemonde.fr/rss/") demo_world
    = (Ok feeds, w')
    /\ List.map RSSFeeds.f_url feeds
       = [Some (lit "https://www.lemonde.fr/rss/rss/une.xml");
          Some (lit "https://www.lemonde.fr/sport.rss")]
    /\ Forall readable_feed feeds.
Proof.
  destruct (RSSFeeds.get_rss_feeds (demo_lib feeds_page) ascii_lower
              (flaky_net 0) demo_requester (lit "https://www.lemonde.fr/rss/")
              demo_world) as [[feeds | e] w'] eqn:E;
    [| vm_compute in E; discriminate E].
  exists feeds, w'. split; [reflexivity |]. split.
  - vm_compute in E. injection E as <- _. reflexivity.
  - exact (@get_rss_feeds_readable (demo_lib feeds_page) ascii_lower
             (flaky_net 0) demo_requester (lit "https://www.lemonde.fr/rss/")
             demo_world w' feeds eq_refl E).
Defined.

(** ** The search scraper *)

Module SearchFacts.

Import GoogleSearchScraper.

Lemma result_of_inv (T : Urllib.Tables) (class_ : str -> Bs4.node -> bool)
      (elem : Bs4.node) (r : SearchResult) :
  result_of T class_ elem = Ok (Some r) -> well_formed_result T r.
Proof.
  unfold result_of. cbv zeta.
  set (title := remove_extra_spaces (text_of (find_link class_ s_result_a elem))).
  set (description :=
         remove_extra_spaces (text_of (find_link class_ s_result_snippet elem))).
  destruct (match find_link class_ s_result_a elem with
            | Some tag => Bs4.get ImprovedHTTPRequester.s_href tag
            | None => Some []
            end) as [u |]; [| discriminate].
  destruct (truthy title && truthy u) eqn:Hc; [| discriminate].
  apply andb_true_iff in Hc as [Ht Hu].
  set (u' := if startswith slashes_prefix u
             then RSSNewsScraper.s_https_colon ++ u else u).
  destruct (extract_domain T u' false) as [d | e] eqn:Hd; cbn [bind];
    [| discriminate].
  intros [= <-]. unfold well_formed_result.
  cbn [sr_title sr_url sr_domain sr_description].
  split; [exact Ht |]. split.
  { subst title.
    destruct (remove_extra_spaces_lines
                (text_of (find_link class_ s_result_a elem)))
      as (L & HL & ->).
    now apply remove_extra_spaces_join. }
  split.
  { subst u'. now destruct (startswith slashes_prefix u). }
  split.
  { subst u'. now destruct (startswith slashes_prefix u) eqn:E. }
  split; [exact Hd |].
  now destruct (truthy description) eqn:E.
Qed.

Lemma collect_results_spec (T : Urllib.Tables)
      (class_ : str -> Bs4.node -> bool) (search_results : list Bs4.node) :
  length (collect_results T class_ search_results) <= length search_results
  /\ Forall (well_formed_result T) (collect_results T class_ search_results).
Proof.
  induction search_results as [| elem rest [IHl IHf]];
    [cbn [collect_results length]; split; [lia | constructor] |].
  cbn [collect_results length].
  destruct (result_of T class_ elem) as [[r |] | e] eqn:Hr.
  - split; [cbn [length]; lia |].
    constructor; [now apply result_of_inv with (class_ := class_) (elem := elem)
                 | exact IHf].
  - split; [lia | exact IHf].
  - split; [lia | exact IHf].
Qed.

End SearchFacts.

(** X22: [search] never raises: it returns a list of results, which is
    empty when the page of results cannot be fetched and which, for a
    non-negative [num_results], has at most [num_results] elements. *)
Theorem search_never_raises (lib : Lib) (class_ : str -> Bs4.node -> bool)
        (net : Net) (requester : ImprovedHTTPRequester.t) (query : str)
        (num_results : Z) (w : World) :
  exists results w',
    GoogleSearchScraper.search lib class_ net requester query num_results w
    = (Ok results, w')
    /\ (forall e,
           fst (ImprovedHTTPRequester.get_soup lib net requester
                  (GoogleSearchScraper.search_prefix ++ query)
                  (Some 15%Q) 3 1 w) = Raise e ->
           results = [])
    /\ ((0 <= num_results)%Z -> length results <= Z.to_nat num_results).
Proof.
  unfold GoogleSearchScraper.search, GoogleSearchScraper.search_duckduckgo.
  cbv zeta.
  destruct (ImprovedHTTPRequester.get_soup lib net requester
              (GoogleSearchScraper.search_prefix ++ query) (Some 15%Q) 3 1 w)
    as [[soup | e] w1]; cbn [fst].
  - eexists _, w1. split; [reflexivity |]. split; [discriminate |].
    intros Hn.
    pose proof (proj1 (SearchFacts.collect_results_spec (tables lib) class_
                         (RSSFeeds.slice_to num_results
                            (GoogleSearchScraper.find_results class_ soup))))
      as H1.
    pose proof (@FeedFacts.slice_to_length _ num_results
                  (GoogleSearchScraper.find_results class_ soup) Hn) as H2.
    lia.
  - exists [], w1. split; [now destruct e |]. split; [reflexivity |].
    intros _. cbn [length]. lia.
Qed.

Lemma search_never_raises_witness :
  exists results w',
    GoogleSearchScraper.search (demo_lib results_page) class_token
      (flaky_net 0) demo_requester (lit "esiee") 1 demo_world
    = (Ok results, w')
    /\ length results <= Z.to_nat 1.
Proof.
  destruct (@search_never_raises (demo_lib results_page) class_token
              (flaky_net 0) demo_requester (lit "esiee") 1%Z demo_world)
    as (results & w' & H & _ & Hl).
  exists results, w'. split; [exact H |]. apply Hl. lia.
Defined.

(** X23: every result that [search] returns has a title that is not
    empty and is clean (a fixed point of [remove_extra_spaces]), a URL
    that is not empty and not protocol-relative, the domain that
    [extract_domain] gives for that URL, and a description that is not
    empty. *)
Theorem search_results_well_formed (lib : Lib)
        (class_ : str -> Bs4.node -> bool) (net : Net)
        (requester : ImprovedHTTPRequester.t) (query : str)
        (num_results : Z) (w w' : World)
        (results : list GoogleSearchScraper.SearchResult) :
  GoogleSearchScraper.search lib class_ net requester query num_results w
  = (Ok results, w') ->
  Forall (well_formed_result (tables lib)) results.
Proof.
  unfold GoogleSearchScraper.search, GoogleSearchScraper.search_duckduckgo.
  cbv zeta.
  destruct (ImprovedHTTPRequester.get_soup lib net requester
              (GoogleSearchScraper.search_prefix ++ query) (Some 15%Q) 3 1 w)
    as [[soup | e] w1].
  - intros [= <- _]. apply SearchFacts.collect_results_spec.
  - destruct (is_Exception e); [| discriminate].
    intros [= <- _]. constructor.
Qed.

Lemma search_results_well_formed_witness :
  exists results w',
    GoogleSearchScraper.search (demo_lib results_page) class_token
      (flaky_net 0) demo_requester (lit "esiee") 10 demo_world
    = (Ok results, w')
    /\ List.map GoogleSearchScraper.sr_url results
       = [lit "https://www.esiee.fr/formations"]
    /\ List.map GoogleSearchScraper.sr_title results = [lit "ESIEE Paris"]
    /\ List.map GoogleSearchScraper.sr_description results = [lit "N/A"]
    /\ Forall (well_formed_result Urllib.ascii_tables) results.
Proof.
  destruct (GoogleSearchScraper.search (demo_lib results_page) class_token
              (flaky_net 0) demo_requester (lit "esiee") 10 demo_world)
    as [[results | e] w'] eqn:E;
    [| vm_compute in E; discriminate E].
  exists results, w'. split; [reflexivity |].
  split; [| split; [| split]].
  1-3: pose proof E as E'; vm_compute in E'; injection E' as <- _;
    reflexivity.
  exact (@search_results_well_formed (demo_lib results_page) class_token
           (flaky_net 0) demo_requester (lit "esiee") 10%Z demo_world w'
           results E).
Defined.
